(** * treatment_rag: ingestion and query pipelines

    A shallow embedding of the data-shaping logic of [treatment_rag]
    ([rag_modules/data_preparation.py], [rag_modules/generation_integration.py]
    and [main.py]) together with the properties stated about it.

    Conventions of the embedding:
    - a Python [str] is a list of Unicode code points ([list N]); [len] is
      [length], [+] is [++], [in] is [str_contains];
    - a metadata dict ([Dict[str, Any]]) is a [gmap string Value]; its keys
      are the ASCII literals of the source, its values are strings or ints;
    - a dict that is iterated (insertion order matters) is an association
      list;
    - an exception is the left summand of [result];
    - the language model, the similarity index and the heading splitter are
      external collaborators: the code is parametric in them. *)

From Stdlib Require Import ZArith NArith List Bool Lia Permutation Sorted Ascii String.
From stdpp Require Import gmap strings list fin_maps.

Local Open Scope N_scope.

(** ** Python strings *)

Module PyStr.

(** Decoding of the UTF-8 bytes of a Rocq string literal, so that the
    constants of the source can be written as they appear there. *)
Fixpoint utf8 (bs : list N) : list N :=
  match bs with
  | [] => []
  | b :: r =>
      if b <? 128 then b :: utf8 r
      else if b <? 224 then
        match r with
        | c1 :: r1 => ((b - 192) * 64 + (c1 - 128)) :: utf8 r1
        | _ => []
        end
      else if b <? 240 then
        match r with
        | c1 :: c2 :: r2 =>
            ((b - 224) * 4096 + (c1 - 128) * 64 + (c2 - 128)) :: utf8 r2
        | _ => []
        end
      else
        match r with
        | c1 :: c2 :: c3 :: r3 =>
            ((b - 240) * 262144 + (c1 - 128) * 4096 + (c2 - 128) * 64
             + (c3 - 128)) :: utf8 r3
        | _ => []
        end
  end.

Fixpoint bytes_of (s : string) : list N :=
  match s with
  | EmptyString => []
  | String a r => N_of_ascii a :: bytes_of r
  end.

Definition py (s : string) : list N := utf8 (bytes_of s).

Definition LF : N := 10.

(** [str.isspace] on one character, which is also what [str.strip] and the
    regular expression class [\s] use. *)
Definition is_space (c : N) : bool :=
  ((9 <=? c) && (c <=? 13)) || ((28 <=? c) && (c <=? 32))
  || (c =? 133) || (c =? 160) || (c =? 5760)
  || ((8192 <=? c) && (c <=? 8202))
  || (c =? 8232) || (c =? 8233) || (c =? 8239) || (c =? 8287)
  || (c =? 12288).

Definition is_upper (c : N) : bool := (65 <=? c) && (c <=? 90).   (* [A-Z] *)
Definition is_lower (c : N) : bool := (97 <=? c) && (c <=? 122).  (* [a-z] *)

(** The decimal digits of Unicode (general category [Nd], Unicode 14.0, the
    table of Python 3.11) come in 66 runs of ten code points, each run in
    the order of the values 0 to 9: the code points of the zeros. These
    are the characters that the class [\d] of [re] matches in a [str]
    and that [int] reads. *)
Definition decimal_zeros : list N :=
  [48; 1632; 1776; 1984; 2406; 2534; 2662; 2790; 2918; 3046; 3174; 3302;
   3430; 3558; 3664; 3792; 3872; 4160; 4240; 6112; 6160; 6470; 6608; 6784;
   6800; 6992; 7088; 7232; 7248; 42528; 43216; 43264; 43472; 43504; 43600;
   44016; 65296; 66720; 68912; 69734; 69872; 69942; 70096; 70384; 70736;
   70864; 71248; 71360; 71472; 71904; 72016; 72784; 73040; 73120; 92768;
   92864; 93008; 120782; 120792; 120802; 120812; 120822; 123200; 123632;
   125264; 130032].

(** The value of a decimal digit, [None] for any other character *)
Definition digit_value (c : N) : option N :=
  (fun zero => c - zero)
  <$> find (fun zero => (zero <=? c) && (c <? zero + 10)) decimal_zeros.

(** [\d] *)
Definition is_digit (c : N) : bool :=
  match digit_value c with
  | Some _ => true
  | None => false
  end.

(** [str.lower] on one character. The ASCII letters are folded. Python
    also folds the cased letters outside ASCII; the only one that becomes
    an ASCII letter is the Kelvin sign (to [k]), so that a text becomes one
    of the route labels under this [lower] exactly when it does under
    Python's. *)
Definition lower_char (c : N) : N := if is_upper c then c + 32 else c.

Definition lower (s : list N) : list N := map lower_char s.

Fixpoint lstrip (s : list N) : list N :=
  match s with
  | c :: r => if is_space c then lstrip r else s
  | [] => []
  end.

Definition rstrip (s : list N) : list N := rev (lstrip (rev s)).

Definition strip (s : list N) : list N := rstrip (lstrip s).

(** [s.startswith(p)] *)
Fixpoint startswith (p s : list N) : bool :=
  match p, s with
  | [], _ => true
  | a :: p', b :: s' => (a =? b) && startswith p' s'
  | _ :: _, [] => false
  end.

(** [p in s] for two strings *)
Fixpoint str_contains (p s : list N) : bool :=
  startswith p s ||
  match s with
  | [] => false
  | _ :: r => str_contains p r
  end.

(** ["sep".join(parts)] *)
Fixpoint join (sep : list N) (parts : list (list N)) : list N :=
  match parts with
  | [] => []
  | [p] => p
  | p :: rest => p ++ sep ++ join sep rest
  end.

(** [str(n)] for a non-negative int *)
Fixpoint digits_of_uint (u : Decimal.uint) : list N :=
  match u with
  | Decimal.Nil => []
  | Decimal.D0 r => 48 :: digits_of_uint r
  | Decimal.D1 r => 49 :: digits_of_uint r
  | Decimal.D2 r => 50 :: digits_of_uint r
  | Decimal.D3 r => 51 :: digits_of_uint r
  | Decimal.D4 r => 52 :: digits_of_uint r
  | Decimal.D5 r => 53 :: digits_of_uint r
  | Decimal.D6 r => 54 :: digits_of_uint r
  | Decimal.D7 r => 55 :: digits_of_uint r
  | Decimal.D8 r => 56 :: digits_of_uint r
  | Decimal.D9 r => 57 :: digits_of_uint r
  end.

Definition str_of_N (n : N) : list N := digits_of_uint (N.to_uint n).

(** [str(z)] for an int *)
Definition str_of_Z (z : Z) : list N :=
  match z with
  | Z0 => [48]
  | Zpos p => str_of_N (Npos p)
  | Zneg p => 45 :: str_of_N (Npos p)
  end.

(** [int(s)] on a string of decimal digits, of any script *)
Definition int_of_digits (s : list N) : Z :=
  fold_left (fun acc c => (10 * acc + Z.of_N (default 0%N (digit_value c)))%Z)
    s 0%Z.

(** [s.encode("utf-8")]: the bytes, or [None] for the [UnicodeEncodeError]
    that a surrogate (U+D800 to U+DFFF) raises. A [str] holds code points
    up to U+10FFFF. *)
Definition encode_char (c : N) : option (list N) :=
  if c <? 128 then Some [c]
  else if c <? 2048 then Some [192 + c / 64; 128 + c mod 64]
  else if (55296 <=? c) && (c <=? 57343) then None
  else if c <? 65536 then
    Some [224 + c / 4096; 128 + (c / 64) mod 64; 128 + c mod 64]
  else
    Some [240 + c / 262144; 128 + (c / 4096) mod 64; 128 + (c / 64) mod 64;
          128 + c mod 64].

Fixpoint encode (s : list N) : option (list N) :=
  match s with
  | [] => Some []
  | c :: r =>
      match encode_char c, encode r with
      | Some b, Some bs => Some (b ++ bs)
      | _, _ => None
      end
  end.

End PyStr.
Import PyStr.

(** ** Exceptions *)

Inductive exn : Type :=
| ValueError (msg : list N)
| KeyError (key : string)
| TypeError
| AttributeError
| ExternalError (what : list N).

Definition result (A : Type) : Type := (exn + A)%type.

Definition ret {A} (a : A) : result A := inr a.
Definition raise {A} (e : exn) : result A := inl e.
Definition bind {A B} (m : result A) (k : A -> result B) : result B :=
  match m with
  | inl e => inl e
  | inr a => k a
  end.

Notation "'let*' x ':=' m 'in' k" := (bind m (fun x => k))
  (at level 10, x name, m at level 100, k at level 200).

(** ** Documents *)

Inductive Value : Type :=
| VStr (s : list N)
| VInt (n : Z).

#[global] Instance Value_eq_dec : EqDecision Value.
Proof. solve_decision. Defined.

(** Python truthiness of [d.get(k)] *)
Definition truthy (v : option Value) : bool :=
  match v with
  | None => false
  | Some (VStr s) => negb (bool_decide (s = []))
  | Some (VInt n) => negb (n =? 0)%Z
  end.

(** [f"{v}"] *)
Definition format_value (v : Value) : list N :=
  match v with
  | VStr s => s
  | VInt n => str_of_Z n
  end.

Record Document : Type := mkDocument {
  page_content : list N;
  metadata : gmap string Value
}.

#[global] Instance Document_eq_dec : EqDecision Document.
Proof. solve_decision. Defined.

(** ** The generation backend *)

(** The four prompt templates through which the language model is called;
    a chain is [template | llm | StrOutputParser()]. *)
Inductive Prompt : Type :=
| RouterPrompt
| RewritePrompt
| BasicPrompt (context : list N)
| StepByStepPrompt (context : list N).

(** ** Regular expressions of the source

    Each pattern of the source is rendered as a matcher at one position of
    the text: it returns the length of the match that [re] finds starting
    there (and what replaces it), or [None]. None of the patterns matches
    the empty string. *)

Module Re.

(** [re.sub(pattern, repl, text)]: leftmost matches, not overlapping. [skip]
    counts the characters of the current match that are still to be
    dropped. *)
Fixpoint sub (match_at : list N -> option (nat * list N)) (skip : nat)
    (s : list N) : list N :=
  match s with
  | [] => []
  | c :: r =>
      match skip with
      | S k => sub match_at k r
      | O =>
          match match_at s with
          | Some (S k, repl) => repl ++ sub match_at k r
          | _ => c :: sub match_at O r
          end
      end
  end.

Fixpoint take_while (f : N -> bool) (s : list N) : list N :=
  match s with
  | c :: r => if f c then c :: take_while f r else []
  | [] => []
  end.

Fixpoint drop_while (f : N -> bool) (s : list N) : list N :=
  match s with
  | c :: r => if f c then drop_while f r else s
  | [] => []
  end.

(** One ASCII letter of a pattern under [re.IGNORECASE]; [k] is given in
    lower case. Besides the two ASCII cases, [re] accepts four letters
    outside ASCII: U+0130 and U+0131 for [i], U+017F for [s] and U+212A for
    [k]. *)
Definition ci_eq (k c : N) : bool :=
  (lower_char c =? k)
  || ((k =? 105) && ((c =? 304) || (c =? 305)))
  || ((k =? 115) && (c =? 383))
  || ((k =? 107) && (c =? 8490)).

(** A literal under [re.IGNORECASE]; [kw] is given in lower case. *)
Fixpoint ci_startswith (kw s : list N) : bool :=
  match kw, s with
  | [], _ => true
  | k :: kw', c :: s' => ci_eq k c && ci_startswith kw' s'
  | _ :: _, [] => false
  end.

(** [#+\s*(kw1|kw2|...)] at a position that [^] accepts. The trailing [.*]
    of the pattern only extends the match to the end of the line. *)
Definition ref_heading_at (kws : list (list N)) (s : list N) : bool :=
  match s with
  | 35 :: _ =>
      let after := drop_while is_space (drop_while (N.eqb 35) s) in
      existsb (fun kw => ci_startswith kw after) kws
  | _ => false
  end.

(** [re.split(ref_pattern, text, flags=re.MULTILINE)[0]]: the text before
    the first match. [bol] tells whether the position is the beginning of a
    line. *)
Fixpoint before_ref_heading (kws : list (list N)) (bol : bool) (s : list N)
    : list N :=
  match s with
  | [] => []
  | c :: r =>
      if bol && ref_heading_at kws s then []
      else c :: before_ref_heading kws (c =? LF) r
  end.

(** Number of characters up to and including the first [stop], none of
    them satisfying [bad] before it. *)
Fixpoint span_to (stop : N) (bad : N -> bool) (s : list N) : option nat :=
  match s with
  | [] => None
  | c :: r =>
      if c =? stop then Some 1%nat
      else if bad c then None
      else S <$> span_to stop bad r
  end.

(** [<[^>]+>] *)
Definition tag_at (s : list N) : option (nat * list N) :=
  match s with
  | 60 :: c :: r =>
      if c =? 62 then None
      else (fun n => (S (S n), [])) <$> span_to 62 (fun _ => false) r
  | _ => None
  end.

(** [<br\s*/?>], replaced by a newline *)
Definition br_at (s : list N) : option (nat * list N) :=
  match s with
  | 60 :: 98 :: 114 :: r =>
      let ws := take_while is_space r in
      match drop_while is_space r with
      | 47 :: 62 :: _ => Some ((5 + length ws)%nat, [LF])
      | 62 :: _ => Some ((4 + length ws)%nat, [LF])
      | _ => None
      end
  | _ => None
  end.

(** Lazy [.*?] followed by the two characters [](]: the number of
    characters before them, on one line. *)
Fixpoint caption_len (s : list N) : option nat :=
  match s with
  | [] => None
  | c :: r =>
      if startswith [93; 40] s then Some O
      else if c =? LF then None
      else S <$> caption_len r
  end.

(** [!\[(.*?)\]\(.*?\)]: the length of the match and its caption. *)
Definition image_at (s : list N) : option (nat * list N) :=
  match s with
  | 33 :: 91 :: r =>
      match caption_len r with
      | Some n =>
          match span_to 41 (N.eqb LF) (drop (n + 2) r) with
          | Some m => Some ((2 + n + 2 + m)%nat, take n r)
          | None => None
          end
      | None => None
      end
  | _ => None
  end.

(** [!\[.*?\]\(.*?\)] replaced by the empty string *)
Definition image_drop_at (s : list N) : option (nat * list N) :=
  (fun '(n, _) => (n, [])) <$> image_at s.

(** [\n{3,}] replaced by two newlines *)
Definition blank_lines_at (s : list N) : option (nat * list N) :=
  let n := length (take_while (N.eqb LF) s) in
  if (3 <=? n)%nat then Some (n, [LF; LF]) else None.

(** [part(\d+)] under [re.IGNORECASE] at a position: group 1. *)
Definition part_at (s : list N) : option (list N) :=
  if ci_startswith [112; 97; 114; 116] s then
    match take_while is_digit (drop 4 s) with
    | [] => None
    | ds => Some ds
    end
  else None.

(** [re.search(r'part(\d+)', s, re.IGNORECASE)]: group 1 of the leftmost
    match. *)
Fixpoint search_part (s : list N) : option (list N) :=
  match s with
  | [] => None
  | _ :: r =>
      match part_at s with
      | Some ds => Some ds
      | None => search_part r
      end
  end.

(** The position after a character [prev] where the camel-case pattern may
    end a match: [(?<=[a-z])(?=[A-Z])], [(?<=[A-Z])(?=[A-Z][a-z])] or [$]
    (the end of the text, or just before a newline that ends it). *)
Definition camel_boundary (prev : N) (rest : list N) : bool :=
  match rest with
  | [] => true
  | c :: r =>
      (is_lower prev && is_upper c)
      || (is_upper prev && is_upper c
          && match r with d :: _ => is_lower d | [] => false end)
      || ((c =? LF) && match r with [] => true | _ :: _ => false end)
  end.

(** [re.finditer('.+?(?:(?<=[a-z])(?=[A-Z])|(?<=[A-Z])(?=[A-Z][a-z])|$)', s)]:
    the matched pieces. [cur] holds, in reverse, the characters of the
    match in progress. [.] does not match a newline: a match in progress
    that reaches one fails, and so does every attempt that starts inside
    it, since they would pass the same positions. *)
Fixpoint camel_matches (cur : list N) (s : list N) : list (list N) :=
  match s with
  | [] => []
  | c :: r =>
      if c =? LF then camel_matches [] r
      else if camel_boundary c r then rev (c :: cur) :: camel_matches [] r
      else camel_matches (c :: cur) r
  end.

End Re.

(** ** GenerationIntegrationModule *)

Module GenerationIntegrationModule.

Definition label_list : list N := Eval vm_compute in py "list".
Definition label_detail : list N := Eval vm_compute in py "detail".
Definition label_general : list N := Eval vm_compute in py "general".

Definition valid_routes : list (list N) :=
  [label_list; label_detail; label_general].

(** The placeholder of an empty context *)
Definition no_information : list N :=
  Eval vm_compute in py "暂无相关疾病信息。".

(** ["\n" + "="*50] *)
Definition separator : list N := LF :: repeat 61 50.

Definition marker_open : list N := Eval vm_compute in py "【治疗方案 ".
Definition marker_close : list N := Eval vm_compute in py "】".
Definition category_tag : list N := Eval vm_compute in py " | 分类: ".

(** The block of the [i]-th document: index marker, topic and category
    when the metadata has them, the full text. *)
Definition doc_text (i : N) (doc : Document) : list N :=
  let metadata_info := marker_open ++ str_of_N i ++ marker_close in
  let metadata_info :=
    match metadata doc !! "case_report_id" with
    | Some v => metadata_info ++ [32] ++ format_value v
    | None => metadata_info
    end in
  let metadata_info :=
    match metadata doc !! "category" with
    | Some v => metadata_info ++ category_tag ++ format_value v
    | None => metadata_info
    end in
  metadata_info ++ [LF] ++ page_content doc ++ [LF].

(** The loop of [_build_context]: [context_parts] in order. *)
Fixpoint context_parts (max_length : Z) (i : N) (current_length : Z)
    (docs : list Document) : list (list N) :=
  match docs with
  | [] => []
  | doc :: rest =>
      let t := doc_text i doc in
      if (current_length + Z.of_nat (length t) >? max_length)%Z then []
      else t :: context_parts max_length (i + 1)
                  (current_length + Z.of_nat (length t))%Z rest
  end.

Definition _build_context (docs : list Document) (max_length : Z) : list N :=
  match docs with
  | [] => no_information
  | _ :: _ => separator ++ join [LF] (context_parts max_length 1 0%Z docs)
  end.

Definition default_max_length : Z := 2000.

Section Backend.
(** [chain.invoke(query)]: the text returned by the backend, or the
    exception it raised. *)
Variable llm : Prompt -> list N -> result (list N).

Definition query_router (query : list N) : result (list N) :=
  let* raw := llm RouterPrompt query in
  let result := lower (strip raw) in
  if bool_decide (result ∈ valid_routes) then ret result
  else ret label_general.

Definition query_rewrite (query : list N) : result (list N) :=
  let* raw := llm RewritePrompt query in
  ret (strip raw).

Definition generate_basic_answer (query : list N) (context_docs : list Document)
    : result (list N) :=
  let context := _build_context context_docs default_max_length in
  llm (BasicPrompt context) query.

Definition generate_step_by_step_answer (query : list N)
    (context_docs : list Document) : result (list N) :=
  let context := _build_context context_docs default_max_length in
  llm (StepByStepPrompt context) query.
End Backend.

Definition no_dishes : list N := Eval vm_compute in
  py "抱歉，没有找到相关的菜品信息。".
Definition unknown_disease : list N := Eval vm_compute in py "未知疾病".
Definition recommend_one : list N := Eval vm_compute in py "为您推荐：".
Definition recommend_some : list N := Eval vm_compute in
  py "为您推荐以下治疗方案：
".
Definition others_open : list N := Eval vm_compute in py "

还有其他 ".
Definition others_close : list N := Eval vm_compute in py " 道菜品可供选择。".

(** [doc.metadata.get('case_report_id', '未知疾病')] *)
Definition dish_name_of (doc : Document) : Value :=
  default (VStr unknown_disease) (metadata doc !! "case_report_id").

(** The loop that collects the names, each once *)
Fixpoint collect_names (docs : list Document) (dish_names : list Value)
    : list Value :=
  match docs with
  | [] => dish_names
  | doc :: rest =>
      let dish_name := dish_name_of doc in
      if bool_decide (dish_name ∈ dish_names)
      then collect_names rest dish_names
      else collect_names rest (dish_names ++ [dish_name])
  end.

(** [[f"{i+1}. {name}" for i, name in enumerate(names)]], [i] counted
    from [start] *)
Fixpoint numbered (start : N) (names : list Value) : list (list N) :=
  match names with
  | [] => []
  | name :: rest =>
      (str_of_N (start + 1) ++ [46; 32] ++ format_value name)
        :: numbered (start + 1) rest
  end.

Definition generate_list_answer (query : list N)
    (context_docs : list Document) : list N :=
  match context_docs with
  | [] => no_dishes
  | _ :: _ =>
      let dish_names := collect_names context_docs [] in
      match dish_names with
      | [name] => recommend_one ++ format_value name
      | _ =>
          if (length dish_names <=? 3)%nat
          then recommend_some ++ join [LF] (numbered 0 dish_names)
          else recommend_some ++ join [LF] (numbered 0 (take 3 dish_names))
               ++ others_open
               ++ str_of_Z (Z.of_nat (length dish_names) - 3)
               ++ others_close
      end
  end.

End GenerationIntegrationModule.

(** ** Paths

    [pathlib.PurePosixPath]: a path is its root ([/], [//] or none) and
    its components. *)

Module Path.

Record t : Type := mkPath {
  root : list N;
  components : list (list N)
}.

(** [s.split(sep)] for a separator of one character *)
Fixpoint split_char (sep : N) (cur : list N) (s : list N) : list (list N) :=
  match s with
  | [] => [rev cur]
  | c :: r =>
      if c =? sep then rev cur :: split_char sep [] r
      else split_char sep (c :: cur) r
  end.

(** [Path(s)]: empty components and [.] are dropped; two leading slashes,
    and only two, are a root of their own. *)
Definition of_str (s : list N) : t :=
  let root :=
    match s with
    | 47 :: 47 :: 47 :: _ => [47]
    | 47 :: 47 :: _ => [47; 47]
    | 47 :: _ => [47]
    | _ => []
    end in
  mkPath root
    (filter (fun x => x ≠ [] ∧ x ≠ [46]) (split_char 47 [] s)).

(** [p.parts] *)
Definition parts (p : t) : list (list N) :=
  match root p with
  | [] => components p
  | r => r :: components p
  end.

(** [p.parent]: a path without components is its own parent. *)
Definition parent (p : t) : t :=
  match components p with
  | [] => p
  | _ :: _ => mkPath (root p) (removelast (components p))
  end.

(** [p.name] *)
Definition name (p : t) : list N := List.last (components p) [].

(** [s.rfind('.')], when there is a dot *)
Fixpoint rfind_dot (i : nat) (s : list N) (found : option nat) : option nat :=
  match s with
  | [] => found
  | c :: r => rfind_dot (S i) r (if c =? 46 then Some i else found)
  end.

(** [p.stem]: the name without its last suffix; a dot that starts or ends
    the name starts no suffix (the rule of [pathlib] up to Python 3.13). *)
Definition stem (p : t) : list N :=
  let name := name p in
  match rfind_dot 0 name None with
  | Some i =>
      if ((0 <? i)%nat && (i <? length name - 1)%nat)%bool then take i name
      else name
  | None => name
  end.

End Path.

(** ** DataPreparationModule (flat case-report corpus) *)

#[global] Program Instance Value_countable : Countable Value :=
  inj_countable'
    (fun v => match v with VStr s => inl s | VInt n => inr n end)
    (fun x => match x with inl s => VStr s | inr n => VInt n end) _.
Next Obligation. by intros []. Qed.

(** [text.split('\n')] *)
Fixpoint split_lines_aux (cur : list N) (s : list N) : list (list N) :=
  match s with
  | [] => [rev cur]
  | c :: r =>
      if c =? LF then rev cur :: split_lines_aux [] r
      else split_lines_aux (c :: cur) r
  end.

Definition split_lines (s : list N) : list (list N) := split_lines_aux [] s.

(** Warnings written to the log *)
Inductive Warning : Type :=
| NoHeadersFound (doc_index : nat)
| NotSplitByHeaders (doc_index : nat)
| SplitFailed (doc_index : nat) (e : exn).

Module DataPreparationModule.

Definition CATEGORY_MAPPING : list (list N * list N) := Eval vm_compute in
  [ (py "fracture", py "骨折");
    (py "hemangioma", py "血管瘤");
    (py "infection", py "感染");
    (py "intervertebral", py "椎间盘问题");
    (py "malignant_tumor", py "恶性肿瘤");
    (py "others", py "其他类型疾病") ].

(** [CATEGORY_LABELS = list(set(CATEGORY_MAPPING.values()))]: the labels
    without repetition, in the iteration order of the set, which the
    language leaves open. *)
Definition is_CATEGORY_LABELS (labels : list (list N)) : Prop :=
  NoDup labels ∧ ∀ l, l ∈ labels ↔ l ∈ CATEGORY_MAPPING.*2.

Definition references_keywords : list (list N) := Eval vm_compute in
  [py "references"; py "bibliography"; py "literature cited"; py "works cited"].

Definition clean_academic_markdown (text : list N) : list N :=
  match text with
  | [] => []
  | _ :: _ =>
      let cleaned_text := Re.before_ref_heading references_keywords true text in
      let cleaned_text := Re.sub Re.tag_at 0 cleaned_text in
      let cleaned_text := Re.sub Re.image_drop_at 0 cleaned_text in
      let cleaned_text := Re.sub Re.blank_lines_at 0 cleaned_text in
      strip cleaned_text
  end.

(** An element of the chunk list: a document of its own, or the [i]-th
    parent document itself, which the failure path appends; what is then
    written to such a chunk is written to the parent. *)
Inductive ChunkRef : Type :=
| Fresh (d : Document)
| Parent (i : nat).

Record state : Type := mkState {
  documents : list Document;
  chunks : list ChunkRef;
  parent_child_map : gmap (list N) Value
}.

Definition deref (docs : list Document) (c : ChunkRef) : option Document :=
  match c with
  | Fresh d => Some d
  | Parent i => docs !! i
  end.

(** The fragments held by the module, as documents *)
Definition fragments (st : state) : list Document :=
  omap (deref (documents st)) (chunks st).

Definition doc_type_child : list N := Eval vm_compute in py "child".
Definition load_first : list N := Eval vm_compute in py "请先加载文档".

Section Chunking.
(** [MarkdownHeaderTextSplitter(...).split_text]: the heading splitter of
    the [langchain_text_splitters] package, with the three heading levels
    and [strip_headers=False]. *)
Variable split_text : list N -> result (list Document).
(** [str(uuid.uuid4())]: the [n]-th identifier drawn. *)
Variable uuid4 : nat -> list N.

(** The inner loop of [_markdown_header_split] over the chunks of one
    document. *)
Fixpoint link_children (doc_metadata : gmap string Value) (parent_id : Value)
    (i : nat) (md_chunks : list Document) (pcm : gmap (list N) Value)
    (next : nat) : list Document * gmap (list N) Value * nat :=
  match md_chunks with
  | [] => ([], pcm, next)
  | chunk :: rest =>
      let child_id := uuid4 next in
      let md := doc_metadata ∪ metadata chunk in
      let md :=
        <["chunk_index" := VInt (Z.of_nat i)]>
          (<["doc_type" := VStr doc_type_child]>
             (<["parent_id" := parent_id]>
                (<["chunk_id" := VStr child_id]> md))) in
      let '(rest', pcm', next') :=
        link_children doc_metadata parent_id (S i) rest
          (<[child_id := parent_id]> pcm) (S next) in
      (mkDocument (page_content chunk) md :: rest', pcm', next')
  end.

Definition has_headers (content : list N) : bool :=
  existsb (fun line => startswith [35] (strip line))
    (split_lines (take 200 content)).

Record split_acc : Type := mkAcc {
  all_chunks : list ChunkRef;
  acc_map : gmap (list N) Value;
  acc_next : nat;
  acc_log : list Warning
}.

(** The failure path: the parent document itself becomes the chunk. *)
Definition split_failed (idx : nat) (e : exn) (ws : list Warning)
    (acc : split_acc) : split_acc :=
  mkAcc (all_chunks acc ++ [Parent idx]) (acc_map acc) (acc_next acc)
    (acc_log acc ++ ws ++ [SplitFailed idx e]).

(** One turn of the loop of [_markdown_header_split], with its [try]. *)
Definition split_document (idx : nat) (doc : Document) (acc : split_acc)
    : split_acc :=
  let w1 :=
    if has_headers (page_content doc) then [] else [NoHeadersFound idx] in
  match split_text (page_content doc) with
  | inl e => split_failed idx e w1 acc
  | inr md_chunks =>
      let w2 :=
        if (length md_chunks <=? 1)%nat then [NotSplitByHeaders idx] else [] in
      match metadata doc !! "parent_id" with
      | None => split_failed idx (KeyError "parent_id") (w1 ++ w2) acc
      | Some parent_id =>
          let '(linked, pcm, next) :=
            link_children (metadata doc) parent_id 0 md_chunks
              (acc_map acc) (acc_next acc) in
          mkAcc (all_chunks acc ++ map Fresh linked) pcm next
            (acc_log acc ++ w1 ++ w2)
      end
  end.

Fixpoint split_documents (idx : nat) (docs : list Document) (acc : split_acc)
    : split_acc :=
  match docs with
  | [] => acc
  | doc :: rest => split_documents (S idx) rest (split_document idx doc acc)
  end.

Definition _markdown_header_split (st : state) (next : nat) : split_acc :=
  split_documents 0 (documents st) (mkAcc [] (parent_child_map st) next []).

(** What [chunk_documents] writes to the metadata of chunk number [i]. *)
Definition stamp (i : nat) (next : nat) (d : Document) : Document * nat :=
  let '(md, next) :=
    match metadata d !! "chunk_id" with
    | Some _ => (metadata d, next)
    | None => (<["chunk_id" := VStr (uuid4 next)]> (metadata d), S next)
    end in
  let md := <["batch_index" := VInt (Z.of_nat i)]> md in
  let md := <["chunk_size" := VInt (Z.of_nat (length (page_content d)))]> md in
  (mkDocument (page_content d) md, next).

Fixpoint stamp_chunks (i : nat) (cs : list ChunkRef) (docs : list Document)
    (next : nat) : list ChunkRef * list Document * nat :=
  match cs with
  | [] => ([], docs, next)
  | Fresh d :: rest =>
      let '(d', next) := stamp i next d in
      let '(rest', docs', next') := stamp_chunks (S i) rest docs next in
      (Fresh d' :: rest', docs', next')
  | Parent j :: rest =>
      match docs !! j with
      | Some d =>
          let '(d', next) := stamp i next d in
          let '(rest', docs', next') :=
            stamp_chunks (S i) rest (<[j := d']> docs) next in
          (Parent j :: rest', docs', next')
      | None =>
          let '(rest', docs', next') := stamp_chunks (S i) rest docs next in
          (Parent j :: rest', docs', next')
      end
  end.

Definition chunk_documents (st : state) (next : nat)
    : result (state * nat * list Warning) :=
  match documents st with
  | [] => raise (ValueError load_first)
  | _ :: _ =>
      let acc := _markdown_header_split st next in
      let '(cs, docs, next') :=
        stamp_chunks 0 (all_chunks acc) (documents st) (acc_next acc) in
      ret (mkState docs cs (acc_map acc), next', acc_log acc)
  end.
End Chunking.

(** The dict [parent_relevance], in insertion order *)
Fixpoint count_parent (parent_id : Value) (rel : list (Value * nat))
    : list (Value * nat) :=
  match rel with
  | [] => [(parent_id, 1%nat)]
  | (k, n) :: r =>
      if decide (k = parent_id) then (k, S n) :: r
      else (k, n) :: count_parent parent_id r
  end.

(** The first document whose [parent_id] is the one looked for *)
Definition find_parent (docs : list Document) (parent_id : Value)
    : option Document :=
  find (fun doc => bool_decide (metadata doc !! "parent_id" = Some parent_id))
    docs.

(** The first loop of [get_parent_documents] *)
Fixpoint collect_parents (docs : list Document) (child_chunks : list Document)
    (parent_relevance : list (Value * nat))
    (parent_docs_map : gmap Value Document)
    : list (Value * nat) * gmap Value Document :=
  match child_chunks with
  | [] => (parent_relevance, parent_docs_map)
  | chunk :: rest =>
      match metadata chunk !! "parent_id" with
      | Some parent_id =>
          if truthy (Some parent_id) then
            let parent_relevance := count_parent parent_id parent_relevance in
            let parent_docs_map :=
              match parent_docs_map !! parent_id with
              | Some _ => parent_docs_map
              | None =>
                  match find_parent docs parent_id with
                  | Some doc => <[parent_id := doc]> parent_docs_map
                  | None => parent_docs_map
                  end
              end in
            collect_parents docs rest parent_relevance parent_docs_map
          else collect_parents docs rest parent_relevance parent_docs_map
      | None => collect_parents docs rest parent_relevance parent_docs_map
      end
  end.

(** [sorted(xs, key=key, reverse=True)]: stable, larger keys first. *)
Fixpoint insert_desc {A} (key : A -> nat) (x : A) (l : list A) : list A :=
  match l with
  | [] => [x]
  | y :: l' =>
      if (key x <? key y)%nat then y :: insert_desc key x l'
      else x :: l
  end.

Definition sorted_desc {A} (key : A -> nat) (l : list A) : list A :=
  foldr (insert_desc key) [] l.

Definition get_parent_documents (docs : list Document)
    (child_chunks : list Document) : list Document :=
  let '(parent_relevance, parent_docs_map) :=
    collect_parents docs child_chunks [] ∅ in
  let sorted_parent_ids := (sorted_desc snd parent_relevance).*1 in
  omap (fun parent_id => parent_docs_map !! parent_id) sorted_parent_ids.

Definition category_other : list N := Eval vm_compute in py "其他".
Definition category_unknown : list N := Eval vm_compute in py "未知".
Definition doc_type_parent : list N := Eval vm_compute in py "parent".

(** The loop of [_enhance_metadata] over the items of the mapping *)
Fixpoint find_category (mapping : list (list N * list N))
    (path_parts : list (list N)) : option (list N) :=
  match mapping with
  | [] => None
  | (key, value) :: rest =>
      if bool_decide (key ∈ path_parts) then Some value
      else find_category rest path_parts
  end.

(** [Path(doc.metadata.get('source', ''))]; a [source] that is no string
    makes [Path] raise. *)
Definition source_path (doc : Document) : result Path.t :=
  match metadata doc !! "source" with
  | None => ret (Path.of_str [])
  | Some (VStr s) => ret (Path.of_str s)
  | Some (VInt _) => raise TypeError
  end.

Definition _enhance_metadata (doc : Document) : result Document :=
  let* source := source_path doc in
  let file_path := Path.parent source in
  let path_parts := Path.parts file_path in
  let category :=
    default category_other (find_category CATEGORY_MAPPING path_parts) in
  ret (mkDocument (page_content doc)
         (<["case_report_id" := VStr (Path.stem file_path)]>
            (<["category" := VStr category]> (metadata doc)))).

(** A Markdown file found under the data path: [str(md_file)], what
    reading it gives, and its path relative to the data root in POSIX
    form (the path itself when it cannot be made relative). *)
Record MdFile : Type := mkMdFile {
  md_file : list N;
  file_content : result (list N);
  relative_path : list N
}.

Section Loading.
(** [hashlib.md5(b).hexdigest()], of the bytes [b] *)
Variable md5_hexdigest : list N -> list N.

(** The first loop of [load_documents]: a file that cannot be read, or
    whose relative path cannot be encoded for the digest, is logged and
    left out. *)
Fixpoint read_documents (files : list MdFile) : list Document :=
  match files with
  | [] => []
  | f :: rest =>
      match file_content f with
      | inr content =>
          match encode (relative_path f) with
          | Some path_bytes =>
              mkDocument (clean_academic_markdown content)
                (<["doc_type" := VStr doc_type_parent]>
                   (<["parent_id" := VStr (md5_hexdigest path_bytes)]>
                      (<["source" := VStr (md_file f)]> ∅)))
                :: read_documents rest
          | None => read_documents rest
          end
      | inl _ => read_documents rest
      end
  end.

(** The second loop of [load_documents] *)
Fixpoint enhance_all (docs : list Document) : result (list Document) :=
  match docs with
  | [] => ret []
  | doc :: rest =>
      let* doc' := _enhance_metadata doc in
      let* rest' := enhance_all rest in
      ret (doc' :: rest')
  end.

(** [load_documents], over the files that [rglob("*.md")] finds: the
    documents that become [self.documents]. *)
Definition load_documents (files : list MdFile) : result (list Document) :=
  enhance_all (read_documents files).
End Loading.

(** [filter_documents_by_category] *)
Definition filter_documents_by_category (docs : list Document)
    (category : list N) : list Document :=
  List.filter
    (fun doc => bool_decide (metadata doc !! "category" = Some (VStr category)))
    docs.

(** The loop of [get_statistics] over the documents: the dict
    [categories], in insertion order *)
Fixpoint count_categories (docs : list Document)
    (categories : list (Value * nat)) : list (Value * nat) :=
  match docs with
  | [] => categories
  | doc :: rest =>
      let category :=
        default (VStr category_unknown) (metadata doc !! "category") in
      count_categories rest (count_parent category categories)
  end.

(** The dict that [get_statistics] returns, without its entry
    [avg_chunk_size], a floating-point quotient; [None] is the empty
    dict. *)
Record Statistics : Type := mkStatistics {
  total_documents : nat;
  total_chunks : nat;
  categories : list (Value * nat)
}.

Definition get_statistics (st : state) : option Statistics :=
  match documents st with
  | [] => None
  | _ :: _ =>
      Some (mkStatistics (length (documents st)) (length (chunks st))
              (count_categories (documents st) []))
  end.

End DataPreparationModule.

(** ** GuidelineDataPreparationModule (hierarchical guideline corpus) *)

Module GuidelineDataPreparationModule.

Definition references_keywords : list (list N) := Eval vm_compute in
  [py "references"; py "bibliography"; py "literature cited"].

Definition clean_guideline_markdown (text : list N) : list N :=
  match text with
  | [] => []
  | _ :: _ =>
      let cleaned_text := Re.before_ref_heading references_keywords true text in
      let cleaned_text := Re.sub Re.br_at 0 cleaned_text in
      let cleaned_text := Re.sub Re.tag_at 0 cleaned_text in
      let cleaned_text := Re.sub Re.image_at 0 cleaned_text in
      let cleaned_text := Re.sub Re.blank_lines_at 0 cleaned_text in
      strip cleaned_text
  end.

Definition _camel_case_split (identifier : list N) : list N :=
  join [32] (Re.camel_matches [] identifier).

(** The dict returned by [_parse_path_metadata] when [is_valid] is true *)
Record PathMetadata : Type := mkPathMetadata {
  book_name : list N;
  chapter_index : list N;
  chapter_name : list N;
  part_index : Z;
  source_file : list N;
  hierarchy_string : list N
}.

(** [raw.split('_', 1)] when ['_' in raw] *)
Fixpoint split_first (sep : N) (s : list N) : option (list N * list N) :=
  match s with
  | [] => None
  | c :: r =>
      if c =? sep then Some ([], r)
      else (fun '(a, b) => (c :: a, b)) <$> split_first sep r
  end.

(** [s.replace(a, b)] for single characters *)
Definition replace_char (a b : N) (s : list N) : list N :=
  map (fun c => if c =? a then b else c) s.

(** [file_path.relative_to(data_path).parts]; paths are given by their
    parts. [None] stands for the [ValueError] of [relative_to]. *)
Fixpoint relative_to (file_path data_path : list (list N))
    : option (list (list N)) :=
  match data_path, file_path with
  | [], _ => Some file_path
  | d :: ds, f :: fs =>
      if bool_decide (d = f) then relative_to fs ds else None
  | _ :: _, [] => None
  end.

Definition gt_sep : list N := Eval vm_compute in py " > ".
Definition dot_sep : list N := Eval vm_compute in py ". ".
Definition part_sep : list N := Eval vm_compute in py " > Part ".

(** [None] is the dict [{"is_valid": False}]. *)
Definition _parse_path_metadata (data_path file_path : list (list N))
    : option PathMetadata :=
  match relative_to file_path data_path with
  | None => None
  | Some parts =>
      if (length parts <? 3)%nat then None
      else
        match parts with
        | raw_book_name :: raw_chapter_folder :: _ =>
            let book_name := _camel_case_split raw_book_name in
            let '(chapter_index, chapter_name) :=
              match split_first 95 raw_chapter_folder with
              | Some (chapter_index, chapter_name_raw) =>
                  (chapter_index, replace_char 95 32 chapter_name_raw)
              | None => ([48], raw_chapter_folder)
              end in
            let file_name := List.last parts [] in
            let part_index :=
              match Re.search_part file_name with
              | Some ds => ds
              | None => [49]
              end in
            Some (mkPathMetadata book_name chapter_index chapter_name
                    (int_of_digits part_index) file_name
                    (book_name ++ gt_sep ++ chapter_index ++ dot_sep
                     ++ chapter_name ++ part_sep ++ part_index))
        | _ => None
        end
  end.

Record state : Type := mkState {
  documents : list Document;
  chunks : list Document;
  parent_child_map : gmap (list N) Value
}.

Definition doc_type_child : list N := Eval vm_compute in py "child".
Definition load_first : list N := Eval vm_compute in py "请先调用 load_documents()".

(** [d[key]] *)
Definition getitem (d : gmap string Value) (key : string) : result Value :=
  match d !! key with
  | Some v => ret v
  | None => raise (KeyError key)
  end.

(** [' > '.join(headers)] *)
Fixpoint join_values (sep : list N) (vs : list Value) : result (list N) :=
  match vs with
  | [] => ret []
  | [VStr s] => ret s
  | VStr s :: rest =>
      let* r := join_values sep rest in ret (s ++ sep ++ r)
  | VInt _ :: _ => raise TypeError
  end.

Section Chunking.
Variable split_text : list N -> result (list Document).
Variable uuid4 : nat -> list N.

(** The inner loop of [chunk_documents] over the chunks of one document;
    the map is returned also when an exception ends the loop. *)
Fixpoint link_children (doc_metadata : gmap string Value) (parent_id : Value)
    (i : nat) (md_chunks : list Document) (pcm : gmap (list N) Value)
    (next : nat) : gmap (list N) Value * nat * result (list Document) :=
  match md_chunks with
  | [] => (pcm, next, ret [])
  | chunk :: rest =>
      let child_id := uuid4 next in
      let md := doc_metadata ∪ metadata chunk in
      let md :=
        <["chunk_size" := VInt (Z.of_nat (length (page_content chunk)))]>
          (<["chunk_index" := VInt (Z.of_nat i)]>
             (<["doc_type" := VStr doc_type_child]>
                (<["chunk_id" := VStr child_id]> md))) in
      let headers :=
        omap (fun h => md !! h) ["Header 1"; "Header 2"; "Header 3"] in
      let full_context :=
        let* book := getitem doc_metadata "book_name" in
        let* chapter := getitem doc_metadata "chapter_name" in
        let* path := join_values gt_sep headers in
        ret (format_value book ++ gt_sep ++ format_value chapter ++ gt_sep
             ++ path) in
      match full_context with
      | inl e => (pcm, S next, inl e)
      | inr full_context =>
          let md := <["semantic_context" := VStr full_context]> md in
          let '(pcm', next', rest') :=
            link_children doc_metadata parent_id (S i) rest
              (<[child_id := parent_id]> pcm) (S next) in
          (pcm', next',
           let* rest' := rest' in
           ret (mkDocument (page_content chunk) md :: rest'))
      end
  end.

Fixpoint chunk_loop (docs : list Document) (pcm : gmap (list N) Value)
    (next : nat) : gmap (list N) Value * nat * result (list Document) :=
  match docs with
  | [] => (pcm, next, ret [])
  | doc :: rest =>
      match getitem (metadata doc) "parent_id" with
      | inl e => (pcm, next, inl e)
      | inr parent_id =>
          match split_text (page_content doc) with
          | inl e => (pcm, next, inl e)
          | inr md_chunks =>
              match link_children (metadata doc) parent_id 0 md_chunks pcm next with
              | (pcm, next, inl e) => (pcm, next, inl e)
              | (pcm, next, inr linked) =>
                  let '(pcm', next', r) := chunk_loop rest pcm next in
                  (pcm', next', let* r := r in ret (linked ++ r))
              end
          end
      end
  end.

(** The module after the call, the next identifier to draw, and the list
    returned or the exception raised. *)
Definition chunk_documents (st : state) (next : nat)
    : state * nat * result (list Document) :=
  match documents st with
  | [] => (st, next, raise (ValueError load_first))
  | _ :: _ =>
      match chunk_loop (documents st) (parent_child_map st) next with
      | (pcm, next', inl e) =>
          (mkState (documents st) (chunks st) pcm, next', inl e)
      | (pcm, next', inr all_chunks) =>
          (mkState (documents st) all_chunks pcm, next', ret all_chunks)
      end
  end.
End Chunking.

(** [{doc.metadata["parent_id"]: doc for doc in self.documents}] *)
Fixpoint parent_map (docs : list Document) (m : gmap Value Document)
    : result (gmap Value Document) :=
  match docs with
  | [] => ret m
  | doc :: rest =>
      let* parent_id := getitem (metadata doc) "parent_id" in
      parent_map rest (<[parent_id := doc]> m)
  end.

(** The loop of [get_parent_documents]; [parent_ids] is the set of the
    identifiers already answered. *)
Fixpoint retrieve_parents (parent_map : gmap Value Document)
    (child_chunks : list Document) (parent_ids : gset Value)
    : list Document :=
  match child_chunks with
  | [] => []
  | chunk :: rest =>
      match metadata chunk !! "parent_id" with
      | Some p_id =>
          if truthy (Some p_id) && bool_decide (p_id ∉ parent_ids) then
            match parent_map !! p_id with
            | Some parent_doc =>
                parent_doc
                  :: retrieve_parents parent_map rest ({[p_id]} ∪ parent_ids)
            | None => retrieve_parents parent_map rest parent_ids
            end
          else retrieve_parents parent_map rest parent_ids
      | None => retrieve_parents parent_map rest parent_ids
      end
  end.

Definition get_parent_documents (docs : list Document)
    (child_chunks : list Document) : result (list Document) :=
  let* parent_map := parent_map docs ∅ in
  ret (retrieve_parents parent_map child_chunks ∅).

Definition doc_type_parent : list N := Eval vm_compute in py "parent".

(** A Markdown file found under the data path: its path by parts,
    [str(md_file)], and what reading it gives. *)
Record MdFile : Type := mkMdFile {
  md_file : list (list N);
  md_file_str : list N;
  file_content : result (list N)
}.

Section Loading.
(** [hashlib.md5(b).hexdigest()], of the bytes [b] *)
Variable md5_hexdigest : list N -> list N.
Variable data_path : list (list N).

(** The parent identifier of a file: the digest of its relative path in
    POSIX form, encoded; [None] when the encoding raises. *)
Definition parent_id_of (rel_path : list (list N)) : option (list N) :=
  md5_hexdigest <$> encode (join [47] rel_path).

(** The loop of [load_documents]: a file whose path is invalid is passed
    over; a file that cannot be read, or whose relative path cannot be
    encoded for the digest, is logged and left out. *)
Fixpoint load_documents (files : list MdFile) : list Document :=
  match files with
  | [] => []
  | f :: rest =>
      match _parse_path_metadata data_path (md_file f) with
      | None => load_documents rest
      | Some meta =>
          match file_content f, relative_to (md_file f) data_path with
          | inr content, Some rel_path =>
              match parent_id_of rel_path with
              | Some parent_id =>
                  mkDocument (clean_guideline_markdown content)
                    (<["citation_source" := VStr (hierarchy_string meta)]>
                       (<["part_index" := VInt (part_index meta)]>
                          (<["chapter_name" := VStr (chapter_name meta)]>
                             (<["chapter_index" :=
                                  VStr (chapter_index meta)]>
                                (<["book_name" := VStr (book_name meta)]>
                                   (<["doc_type" := VStr doc_type_parent]>
                                      (<["parent_id" := VStr parent_id]>
                                         (<["source" :=
                                              VStr (md_file_str f)]>
                                            ∅))))))))
                    :: load_documents rest
              | None => load_documents rest
              end
          | _, _ => load_documents rest
          end
      end
  end.
End Loading.

End GuidelineDataPreparationModule.

(** ** RecipeRAGSystem (main.py) *)

Module RecipeRAGSystem.

(** The retrieval module over the similarity index, by its two searches:
    [hybrid_search(query, top_k)] and
    [metadata_filtered_search(query, filters, top_k)]. *)
Record RetrievalOptimizationModule : Type := mkRetrieval {
  hybrid_search : list N -> Z -> result (list Document);
  metadata_filtered_search :
    list N -> gmap string Value -> Z -> result (list Document)
}.

(** The generation module, by the language model it holds. *)
Record GenerationModule : Type := mkGeneration {
  llm : Prompt -> list N -> result (list N)
}.

(** The attributes of the system that [ask_question] reads; a module that
    has not been built yet is [None]. *)
Record system : Type := mkSystem {
  top_k : Z;
  CATEGORY_LABELS : list (list N);
  case_report_data_module : option DataPreparationModule.state;
  case_report_retrieval_module : option RetrievalOptimizationModule;
  guideline_retrieval_module : option RetrievalOptimizationModule;
  generation_module : option GenerationModule
}.

(** What [ask_question] returns: a complete text, or a generator that has
    not run yet (its body, context composition included, runs when the
    caller pulls the first fragment). *)
Inductive Answer : Type :=
| Text (s : list N)
| Generator (step_by_step : bool) (question : list N) (docs : list Document).

Definition build_first : list N := Eval vm_compute in py "请先构建知识库".
Definition not_found : list N := Eval vm_compute in
  py "抱歉，没有找到相关的疾病信息。请尝试其他疾病名称或关键词。".

Fixpoint _extract_filters_from_query (category_keywords : list (list N))
    (query : list N) : gmap string Value :=
  match category_keywords with
  | [] => ∅
  | cat :: rest =>
      if str_contains cat query then <["category" := VStr cat]> ∅
      else _extract_filters_from_query rest query
  end.

Definition ask_question (self : system) (question : list N) (stream : bool)
    : result Answer :=
  match case_report_retrieval_module self, generation_module self,
        guideline_retrieval_module self with
  | Some retrieval, Some generation, Some _ =>
      let* route_type :=
        GenerationIntegrationModule.query_router (llm generation) question in
      let* rewritten_query :=
        if bool_decide (route_type = GenerationIntegrationModule.label_list)
        then ret question
        else GenerationIntegrationModule.query_rewrite (llm generation) question in
      let filters := _extract_filters_from_query (CATEGORY_LABELS self) question in
      let* relevant_chunks :=
        if bool_decide (filters = ∅)
        then hybrid_search retrieval rewritten_query (top_k self)
        else metadata_filtered_search retrieval rewritten_query filters (top_k self) in
      match relevant_chunks with
      | [] => ret (Text not_found)
      | _ :: _ =>
          match case_report_data_module self with
          | None => raise AttributeError
          | Some data =>
              let relevant_docs :=
                DataPreparationModule.get_parent_documents
                  (DataPreparationModule.documents data) relevant_chunks in
              let step_by_step :=
                bool_decide (route_type = GenerationIntegrationModule.label_detail) in
              if stream then ret (Generator step_by_step question relevant_docs)
              else
                let* answer :=
                  if step_by_step
                  then GenerationIntegrationModule.generate_step_by_step_answer
                         (llm generation) question relevant_docs
                  else GenerationIntegrationModule.generate_basic_answer
                         (llm generation) question relevant_docs in
                ret (Text answer)
          end
      end
  | _, _, _ => raise (ValueError build_first)
  end.

(** The loop of [search_by_category] that collects the names, each once *)
Definition collect_names := GenerationIntegrationModule.collect_names.

Definition search_by_category (self : system) (category : list N)
    (query : list N) : result (list Value) :=
  match case_report_retrieval_module self with
  | None => raise (ValueError build_first)
  | Some retrieval =>
      let search_query := match query with [] => category | _ :: _ => query end in
      let filters := <["category" := VStr category]> ∅ in
      let* docs := metadata_filtered_search retrieval search_query filters 10 in
      ret (collect_names docs [])
  end.

End RecipeRAGSystem.

(** ** Reference notions used in the statements *)

(** The blocks of the documents, numbered from [i]: what the context
    composer would include without a budget. *)
Fixpoint blocks_from (i : N) (docs : list Document) : list (list N) :=
  match docs with
  | [] => []
  | doc :: rest =>
      GenerationIntegrationModule.doc_text i doc :: blocks_from (i + 1) rest
  end.

(** [len] summed over a list of blocks *)
Definition total_length (parts : list (list N)) : Z :=
  Z.of_nat (sum_list (length <$> parts)).

(** [p] occurs in [s] as a contiguous run of characters. *)
Definition substring (p s : list N) : Prop :=
  ∃ a b, s = a ++ p ++ b.

(** The parent identifiers that the fragments refer to, in the order of the
    fragments (a fragment without a [parent_id], or with one that counts
    as false, refers to none). *)
Definition referenced_parents (child_chunks : list Document) : list Value :=
  omap (fun chunk =>
          match metadata chunk !! "parent_id" with
          | Some p => if truthy (Some p) then Some p else None
          | None => None
          end) child_chunks.

(** Relevance count of a parent: the number of fragments referring to it *)
Definition relevance_count (ids : list Value) (p : Value) : nat :=
  count_occ Value_eq_dec ids p.

(** Position of the first fragment referring to a parent *)
Fixpoint first_position (p : Value) (ids : list Value) : nat :=
  match ids with
  | [] => O
  | q :: r => if decide (q = p) then O else S (first_position p r)
  end.

Definition encountered_before (ids : list Value) (a b : Value) : Prop :=
  (first_position a ids < first_position b ids)%nat.

(** [a] is ranked before [b]: more fragments refer to it, or as many and
    it is met first. *)
Definition ranks_before (ids : list Value) (a b : Value) : Prop :=
  (relevance_count ids b < relevance_count ids a)%nat
  ∨ (relevance_count ids a = relevance_count ids b
     ∧ encountered_before ids a b).

(** The parents of [out] are in descending order of relevance count, ties
    in the order of first encounter. *)
Definition relevance_ordered (child_chunks : list Document)
    (out : list Document) : Prop :=
  ∃ ranked,
    Forall2 (fun p d => metadata d !! "parent_id" = Some p) ranked out
    ∧ StronglySorted (ranks_before (referenced_parents child_chunks)) ranked.

(** The distinct elements of [ids] that satisfy [keep] and are not in
    [seen], each at its first occurrence. *)
Fixpoint first_occurrences (keep : Value -> bool) (seen : list Value)
    (ids : list Value) : list Value :=
  match ids with
  | [] => []
  | p :: r =>
      if keep p && negb (bool_decide (p ∈ seen))
      then p :: first_occurrences keep (p :: seen) r
      else first_occurrences keep seen r
  end.

(** The count that an association list gives to a key *)
Fixpoint assoc_count (rel : list (Value * nat)) (p : Value) : nat :=
  match rel with
  | [] => O
  | (k, n) :: r => if decide (k = p) then n else assoc_count r p
  end.

(** The order that a stable sort with larger keys first produces from a
    list in the order [R]. *)
Definition key_then {A} (key : A -> nat) (R : A -> A -> Prop) (a b : A)
    : Prop :=
  (key b < key a)%nat ∨ (key a = key b ∧ R a b).

(** The words of a compact camel-form name, separated by spaces: a space
    goes between two characters when a lower-case letter is followed by an
    upper-case letter, or an upper-case letter is followed by an
    upper-case letter and then a lower-case letter. *)
Fixpoint word_breaks (s : list N) : list N :=
  match s with
  | [] => []
  | a :: r =>
      match r with
      | [] => [a]
      | b :: r' =>
          if (is_lower a && is_upper b)
             || (is_upper a && is_upper b
                 && match r' with d :: _ => is_lower d | [] => false end)
          then a :: 32 :: word_breaks r
          else a :: word_breaks r
      end
  end.

(** A pattern, given by its matcher at a position, has no match in [t]. *)
Definition no_match {R} (match_at : list N -> option R) (t : list N) : Prop :=
  ∀ pre suf, t = pre ++ suf → match_at suf = None.

(** No line of [t] starts a heading of a reference list. *)
Definition no_ref_heading (kws : list (list N)) (t : list N) : Prop :=
  ∀ pre suf,
    t = pre ++ suf → (pre = [] ∨ ∃ pre', pre = pre' ++ [LF]) →
    Re.ref_heading_at kws suf = false.

(** [t] neither starts nor ends with white space. *)
Definition trimmed (t : list N) : Prop :=
  (∀ c r, t = c :: r → is_space c = false)
  ∧ (∀ r c, t = r ++ [c] → is_space c = false).

(** Text in which the flat-corpus normalizer finds nothing to remove *)
Definition clean_academic (t : list N) : Prop :=
  no_ref_heading DataPreparationModule.references_keywords t
  ∧ no_match Re.tag_at t ∧ no_match Re.image_at t
  ∧ no_match Re.blank_lines_at t ∧ trimmed t.

(** Text in which the hierarchical-corpus normalizer finds nothing to
    remove *)
Definition clean_guideline (t : list N) : Prop :=
  no_ref_heading GuidelineDataPreparationModule.references_keywords t
  ∧ no_match Re.br_at t ∧ no_match Re.tag_at t ∧ no_match Re.image_at t
  ∧ no_match Re.blank_lines_at t ∧ trimmed t.

(** The same notions as tests *)
Fixpoint tails (s : list N) : list (list N) :=
  s :: match s with
       | [] => []
       | _ :: r => tails r
       end.

Definition no_match_b {R} (match_at : list N -> option R) (t : list N) : bool :=
  forallb (fun suf => match match_at suf with None => true | Some _ => false end)
    (tails t).

Fixpoint no_ref_heading_b (kws : list (list N)) (bol : bool) (t : list N)
    : bool :=
  match t with
  | [] => true
  | c :: r =>
      negb (bol && Re.ref_heading_at kws t)
      && no_ref_heading_b kws (c =? LF) r
  end.

Definition trimmed_b (t : list N) : bool :=
  match t with c :: _ => negb (is_space c) | [] => true end
  && match rev t with c :: _ => negb (is_space c) | [] => true end.

(** The texts of the fragments that one document contributes: those of
    the chunks that the heading splitter returns, or, when the [try] fails
    (the splitter raises, or the document has no [parent_id]), the text of
    the whole document. *)
Definition expected_texts (split_text : list N -> result (list Document))
    (doc : Document) : list (list N) :=
  match split_text (page_content doc), metadata doc !! "parent_id" with
  | inr md_chunks, Some _ => page_content <$> md_chunks
  | _, _ => [page_content doc]
  end.

(** The paragraphs of a text: its lines stripped, a blank line ends a
    paragraph. [cur] holds the lines of the current paragraph in reverse. *)
Fixpoint paragraphs (cur : list (list N)) (lines : list (list N))
    : list (list (list N)) :=
  match lines with
  | [] => match cur with [] => [] | _ :: _ => [rev cur] end
  | line :: rest =>
      match strip line with
      | [] =>
          match cur with
          | [] => paragraphs [] rest
          | _ :: _ => rev cur :: paragraphs [] rest
          end
      | stripped_line => paragraphs (stripped_line :: cur) rest
      end
  end.

(** Modelled on the package [langchain_text_splitters], which is not part
    of the repository: what [MarkdownHeaderTextSplitter.split_text] does
    with printable text in which no line is a heading or a code fence.
    Each line is stripped; the lines of a paragraph are joined by a
    newline; all paragraphs carry the same, empty, heading metadata and
    are aggregated into one chunk, two spaces and a newline between them;
    text without a non-blank line gives no chunk. *)
Definition split_plain_text (text : list N) : result (list Document) :=
  match paragraphs [] (split_lines text) with
  | [] => ret []
  | ps => ret [mkDocument (join [32; 32; LF] (join [LF] <$> ps)) ∅]
  end.

(** The texts of the fragments that a chunk list stands for *)
Definition chunk_texts (docs : list Document)
    (cs : list DataPreparationModule.ChunkRef) : list (list N) :=
  page_content <$> omap (DataPreparationModule.deref docs) cs.

(** A chunk that is indexed: its identifier was drawn before [bound] and
    the map sends it to the parent that its metadata names. *)
Definition indexed (uuid4 : nat -> list N) (pcm : gmap (list N) Value)
    (bound : nat) (d : Document) : Prop :=
  ∃ k pid,
    (k < bound)%nat
    ∧ metadata d !! "chunk_id" = Some (VStr (uuid4 k))
    ∧ metadata d !! "parent_id" = Some pid
    ∧ pcm !! uuid4 k = Some pid.

Definition acc_indexed (uuid4 : nat -> list N)
    (acc : DataPreparationModule.split_acc) : Prop :=
  ∀ d, DataPreparationModule.Fresh d ∈ DataPreparationModule.all_chunks acc →
       indexed uuid4 (DataPreparationModule.acc_map acc)
         (DataPreparationModule.acc_next acc) d.

(** The category under which [get_statistics] counts a document *)
Definition counted_category (doc : Document) : Value :=
  default (VStr DataPreparationModule.category_unknown)
    (metadata doc !! "category").

(** The three keys that chunking a guideline document reads *)
Definition guideline_keys (d : Document) : Prop :=
  (∃ p, metadata d !! "parent_id" = Some (VStr p))
  ∧ (∃ b, metadata d !! "book_name" = Some (VStr b))
  ∧ (∃ c, metadata d !! "chapter_name" = Some (VStr c)).

(** The system with another generation module, or with another retrieval
    module for the guidelines *)
Definition with_generation (self : RecipeRAGSystem.system)
    (generation : option RecipeRAGSystem.GenerationModule)
    : RecipeRAGSystem.system :=
  RecipeRAGSystem.mkSystem (RecipeRAGSystem.top_k self)
    (RecipeRAGSystem.CATEGORY_LABELS self)
    (RecipeRAGSystem.case_report_data_module self)
    (RecipeRAGSystem.case_report_retrieval_module self)
    (RecipeRAGSystem.guideline_retrieval_module self) generation.

Definition with_guideline (self : RecipeRAGSystem.system)
    (guideline : option RecipeRAGSystem.RetrievalOptimizationModule)
    : RecipeRAGSystem.system :=
  RecipeRAGSystem.mkSystem (RecipeRAGSystem.top_k self)
    (RecipeRAGSystem.CATEGORY_LABELS self)
    (RecipeRAGSystem.case_report_data_module self)
    (RecipeRAGSystem.case_report_retrieval_module self)
    guideline (RecipeRAGSystem.generation_module self).

(** The call returned, it raised no exception. *)
Definition returned {A} (r : result A) : bool :=
  match r with
  | inr _ => true
  | inl _ => false
  end.

(** The heading metadata are strings. *)
Definition string_headings (md : gmap string Value) : Prop :=
  ∀ h v, h ∈ ["Header 1"; "Header 2"; "Header 3"] → md !! h = Some v →
         ∃ s, v = VStr s.

(** The chunks that the heading splitter returns for a document, none
    when it raises *)
Definition splitter_chunks (split_text : list N -> result (list Document))
    (doc : Document) : list Document :=
  match split_text (page_content doc) with
  | inr md_chunks => md_chunks
  | inl _ => []
  end.

(** A document of the hierarchical corpus that chunking can process: it
    has the three keys that chunking reads, the splitter returns, and the
    headings of its chunks are strings. *)
Definition chunkable (split_text : list N -> result (list Document))
    (doc : Document) : Prop :=
  is_Some (metadata doc !! "parent_id")
  ∧ is_Some (metadata doc !! "book_name")
  ∧ is_Some (metadata doc !! "chapter_name")
  ∧ ∃ md_chunks,
      split_text (page_content doc) = inr md_chunks
      ∧ Forall (fun piece => string_headings (metadata doc ∪ metadata piece))
          md_chunks.

(** The keys that chunking writes to a chunk of the hierarchical corpus *)
Definition child_keys : list string :=
  ["chunk_id"; "doc_type"; "chunk_index"; "chunk_size"; "semantic_context"].

(** The chunks of the splitter for a document, each with the document
    and its position among them *)
Definition expected_pieces (split_text : list N -> result (list Document))
    (doc : Document) : list (Document * nat * Document) :=
  imap (fun j piece => (doc, j, piece)) (splitter_chunks split_text doc).

(** What chunking the hierarchical corpus makes of the [j]-th chunk
    [piece] of a document with metadata [doc_metadata]: the text is kept,
    the metadata of the document come over those of the splitter, and
    the keys of the chunk come over both. *)
Definition child_of (doc_metadata : gmap string Value) (j : nat)
    (piece chunk : Document) : Prop :=
  page_content chunk = page_content piece
  ∧ metadata chunk !! "doc_type"
    = Some (VStr GuidelineDataPreparationModule.doc_type_child)
  ∧ metadata chunk !! "chunk_index" = Some (VInt (Z.of_nat j))
  ∧ metadata chunk !! "chunk_size"
    = Some (VInt (Z.of_nat (length (page_content piece))))
  ∧ ∀ key, key ∉ child_keys →
      metadata chunk !! key = (doc_metadata ∪ metadata piece) !! key.

(** The documents that a chunk list refers to by their index *)
Definition parent_indices (cs : list DataPreparationModule.ChunkRef)
    : list nat :=
  omap (fun c =>
          match c with
          | DataPreparationModule.Parent j => Some j
          | DataPreparationModule.Fresh _ => None
          end) cs.

(** What [chunk_documents] of the flat corpus writes to the chunk at
    position [i] of the list that it returns *)
Definition stamped (i : nat) (frag : Document) : Prop :=
  metadata frag !! "batch_index" = Some (VInt (Z.of_nat i))
  ∧ metadata frag !! "chunk_size"
    = Some (VInt (Z.of_nat (length (page_content frag))))
  ∧ is_Some (metadata frag !! "chunk_id").

(** The number of newlines that start a text *)
Definition leading_newlines (s : list N) : nat :=
  length (Re.take_while (N.eqb LF) s).

(** ** Sample data *)

(** Three documents without metadata whose blocks have 900 characters *)
Definition doc_a : Document := mkDocument (repeat 97 890) ∅.
Definition doc_b : Document := mkDocument (repeat 98 890) ∅.
Definition doc_c : Document := mkDocument (repeat 99 890) ∅.

(** One order of the category labels, and two questions *)
Definition sample_labels : list (list N) := Eval vm_compute in
  [py "感染"; py "骨折"; py "血管瘤"; py "椎间盘问题"; py "恶性肿瘤";
   py "其他类型疾病"].

Definition question_fracture : list N := Eval vm_compute in
  py "腰椎骨折怎么治疗".

(** A backend that classifies every question as [General] and rewrites it
    to one fixed query, and an index that finds nothing *)
Definition fixed_generation : RecipeRAGSystem.GenerationModule :=
  RecipeRAGSystem.mkGeneration
    (fun p _ =>
       match p with
       | RouterPrompt => inr (py " General ")
       | _ => inr (py "骨折的治疗方案")
       end).

Definition empty_retrieval : RecipeRAGSystem.RetrievalOptimizationModule :=
  RecipeRAGSystem.mkRetrieval (fun _ _ => inr []) (fun _ _ _ => inr []).

Definition system_not_built : RecipeRAGSystem.system :=
  RecipeRAGSystem.mkSystem 3 sample_labels None None None
    (Some fixed_generation).

Definition system_empty_index : RecipeRAGSystem.system :=
  RecipeRAGSystem.mkSystem 3 sample_labels None (Some empty_retrieval)
    (Some empty_retrieval) (Some fixed_generation).

(** Three parent documents [A], [B], [C] and fragments that refer to them *)
Definition parent_doc (id : string) : Document :=
  mkDocument (py id) {["parent_id" := VStr (py id)]}.

Definition fragment_of (id : string) : Document :=
  mkDocument (py "text") {["parent_id" := VStr (py id)]}.

Definition sample_parents : list Document :=
  [parent_doc "A"; parent_doc "B"; parent_doc "C"].

Definition fragments_AABAC : list Document :=
  [fragment_of "A"; fragment_of "A"; fragment_of "B"; fragment_of "A";
   fragment_of "C"].

Definition fragments_BAA : list Document :=
  [fragment_of "B"; fragment_of "A"; fragment_of "A"].

(** The path [Root/AdultIsthmicSpondylolisthesis/B_Diagnosis_Imaging/part2.md]
    under the corpus root [Root] *)
Definition corpus_root : list (list N) := Eval vm_compute in [py "Root"].

Definition sample_path : list (list N) := Eval vm_compute in
  [py "AdultIsthmicSpondylolisthesis"; py "B_Diagnosis_Imaging"; py "part2.md"].

(** Texts on which a second pass of the normalizers removes more *)
Definition indented_references : list N := Eval vm_compute in py " # References".
Definition nested_image : list N := Eval vm_compute in py "!![a](b)[c](d)".
Definition clean_sample : list N := Eval vm_compute in
  py "# Case report

A 54-year-old man with low back pain.".

(** Identifiers [id-0], [id-1], ... in the place of random ones *)
Definition sample_uuid4 (n : nat) : list N :=
  [105; 100; 45] ++ str_of_N (N.of_nat n).

(** A parent document of two paragraphs and no heading *)
Definition plain_document : Document :=
  mkDocument [97; LF; LF; 98] {["parent_id" := VStr (py "p1")]}.

Definition plain_corpus : DataPreparationModule.state :=
  DataPreparationModule.mkState [plain_document] [] ∅.

(** A parent document of empty text *)
Definition empty_document : Document :=
  mkDocument [] {["parent_id" := VStr (py "p0")]}.

Definition empty_corpus : DataPreparationModule.state :=
  DataPreparationModule.mkState [empty_document] [] ∅.

(** A splitter that raises on every text *)
Definition failing_split_text (text : list N) : result (list Document) :=
  raise (ExternalError (py "split_text")).

(** A case report under two category folders, and one under none *)
Definition report_two_categories : Document :=
  mkDocument (py "text")
    {["source" := VStr (py "/data/infection/fracture/case.7/pubmed_pdf.md")]}.

Definition report_no_category : Document :=
  mkDocument (py "text") {["source" := VStr (py "notes/pubmed_pdf.md")]}.

(** Documents with a category, and one without *)
Definition categorized (text category : string) : Document :=
  mkDocument (py text) {["category" := VStr (py category)]}.

Definition sample_library : DataPreparationModule.state :=
  DataPreparationModule.mkState
    [categorized "a" "骨折"; categorized "b" "感染"; categorized "c" "骨折";
     mkDocument (py "d") ∅]
    [] ∅.

(** Retrieved documents named by their case report *)
Definition report (name : string) : Document :=
  mkDocument (py "text") {["case_report_id" := VStr (py name)]}.

(** Identifiers that differ by their length *)
Definition unary_uuid4 (n : nat) : list N := repeat 120 n.

(** A splitter that returns two chunks for every text *)
Definition halving_split_text (text : list N) : result (list Document) :=
  ret [mkDocument (take 1 text) ∅; mkDocument (drop 1 text) ∅].

(** A backend that classifies every question as a list question and
    fails when asked to rewrite, and one that rewrites *)
Definition list_router (rewrite : result (list N))
    : RecipeRAGSystem.GenerationModule :=
  RecipeRAGSystem.mkGeneration
    (fun p _ =>
       match p with
       | RouterPrompt => inr (py "list")
       | RewritePrompt => rewrite
       | _ => inr (py "answer")
       end).

(** An index that finds the fragments [A,A,B,A,C] for every query *)
Definition sample_retrieval : RecipeRAGSystem.RetrievalOptimizationModule :=
  RecipeRAGSystem.mkRetrieval (fun _ _ => inr fragments_AABAC)
    (fun _ _ _ => inr fragments_AABAC).

Definition sample_data : DataPreparationModule.state :=
  DataPreparationModule.mkState sample_parents [] ∅.

Definition sample_system (generation : RecipeRAGSystem.GenerationModule)
    : RecipeRAGSystem.system :=
  RecipeRAGSystem.mkSystem 3 sample_labels (Some sample_data)
    (Some sample_retrieval) (Some empty_retrieval) (Some generation).

(** A book folder in camel form *)
Definition book_folder : list N := Eval vm_compute in
  py "AdultIsthmicSpondylolisthesis".

(** A stand-in for the digest that is never empty, and three files of the
    flat corpus of which the second cannot be read *)
Definition tagged_digest (s : list N) : list N := 35 :: s.

Definition flat_files : list DataPreparationModule.MdFile := Eval vm_compute in
  [ DataPreparationModule.mkMdFile (py "data/fracture/case1/pubmed_pdf.md")
      (inr (py "# Case 1

text  "))
      (py "fracture/case1/pubmed_pdf.md");
    DataPreparationModule.mkMdFile (py "data/fracture/case2/pubmed_pdf.md")
      (inl (ExternalError (py "UnicodeDecodeError")))
      (py "fracture/case2/pubmed_pdf.md");
    DataPreparationModule.mkMdFile (py "data/notes/readme.md")
      (inr (py "notes"))
      (py "notes/readme.md") ].

(** Four files of the guideline corpus: one too near to the root, one
    that cannot be read, and two that load *)
Definition guideline_files : list GuidelineDataPreparationModule.MdFile :=
  Eval vm_compute in
  [ GuidelineDataPreparationModule.mkMdFile
      (corpus_root ++ [py "README.md"]) (py "Root/README.md")
      (inr (py "about"));
    GuidelineDataPreparationModule.mkMdFile
      (corpus_root ++ sample_path)
      (py "Root/AdultIsthmicSpondylolisthesis/B_Diagnosis_Imaging/part2.md")
      (inr (py "# Imaging

Plain radiographs<br>first.  "));
    GuidelineDataPreparationModule.mkMdFile
      (corpus_root ++ [py "NeckPain"; py "A_Intro"; py "part1.md"])
      (py "Root/NeckPain/A_Intro/part1.md")
      (inl (ExternalError (py "UnicodeDecodeError")));
    GuidelineDataPreparationModule.mkMdFile
      (corpus_root ++ [py "NeckPain"; py "A_Intro"; py "part3.md"])
      (py "Root/NeckPain/A_Intro/part3.md")
      (inr (py "## Scope")) ].

(** Two documents that carry the same parent identifier *)
Definition twin_parents : list Document :=
  [mkDocument (py "first") {["parent_id" := VStr (py "A")]};
   mkDocument (py "second") {["parent_id" := VStr (py "A")]}].

(** The guideline module after loading the four files *)
Definition guideline_corpus : GuidelineDataPreparationModule.state :=
  GuidelineDataPreparationModule.mkState
    (GuidelineDataPreparationModule.load_documents tagged_digest corpus_root
       guideline_files)
    [] ∅.

(** A splitter that raises on a text that starts with two hash signs and
    halves every other text *)
Definition fussy_split_text (text : list N) : result (list Document) :=
  if startswith [35; 35] text then raise (ExternalError (py "split_text"))
  else halving_split_text text.

(** The guideline module after chunking with the halving splitter, its
    chunks, and a selection of two of them, the last one first *)
Definition guideline_chunked
    : GuidelineDataPreparationModule.state * nat * result (list Document) :=
  GuidelineDataPreparationModule.chunk_documents halving_split_text
    unary_uuid4 guideline_corpus 0.

Definition guideline_all_chunks : list Document :=
  match guideline_chunked.2 with
  | inr all_chunks => all_chunks
  | inl _ => []
  end.

Definition selected_chunks : list Document :=
  omap (fun i => guideline_all_chunks !! i) [3; 0]%nat.

(** Two case reports; the splitter halves the first and raises on the
    second, whose text starts with two hash signs *)
Definition flat_corpus : DataPreparationModule.state :=
  DataPreparationModule.mkState
    [mkDocument (py "# Case 1") {["parent_id" := VStr (py "p1")]};
     mkDocument (py "## Case 2") {["parent_id" := VStr (py "p2")]}]
    [] ∅.

Definition flat_chunked
    : result (DataPreparationModule.state * nat * list Warning) :=
  DataPreparationModule.chunk_documents fussy_split_text unary_uuid4
    flat_corpus 0.

Definition flat_chunked_state : DataPreparationModule.state :=
  match flat_chunked with
  | inr (st', _, _) => st'
  | inl _ => flat_corpus
  end.

(** The first fragment of the chunked flat corpus, and the last chunk of
    the chunked guideline corpus *)
Definition flat_first_fragment : Document :=
  default empty_document
    (DataPreparationModule.fragments flat_chunked_state !! 0%nat).

Definition guideline_last_chunk : Document :=
  default empty_document (guideline_all_chunks !! 3%nat).

(** A backend that classifies every question as general, rewrites it to
    the given query, and answers with the question that it is handed *)
Definition general_rewriter (rewritten : list N)
    : RecipeRAGSystem.GenerationModule :=
  RecipeRAGSystem.mkGeneration
    (fun p q =>
       match p with
       | RouterPrompt => inr (py "general")
       | RewritePrompt => inr rewritten
       | _ => inr q
       end).

(** Retrieved documents of five case reports, the first two met twice *)
Definition five_reports : list Document :=
  [report "L1"; report "L2"; report "L1"; report "L3"; report "L2";
   report "L4"; report "L5"].

(** * Properties *)

(** ** Strings *)

Lemma startswith_spec (p s : list N) :
  startswith p s = true ↔ ∃ b, s = p ++ b.
Proof.
  revert s. induction p as [|a p IH]; intros s; simpl.
  - split; [intros _; by exists s | done].
  - destruct s as [|c s]; simpl.
    + split; [done | intros [b Hb]; discriminate].
    + rewrite andb_true_iff, IH, N.eqb_eq. split.
      * intros [-> [b ->]]. by exists b.
      * intros [b Hb]. injection Hb as -> ->. eauto.
Qed.

Lemma str_contains_spec (p s : list N) :
  str_contains p s = true ↔ substring p s.
Proof.
  unfold substring. induction s as [|c s IH]; simpl.
  - rewrite orb_false_r, startswith_spec. split.
    + intros [b Hb]. exists [], b. done.
    + intros (a & b & Hab). destruct a; [|discriminate]. exists b. done.
  - rewrite orb_true_iff, startswith_spec, IH. split.
    + intros [[b Hb] | (a & b & Hab)].
      * exists [], b. done.
      * exists (c :: a), b. by rewrite Hab.
    + intros (a & b & Hab). destruct a as [|c' a].
      * left. exists b. done.
      * right. injection Hab as -> ->. eauto.
Qed.

(** ** Query router *)

(** C2. Whatever text the backend returns, the router answers with the
    trimmed, lower-cased text when that is one of [list], [detail] and
    [general], and with [general] otherwise; its answer is always one of
    the three labels. *)
Theorem query_router_normalizes
    (llm : Prompt → list N → result (list N)) (query raw : list N) :
  llm RouterPrompt query = inr raw →
  let normalized := lower (strip raw) in
  (normalized ∈ GenerationIntegrationModule.valid_routes →
     GenerationIntegrationModule.query_router llm query = inr normalized)
  ∧ (normalized ∉ GenerationIntegrationModule.valid_routes →
     GenerationIntegrationModule.query_router llm query
     = inr GenerationIntegrationModule.label_general)
  ∧ (∃ route, GenerationIntegrationModule.query_router llm query = inr route
       ∧ route ∈ GenerationIntegrationModule.valid_routes)
  ∧ GenerationIntegrationModule.valid_routes
    = [py "list"; py "detail"; py "general"].
Proof.
  intros Hraw normalized.
  unfold GenerationIntegrationModule.query_router. rewrite Hraw. simpl.
  fold normalized. repeat split.
  - intros Hin. by rewrite bool_decide_eq_true_2.
  - intros Hout. by rewrite bool_decide_eq_false_2.
  - case_bool_decide as Hin.
    + by exists normalized.
    + exists GenerationIntegrationModule.label_general. split; [done|].
      unfold GenerationIntegrationModule.valid_routes. set_solver.
Qed.

Lemma query_router_normalizes_witness :
  let llm := fun (_ : Prompt) (_ : list N) => inr (py "  Detail
") : result (list N) in
  GenerationIntegrationModule.query_router llm (py "how") = inr (py "detail")
  ∧ GenerationIntegrationModule.query_router
      (fun _ _ => inr (py "it is a list")) (py "how") = inr (py "general").
Proof.
  split.
  - pose proof (query_router_normalizes
      (fun _ _ => inr (py "  Detail
")) (py "how") (py "  Detail
") eq_refl) as (H & _).
    apply H. apply (bool_decide_unpack _). by vm_compute.
  - pose proof (query_router_normalizes
      (fun _ _ => inr (py "it is a list")) (py "how") (py "it is a list")
      eq_refl) as (_ & H & _).
    apply H. apply (bool_decide_unpack _). by vm_compute.
Defined.

(** ** Context composer *)

Lemma total_length_cons (t : list N) (l : list (list N)) :
  total_length (t :: l) = (Z.of_nat (length t) + total_length l)%Z.
Proof. unfold total_length. rewrite fmap_cons. simpl. lia. Qed.

Lemma context_parts_cons (max_length : Z) (i : N) (current_length : Z)
    (doc : Document) (rest : list Document) :
  GenerationIntegrationModule.context_parts max_length i current_length
    (doc :: rest)
  = let t := GenerationIntegrationModule.doc_text i doc in
    if (current_length + Z.of_nat (length t) >? max_length)%Z then []
    else t :: GenerationIntegrationModule.context_parts max_length (i + 1)
                (current_length + Z.of_nat (length t))%Z rest.
Proof. reflexivity. Qed.

Lemma context_parts_greedy (max_length : Z) (docs : list Document) :
  ∀ (i : N) (current_length : Z),
  ∃ k : nat,
    (k ≤ length docs)%nat
    ∧ GenerationIntegrationModule.context_parts max_length i current_length docs
      = take k (blocks_from i docs)
    ∧ (∀ j, (0 < j ≤ k)%nat →
         (current_length + total_length (take j (blocks_from i docs))
          ≤ max_length)%Z)
    ∧ ((k < length docs)%nat →
         (current_length + total_length (take (S k) (blocks_from i docs))
          > max_length)%Z).
Proof.
  induction docs as [|doc rest IH]; intros i cur.
  - exists 0%nat. simpl. split; [lia|]. split; [done|]. split; intros; lia.
  - simpl. destruct (Z.gtb_spec
      (cur + Z.of_nat (length (GenerationIntegrationModule.doc_text i doc)))
      max_length) as [Hgt|Hle].
    + exists 0%nat. simpl. split; [lia|]. split; [done|]. split; [intros; lia|].
      intros _. rewrite take_0, total_length_cons. unfold total_length. simpl. lia.
    + destruct (IH (i + 1)
        (cur + Z.of_nat (length (GenerationIntegrationModule.doc_text i doc)))%Z)
        as (k & Hk & Heq & Hin & Hout).
      exists (S k). simpl. split; [lia|]. split; [by rewrite Heq|]. split.
      * intros [|j] Hj; [lia|]. simpl. rewrite total_length_cons.
        destruct j as [|j].
        -- rewrite take_0. unfold total_length. simpl. lia.
        -- specialize (Hin (S j)). lia.
      * intros Hlt. rewrite total_length_cons.
        assert (k < length rest)%nat as Hk' by lia.
        specialize (Hout Hk'). simpl in Hout. lia.
Qed.

Lemma blocks_from_lookup (docs : list Document) :
  ∀ (i : N) (j : nat) (d : Document),
  docs !! j = Some d →
  blocks_from i docs !! j
  = Some (GenerationIntegrationModule.doc_text (i + N.of_nat j) d).
Proof.
  induction docs as [|doc rest IH]; intros i j d Hj; [done|].
  destruct j as [|j].
  - injection Hj as ->. cbn. by rewrite N.add_0_r.
  - cbn [blocks_from]. rewrite lookup_cons, (IH (i + 1) j d Hj).
    do 2 f_equal. lia.
Qed.

(** The block of a document: the index marker, the case report and the
    category when the metadata have them, a newline, the whole text, a
    newline. *)
Lemma doc_text_holds (i : N) (d : Document) :
  GenerationIntegrationModule.doc_text i d
  = py "【治疗方案 " ++ str_of_N i ++ py "】"
    ++ match metadata d !! "case_report_id" with
       | Some topic => py " " ++ format_value topic
       | None => []
       end
    ++ match metadata d !! "category" with
       | Some category => py " | 分类: " ++ format_value category
       | None => []
       end
    ++ [LF] ++ page_content d ++ [LF].
Proof.
  unfold GenerationIntegrationModule.doc_text.
  change (py "【治疗方案 ") with GenerationIntegrationModule.marker_open.
  change (py "】") with GenerationIntegrationModule.marker_close.
  change (py " | 分类: ") with GenerationIntegrationModule.category_tag.
  change (py " ") with [32].
  destruct (metadata d !! "case_report_id"), (metadata d !! "category");
    cbn [app]; by rewrite <- ?app_assoc.
Qed.

(** C3. The context composer packs the blocks of the documents greedily, in
    input order: the blocks included are a prefix of all blocks, every
    included block kept the running length within the budget, and the
    first block left out is the first that would have exceeded it; a block
    is included whole or not at all. The block of the document at
    position [j] holds the index marker with the number [j + 1], the case
    report and the category of the metadata when they are there, and the
    whole text. For three blocks of 900 characters and the budget of 2000
    the first two blocks are included, the result is no longer than 2000
    plus the separator, and the result is what the first two documents
    alone produce. *)
Theorem build_context_greedy (doc : Document) (rest : list Document)
    (max_length : Z) :
  let docs := doc :: rest in
  (∃ k : nat,
     (k ≤ length docs)%nat
     ∧ GenerationIntegrationModule._build_context docs max_length
       = GenerationIntegrationModule.separator
         ++ join [LF] (take k (blocks_from 1 docs))
     ∧ (∀ j, (0 < j ≤ k)%nat →
          (total_length (take j (blocks_from 1 docs)) ≤ max_length)%Z)
     ∧ ((k < length docs)%nat →
          (total_length (take (S k) (blocks_from 1 docs)) > max_length)%Z))
  ∧ (∀ d2 d3 : Document,
       rest = [d2; d3] →
       length (GenerationIntegrationModule.doc_text 1 doc) = 900%nat →
       length (GenerationIntegrationModule.doc_text 2 d2) = 900%nat →
       length (GenerationIntegrationModule.doc_text 3 d3) = 900%nat →
       let out := GenerationIntegrationModule._build_context docs 2000 in
       out = GenerationIntegrationModule.separator
             ++ GenerationIntegrationModule.doc_text 1 doc ++ [LF]
             ++ GenerationIntegrationModule.doc_text 2 d2
       ∧ (length out ≤ 2000 + length GenerationIntegrationModule.separator)%nat
       ∧ out = GenerationIntegrationModule._build_context [doc; d2] 2000)
  ∧ (∀ (j : nat) (d : Document),
       docs !! j = Some d →
       blocks_from 1 docs !! j
       = Some (py "【治疗方案 " ++ str_of_N (N.of_nat (S j)) ++ py "】"
               ++ match metadata d !! "case_report_id" with
                  | Some topic => py " " ++ format_value topic
                  | None => []
                  end
               ++ match metadata d !! "category" with
                  | Some category => py " | 分类: " ++ format_value category
                  | None => []
                  end
               ++ [LF] ++ page_content d ++ [LF])).
Proof.
  intros docs. split; [|split].
  - destruct (context_parts_greedy max_length docs 1 0%Z)
      as (k & Hk & Heq & Hin & Hout).
    exists k. unfold GenerationIntegrationModule._build_context, docs.
    fold docs. rewrite Heq. split; [done|]. split; [done|]. split.
    + intros j Hj. specialize (Hin j Hj). lia.
    + intros Hlt. specialize (Hout Hlt). lia.
  - intros d2 d3 -> H1 H2 H3 out. subst out docs.
    unfold GenerationIntegrationModule._build_context.
    do 3 (rewrite ?context_parts_cons; cbv zeta;
          change (1 + 1)%N with 2%N; change (2 + 1)%N with 3%N;
          rewrite ?H1, ?H2, ?H3;
          change (0 + Z.of_nat 900 >? 2000)%Z with false;
          change (0 + Z.of_nat 900 + Z.of_nat 900 >? 2000)%Z with false;
          change (0 + Z.of_nat 900 + Z.of_nat 900 + Z.of_nat 900 >? 2000)%Z
            with true;
          cbv iota).
    cbn [GenerationIntegrationModule.context_parts join].
    split; [done|]. split; [|done].
    rewrite !length_app, H1, H2. simpl. lia.
  - intros j d Hj. rewrite (blocks_from_lookup docs 1 j d Hj).
    replace (1 + N.of_nat j) with (N.of_nat (S j)) by lia.
    by rewrite doc_text_holds.
Qed.

Lemma build_context_greedy_witness :
  let out := GenerationIntegrationModule._build_context [doc_a; doc_b; doc_c] 2000 in
  out = GenerationIntegrationModule.separator
        ++ GenerationIntegrationModule.doc_text 1 doc_a ++ [LF]
        ++ GenerationIntegrationModule.doc_text 2 doc_b
  ∧ (length out ≤ 2000 + length GenerationIntegrationModule.separator)%nat
  ∧ out = GenerationIntegrationModule._build_context [doc_a; doc_b] 2000.
Proof.
  exact (proj1 (proj2 (build_context_greedy doc_a [doc_b; doc_c] 2000))
           doc_b doc_c eq_refl eq_refl eq_refl eq_refl).
Defined.

(** The content of the third document, the letter [c] only, leaves no
    trace in the context. *)
Example third_block_absent :
  99 ∉ GenerationIntegrationModule._build_context [doc_a; doc_b; doc_c] 2000.
Proof. apply (bool_decide_unpack _). by vm_compute. Qed.

(** C10. The placeholder is the answer for the empty list of documents
    only. When the list is not empty and already the first block exceeds
    the budget, the result is the bare separator, a newline followed by
    fifty [=], with no block. *)
Theorem build_context_placeholder (docs : list Document) (max_length : Z) :
  (GenerationIntegrationModule._build_context docs max_length
   = GenerationIntegrationModule.no_information ↔ docs = [])
  ∧ (∀ doc rest,
       docs = doc :: rest →
       (max_length
        < Z.of_nat (length (GenerationIntegrationModule.doc_text 1 doc)))%Z →
       GenerationIntegrationModule._build_context docs max_length
       = GenerationIntegrationModule.separator)
  ∧ GenerationIntegrationModule.separator = LF :: repeat 61 50
  ∧ GenerationIntegrationModule.no_information = py "暂无相关疾病信息。".
Proof.
  repeat split.
  - destruct docs as [|doc rest]; [done|]. simpl. discriminate.
  - intros ->. done.
  - intros doc rest -> Hlt.
    unfold GenerationIntegrationModule._build_context. simpl.
    destruct (Z.gtb_spec
      (0 + Z.of_nat (length (GenerationIntegrationModule.doc_text 1 doc)))
      max_length) as [_|Hle]; [|lia].
    done.
Qed.

Lemma build_context_placeholder_witness :
  GenerationIntegrationModule._build_context [doc_a] 100
  = GenerationIntegrationModule.separator.
Proof.
  apply (proj1 (proj2 (build_context_placeholder [doc_a] 100)) doc_a []).
  - reflexivity.
  - vm_compute. reflexivity.
Defined.

(** ** Filter extractor *)

(** C9. The filter extractor goes through the list of category labels in
    order and answers with the filter [{category: label}] for the first
    label that occurs in the question as a run of characters; when no label
    occurs in the question it answers with the empty filter. The question
    and the labels are compared as they are. *)
Theorem extract_filters_first_label (category_keywords : list (list N))
    (query : list N) :
  (∀ pre cat post,
     category_keywords = pre ++ cat :: post →
     substring cat query →
     (∀ l, l ∈ pre → ¬ substring l query) →
     RecipeRAGSystem._extract_filters_from_query category_keywords query
     = {["category" := VStr cat]})
  ∧ ((∀ l, l ∈ category_keywords → ¬ substring l query) →
     RecipeRAGSystem._extract_filters_from_query category_keywords query = ∅).
Proof.
  split.
  - intros pre cat post -> Hcat Hpre.
    induction pre as [|l pre IH]; simpl.
    + apply str_contains_spec in Hcat. by rewrite Hcat.
    + destruct (str_contains l query) eqn:Hl.
      * apply str_contains_spec in Hl. exfalso.
        apply (Hpre l); [left | done].
      * apply IH. intros l' Hl'. apply Hpre. by right.
  - induction category_keywords as [|l labels IH]; intros Hnone; simpl.
    + done.
    + destruct (str_contains l query) eqn:Hl.
      * apply str_contains_spec in Hl. exfalso.
        apply (Hnone l); [left | done].
      * apply IH. intros l' Hl'. apply Hnone. by right.
Qed.

Lemma extract_filters_first_label_witness :
  RecipeRAGSystem._extract_filters_from_query sample_labels question_fracture
  = {["category" := VStr (py "骨折")]}
  ∧ RecipeRAGSystem._extract_filters_from_query sample_labels (py "Fracture care")
    = ∅.
Proof.
  split.
  - apply (proj1 (extract_filters_first_label sample_labels question_fracture)
             [py "感染"] (py "骨折")
             [py "血管瘤"; py "椎间盘问题"; py "恶性肿瘤"; py "其他类型疾病"]).
    + reflexivity.
    + apply str_contains_spec. reflexivity.
    + intros l Hl Hsub. apply str_contains_spec in Hsub.
      apply list_elem_of_singleton in Hl. subst l. vm_compute in Hsub. discriminate.
  - apply (proj2 (extract_filters_first_label sample_labels (py "Fracture care"))).
    intros l Hl Hsub. apply str_contains_spec in Hsub.
    unfold sample_labels in Hl.
    repeat (apply elem_of_cons in Hl as [-> | Hl];
            [vm_compute in Hsub; discriminate|]).
    by apply elem_of_nil in Hl.
Defined.

(** The sample order is one of the orders that the set of labels can have. *)
Example sample_labels_are_CATEGORY_LABELS :
  DataPreparationModule.is_CATEGORY_LABELS sample_labels.
Proof.
  split.
  - apply (bool_decide_unpack _). by vm_compute.
  - intros l. split; revert l; apply (proj1 (Forall_forall _ _));
      apply (bool_decide_unpack _); by vm_compute.
Qed.

(** ** Answering a question *)

(** C4. [ask_question] raises the error that asks to build the knowledge
    base first whenever one of the two retrieval modules or the generation
    module is absent. When the modules are there and the retrieval that the
    pipeline runs answers with no fragment, it returns the fixed "not
    found" message as a value. *)
Theorem ask_question_guards (self : RecipeRAGSystem.system)
    (question : list N) (stream : bool) :
  ((RecipeRAGSystem.case_report_retrieval_module self = None
    ∨ RecipeRAGSystem.generation_module self = None
    ∨ RecipeRAGSystem.guideline_retrieval_module self = None) →
   RecipeRAGSystem.ask_question self question stream
   = inl (ValueError RecipeRAGSystem.build_first))
  ∧ (∀ retrieval generation guideline route rewritten,
       RecipeRAGSystem.case_report_retrieval_module self = Some retrieval →
       RecipeRAGSystem.generation_module self = Some generation →
       RecipeRAGSystem.guideline_retrieval_module self = Some guideline →
       GenerationIntegrationModule.query_router
         (RecipeRAGSystem.llm generation) question = inr route →
       (if bool_decide (route = GenerationIntegrationModule.label_list)
        then rewritten = question
        else GenerationIntegrationModule.query_rewrite
               (RecipeRAGSystem.llm generation) question = inr rewritten) →
       (let filters :=
          RecipeRAGSystem._extract_filters_from_query
            (RecipeRAGSystem.CATEGORY_LABELS self) question in
        if bool_decide (filters = ∅)
        then RecipeRAGSystem.hybrid_search retrieval rewritten
               (RecipeRAGSystem.top_k self) = inr []
        else RecipeRAGSystem.metadata_filtered_search retrieval rewritten
               filters (RecipeRAGSystem.top_k self) = inr []) →
       RecipeRAGSystem.ask_question self question stream
       = inr (RecipeRAGSystem.Text RecipeRAGSystem.not_found))
  ∧ RecipeRAGSystem.build_first = py "请先构建知识库"
  ∧ RecipeRAGSystem.not_found
    = py "抱歉，没有找到相关的疾病信息。请尝试其他疾病名称或关键词。".
Proof.
  split; [|split; [|done]].
  - unfold RecipeRAGSystem.ask_question.
    intros [H | [H | H]]; rewrite H.
    + done.
    + by destruct (RecipeRAGSystem.case_report_retrieval_module self).
    + destruct (RecipeRAGSystem.case_report_retrieval_module self);
        [destruct (RecipeRAGSystem.generation_module self)|]; done.
  - intros retrieval generation guideline route rewritten Hr Hg Hgl
      Hroute Hrewrite Hsearch.
    unfold RecipeRAGSystem.ask_question. rewrite Hr, Hg, Hgl, Hroute.
    cbn [bind]. cbv zeta in Hsearch.
    destruct (bool_decide (route = GenerationIntegrationModule.label_list)).
    + subst rewritten. cbn [bind ret].
      destruct (bool_decide _); rewrite Hsearch; done.
    + rewrite Hrewrite. cbn [bind].
      destruct (bool_decide _); rewrite Hsearch; done.
Qed.

Lemma ask_question_guards_witness :
  RecipeRAGSystem.ask_question system_not_built question_fracture false
  = inl (ValueError RecipeRAGSystem.build_first)
  ∧ RecipeRAGSystem.ask_question system_empty_index question_fracture true
    = inr (RecipeRAGSystem.Text RecipeRAGSystem.not_found).
Proof.
  split.
  - apply (proj1 (ask_question_guards system_not_built question_fracture false)).
    left. reflexivity.
  - apply (proj1 (proj2 (ask_question_guards system_empty_index
                           question_fracture true))
             empty_retrieval fixed_generation empty_retrieval
             (py "general") (py "骨折的治疗方案")).
    + reflexivity.
    + reflexivity.
    + reflexivity.
    + reflexivity.
    + reflexivity.
    + reflexivity.
Defined.

(** ** Parent resolver *)

Section SortedFacts.
Context {A : Type}.

Lemma StronglySorted_weaken (R R' : A → A → Prop) (l : list A) :
  (∀ a b, a ∈ l → b ∈ l → R a b → R' a b) →
  StronglySorted R l → StronglySorted R' l.
Proof.
  intros Himp Hs. induction Hs as [|a l Hs IH Hall]; constructor.
  - apply IH. intros x y Hx Hy. apply Himp; by right.
  - apply Forall_forall. intros b Hb.
    apply Himp; [left | by right |].
    rewrite Forall_forall in Hall. by apply Hall.
Qed.

Lemma StronglySorted_fmap_inv {B} (f : B → A) (R : A → A → Prop) (l : list B) :
  StronglySorted R (f <$> l) ↔ StronglySorted (fun a b => R (f a) (f b)) l.
Proof.
  induction l as [|x l IH].
  - split; constructor.
  - rewrite fmap_cons. split; intros Hs.
    + apply StronglySorted_inv in Hs as [Hs Hall]. constructor; [by apply IH|].
      rewrite Forall_forall in Hall. apply Forall_forall. intros y Hy.
      apply Hall. by apply list_elem_of_fmap_2.
    + apply StronglySorted_inv in Hs as [Hs Hall]. constructor; [by apply IH|].
      rewrite Forall_forall in Hall. apply Forall_forall. intros y Hy.
      apply list_elem_of_fmap in Hy as (z & -> & Hz). by apply Hall.
Qed.

Lemma StronglySorted_filter_keep (R : A → A → Prop) (P : A → Prop)
    `{∀ x, Decision (P x)} (l : list A) :
  StronglySorted R l → StronglySorted R (filter P l).
Proof.
  induction 1 as [|a l Hs IH Hall].
  - constructor.
  - rewrite filter_cons. case_decide; [|done]. constructor; [done|].
    rewrite Forall_forall in Hall |- *. intros y Hy.
    apply list_elem_of_filter in Hy as [_ Hy]. by apply Hall.
Qed.

Variable key : A → nat.

Lemma elem_of_insert_desc (x : A) (l : list A) (z : A) :
  z ∈ DataPreparationModule.insert_desc key x l ↔ z = x ∨ z ∈ l.
Proof.
  induction l as [|y l IH]; simpl.
  - rewrite list_elem_of_singleton, elem_of_nil. tauto.
  - destruct (key x <? key y)%nat.
    + rewrite !elem_of_cons, IH. tauto.
    + by rewrite elem_of_cons.
Qed.

Lemma insert_desc_Permutation (x : A) (l : list A) :
  DataPreparationModule.insert_desc key x l ≡ₚ x :: l.
Proof.
  induction l as [|y l IH]; simpl; [done|].
  destruct (key x <? key y)%nat; [|done].
  rewrite IH. apply Permutation_swap.
Qed.

Lemma sorted_desc_Permutation (l : list A) :
  DataPreparationModule.sorted_desc key l ≡ₚ l.
Proof.
  induction l as [|x l IH]; simpl; [done|].
  unfold DataPreparationModule.sorted_desc in *. simpl.
  by rewrite insert_desc_Permutation, IH.
Qed.

Lemma insert_desc_sorted (R : A → A → Prop) (x : A) (l : list A) :
  (∀ y, y ∈ l → R x y) →
  StronglySorted (key_then key R) l →
  StronglySorted (key_then key R) (DataPreparationModule.insert_desc key x l).
Proof.
  intros Hx Hs. induction Hs as [|y l Hs IH Hall]; simpl.
  - repeat constructor.
  - rewrite Forall_forall in Hall.
    destruct (Nat.ltb_spec (key x) (key y)) as [Hlt|Hge].
    + constructor.
      * apply IH. intros z Hz. apply Hx. by right.
      * apply Forall_forall. intros z Hz.
        apply elem_of_insert_desc in Hz as [->|Hz]; [by left | by apply Hall].
    + constructor; [by constructor; [|apply Forall_forall]|].
      apply Forall_forall. intros z Hz.
      assert (R x z) as HR by by apply Hx.
      apply elem_of_cons in Hz as [->|Hz].
      * unfold key_then. destruct (decide (key y = key x)); [right|left]; [done|lia].
      * destruct (Hall z Hz) as [Hlt|[Heq _]]; unfold key_then.
        -- left. lia.
        -- destruct (decide (key z = key x)); [right|left]; [done|lia].
Qed.

Lemma sorted_desc_sorted (R : A → A → Prop) (l : list A) :
  StronglySorted R l →
  StronglySorted (key_then key R) (DataPreparationModule.sorted_desc key l).
Proof.
  induction 1 as [|x l Hs IH Hall].
  - constructor.
  - unfold DataPreparationModule.sorted_desc in *. simpl.
    apply insert_desc_sorted; [|done].
    intros y Hy. rewrite Forall_forall in Hall. apply Hall.
    pose proof (sorted_desc_Permutation l) as HP.
    unfold DataPreparationModule.sorted_desc in HP. by rewrite <- HP.
Qed.
End SortedFacts.

Lemma first_occurrences_ext (keep : Value → bool) (s1 s2 ids : list Value) :
  (∀ x, x ∈ s1 ↔ x ∈ s2) →
  first_occurrences keep s1 ids = first_occurrences keep s2 ids.
Proof.
  revert s1 s2. induction ids as [|p r IH]; intros s1 s2 Hs; simpl; [done|].
  rewrite (bool_decide_ext (p ∈ s1) (p ∈ s2)) by apply Hs.
  destruct (keep p && negb (bool_decide (p ∈ s2))).
  - f_equal. apply IH. intros x. rewrite !elem_of_cons, Hs. tauto.
  - by apply IH.
Qed.

Lemma elem_of_first_occurrences (keep : Value → bool) (ids seen : list Value)
    (x : Value) :
  x ∈ first_occurrences keep seen ids ↔ x ∈ ids ∧ keep x = true ∧ x ∉ seen.
Proof.
  revert seen. induction ids as [|p r IH]; intros seen; simpl.
  - rewrite elem_of_nil. tauto.
  - destruct (keep p) eqn:Hk; simpl.
    + case_bool_decide as Hp; simpl.
      * rewrite IH, elem_of_cons. split; [tauto|].
        intros [[->|Hx] [Hkx Hn]]; [done | tauto].
      * rewrite !elem_of_cons, IH, elem_of_cons. split.
        -- intros [->|(Hx & Hkx & Hn)]; [tauto|]. tauto.
        -- intros [[->|Hx] [Hkx Hn]]; [by left|].
           destruct (decide (x = p)) as [->|Hne]; [by left|]. right. tauto.
    + rewrite IH, elem_of_cons. split; [tauto|].
      intros [[->|Hx] [Hkx Hn]]; [congruence | tauto].
Qed.

Lemma first_occurrences_NoDup (keep : Value → bool) (ids seen : list Value) :
  NoDup (first_occurrences keep seen ids).
Proof.
  revert seen. induction ids as [|p r IH]; intros seen; simpl.
  - constructor.
  - destruct (keep p && negb (bool_decide (p ∈ seen))); [|done].
    constructor; [|done].
    rewrite elem_of_first_occurrences, elem_of_cons. tauto.
Qed.

Lemma first_occurrences_sorted (keep : Value → bool) (ids seen : list Value) :
  StronglySorted (encountered_before ids) (first_occurrences keep seen ids).
Proof.
  revert seen. induction ids as [|p r IH]; intros seen; simpl.
  - constructor.
  - destruct (keep p && negb (bool_decide (p ∈ seen))) eqn:Hp.
    + constructor.
      * eapply StronglySorted_weaken; [|apply IH].
        intros a b Ha Hb Hab.
        apply elem_of_first_occurrences in Ha as (_ & _ & Ha).
        apply elem_of_first_occurrences in Hb as (_ & _ & Hb).
        rewrite elem_of_cons in Ha, Hb.
        unfold encountered_before in *. simpl.
        destruct (decide (p = a)); [naive_solver|].
        destruct (decide (p = b)); [naive_solver|]. lia.
      * apply Forall_forall. intros b Hb.
        apply elem_of_first_occurrences in Hb as (_ & _ & Hb).
        rewrite elem_of_cons in Hb.
        unfold encountered_before. simpl.
        rewrite decide_True by done.
        destruct (decide (p = b)); [naive_solver|]. lia.
    + eapply StronglySorted_weaken; [|apply IH].
      intros a b Ha Hb Hab.
      apply elem_of_first_occurrences in Ha as (_ & Hka & Ha).
      apply elem_of_first_occurrences in Hb as (_ & Hkb & Hb).
      unfold encountered_before in *. simpl.
      assert (p ≠ a) as Hpa.
      { intros ->. rewrite Hka in Hp. simpl in Hp.
        apply negb_false_iff, bool_decide_eq_true in Hp. done. }
      assert (p ≠ b) as Hpb.
      { intros ->. rewrite Hkb in Hp. simpl in Hp.
        apply negb_false_iff, bool_decide_eq_true in Hp. done. }
      rewrite !decide_False by done. lia.
Qed.

Lemma count_parent_keys (p : Value) (rel : list (Value * nat)) :
  (DataPreparationModule.count_parent p rel).*1
  = if decide (p ∈ rel.*1) then rel.*1 else rel.*1 ++ [p].
Proof.
  induction rel as [|[k n] rel IH].
  - done.
  - cbn [DataPreparationModule.count_parent].
    destruct (decide (k = p)) as [->|Hne]; rewrite !fmap_cons; cbn [fst].
    + rewrite decide_True; [done | by left].
    + rewrite IH. destruct (decide (p ∈ rel.*1)) as [Hin|Hout].
      * rewrite decide_True; [done | by right].
      * rewrite decide_False; [done|]. by intros [->|?]%elem_of_cons.
Qed.

Lemma assoc_count_count_parent (q : Value) (rel : list (Value * nat))
    (p : Value) :
  assoc_count (DataPreparationModule.count_parent q rel) p
  = (assoc_count rel p + if decide (q = p) then 1 else 0)%nat.
Proof.
  induction rel as [|[k n] rel IH]; simpl.
  - by destruct (decide (q = p)).
  - destruct (decide (k = q)) as [->|Hne]; simpl.
    + destruct (decide (q = p)); lia.
    + destruct (decide (k = p)) as [->|Hkp].
      * rewrite decide_False by done. lia.
      * apply IH.
Qed.

Lemma assoc_count_elem_of (rel : list (Value * nat)) (k : Value) (n : nat) :
  NoDup rel.*1 → (k, n) ∈ rel → assoc_count rel k = n.
Proof.
  induction rel as [|[k' n'] rel IH]; simpl; intros Hnd Hin.
  - by apply elem_of_nil in Hin.
  - apply NoDup_cons in Hnd as [Hk' Hnd].
    apply elem_of_cons in Hin as [Heq|Hin].
    + injection Heq as -> ->. by rewrite decide_True.
    + destruct (decide (k' = k)) as [->|Hne]; [|by apply IH].
      exfalso. apply Hk'. apply list_elem_of_fmap. by exists (k, n).
Qed.

Section Collect.
Variable docs : list Document.

Lemma referenced_parents_cons (chunk : Document) (rest : list Document) :
  referenced_parents (chunk :: rest)
  = match metadata chunk !! "parent_id" with
    | Some p =>
        if truthy (Some p) then p :: referenced_parents rest
        else referenced_parents rest
    | None => referenced_parents rest
    end.
Proof.
  unfold referenced_parents. cbn [omap list_omap].
  destruct (metadata chunk !! "parent_id") as [p|]; [|done].
  by destruct (truthy (Some p)).
Qed.

Lemma collect_parents_keys (chunks : list Document) :
  ∀ rel m,
  (DataPreparationModule.collect_parents docs chunks rel m).1.*1
  = rel.*1 ++ first_occurrences (fun _ => true) rel.*1 (referenced_parents chunks).
Proof.
  induction chunks as [|chunk rest IH]; intros rel m.
  - simpl. by rewrite app_nil_r.
  - rewrite referenced_parents_cons. cbn [DataPreparationModule.collect_parents].
    destruct (metadata chunk !! "parent_id") as [p|]; [|apply IH].
    destruct (truthy (Some p)); [|apply IH].
    rewrite IH, count_parent_keys. simpl.
    destruct (decide (p ∈ rel.*1)) as [Hin|Hout].
    + by rewrite bool_decide_eq_true_2.
    + rewrite bool_decide_eq_false_2 by done. simpl.
      rewrite <- app_assoc. simpl. do 2 f_equal.
      apply first_occurrences_ext. intros x.
      rewrite elem_of_app, list_elem_of_singleton, elem_of_cons. tauto.
Qed.

Lemma collect_parents_count (chunks : list Document) (p : Value) :
  ∀ rel m,
  assoc_count (DataPreparationModule.collect_parents docs chunks rel m).1 p
  = (assoc_count rel p + relevance_count (referenced_parents chunks) p)%nat.
Proof.
  induction chunks as [|chunk rest IH]; intros rel m.
  - simpl. unfold relevance_count. simpl. lia.
  - rewrite referenced_parents_cons. cbn [DataPreparationModule.collect_parents].
    destruct (metadata chunk !! "parent_id") as [q|]; [|apply IH].
    destruct (truthy (Some q)); [|apply IH].
    rewrite IH, assoc_count_count_parent. unfold relevance_count. simpl.
    destruct (Value_eq_dec q p), (decide (q = p)); try done; lia.
Qed.

Lemma collect_parents_map (chunks : list Document) (p : Value) :
  ∀ rel m,
  (DataPreparationModule.collect_parents docs chunks rel m).2 !! p
  = match m !! p with
    | Some d => Some d
    | None =>
        if decide (p ∈ referenced_parents chunks)
        then DataPreparationModule.find_parent docs p else None
    end.
Proof.
  induction chunks as [|chunk rest IH]; intros rel m.
  - cbn [DataPreparationModule.collect_parents snd].
    rewrite decide_False by apply not_elem_of_nil.
    by destruct (m !! p).
  - rewrite referenced_parents_cons. cbn [DataPreparationModule.collect_parents].
    destruct (metadata chunk !! "parent_id") as [q|]; [|apply IH].
    destruct (truthy (Some q)); [|apply IH].
    rewrite IH. destruct (decide (q = p)) as [->|Hne].
    + rewrite (decide_True (P := p ∈ p :: _)) by by left.
      destruct (m !! p) as [d|] eqn:Hm.
      * by rewrite Hm.
      * destruct (DataPreparationModule.find_parent docs p) as [d|] eqn:Hf.
        -- by rewrite lookup_insert_eq.
        -- rewrite Hm. by destruct (decide _).
    + assert ((match m !! q with
               | Some _ => m
               | None =>
                   match DataPreparationModule.find_parent docs q with
                   | Some doc => <[q:=doc]> m
                   | None => m
                   end
               end) !! p = m !! p) as ->.
      { destruct (m !! q); [done|].
        destruct (DataPreparationModule.find_parent docs q); [|done].
        by rewrite lookup_insert_ne. }
      destruct (m !! p); [done|].
      destruct (decide (p ∈ referenced_parents rest)) as [Hin|Hout].
      * rewrite decide_True; [done | by right].
      * rewrite decide_False; [done|]. by intros [->|?]%elem_of_cons.
Qed.
End Collect.

Lemma find_parent_Some (docs : list Document) (p : Value) (d : Document) :
  DataPreparationModule.find_parent docs p = Some d →
  d ∈ docs ∧ metadata d !! "parent_id" = Some p.
Proof.
  unfold DataPreparationModule.find_parent. intros H.
  apply find_some in H as [Hin Hp].
  apply bool_decide_eq_true in Hp. split; [|done].
  by apply list_elem_of_In.
Qed.

Lemma omap_filter_Forall2 {A B} (f : A → option B) (l : list A) :
  Forall2 (fun a b => f a = Some b) (filter (fun a => is_Some (f a)) l)
    (omap f l).
Proof.
  induction l as [|a l IH]; [constructor|].
  rewrite filter_cons. cbn [omap list_omap].
  destruct (f a) as [b|] eqn:Hf.
  - case_decide as H; [|exfalso; apply H; eauto]. by constructor.
  - case_decide as H; [by destruct H | done].
Qed.

Lemma omap_ext_elem {A B} (f g : A → option B) (l : list A) :
  (∀ a, a ∈ l → f a = g a) → omap f l = omap g l.
Proof.
  induction l as [|a l IH]; intros H; [done|].
  cbn [omap list_omap].
  rewrite (H a) by by left. rewrite IH; [done|].
  intros b Hb. apply H. by right.
Qed.

(** The ranking of the flat corpus: each referenced parent that resolves,
    once, by descending count and then by first encounter. *)
Lemma flat_parents_ranked (docs child_chunks : list Document) :
  let ids := referenced_parents child_chunks in
  ∃ ranked,
    Forall2 (fun p d => DataPreparationModule.find_parent docs p = Some d
                        ∧ metadata d !! "parent_id" = Some p)
      ranked (DataPreparationModule.get_parent_documents docs child_chunks)
    ∧ NoDup ranked
    ∧ (∀ p, p ∈ ranked ↔
         p ∈ ids ∧ is_Some (DataPreparationModule.find_parent docs p))
    ∧ StronglySorted (ranks_before ids) ranked.
Proof.
  intros ids. unfold DataPreparationModule.get_parent_documents.
  pose proof (collect_parents_keys docs child_chunks [] ∅) as Hkeys.
  pose proof (fun p => collect_parents_count docs child_chunks p [] ∅) as Hcount.
  pose proof (fun p => collect_parents_map docs child_chunks p [] ∅) as Hmap.
  destruct (DataPreparationModule.collect_parents docs child_chunks [] ∅)
    as [rel pm].
  simpl in Hkeys, Hcount, Hmap. fold ids in Hkeys, Hcount, Hmap.
  set (sorted := DataPreparationModule.sorted_desc snd rel).
  assert (sorted ≡ₚ rel) as Hperm by apply sorted_desc_Permutation.
  assert (NoDup rel.*1) as Hnd
    by (rewrite Hkeys; apply first_occurrences_NoDup).
  assert (∀ p, p ∈ sorted.*1 ↔ p ∈ ids) as Hmem.
  { intros p. rewrite Hperm, Hkeys, elem_of_first_occurrences.
    rewrite elem_of_nil. tauto. }
  exists (filter (fun p => is_Some (DataPreparationModule.find_parent docs p))
            sorted.*1).
  split; [|split; [|split]].
  - rewrite (omap_ext_elem _ (DataPreparationModule.find_parent docs)).
    + eapply Forall2_impl; [apply omap_filter_Forall2|].
      intros p d Hf. split; [done|]. by apply find_parent_Some in Hf as [_ ?].
    + intros p Hp. rewrite Hmap, lookup_empty.
      rewrite decide_True; [done | by apply Hmem].
  - apply NoDup_filter. by rewrite Hperm.
  - intros p. rewrite list_elem_of_filter, Hmem. tauto.
  - apply StronglySorted_filter_keep.
    apply StronglySorted_fmap_inv.
    eapply StronglySorted_weaken;
      [|apply (sorted_desc_sorted snd
                 (fun a b => encountered_before ids a.1 b.1))].
    + intros [a na] [b nb] Ha Hb. rewrite Hperm in Ha, Hb.
      apply (assoc_count_elem_of _ _ _ Hnd) in Ha, Hb.
      rewrite Hcount in Ha, Hb. simpl in Ha, Hb. subst na nb.
      unfold key_then, ranks_before. simpl. tauto.
    + apply StronglySorted_fmap_inv. rewrite Hkeys.
      apply first_occurrences_sorted.
Qed.

Lemma find_snoc {A} (f : A → bool) (l : list A) (x : A) :
  find f (l ++ [x])
  = match find f l with
    | Some y => Some y
    | None => if f x then Some x else None
    end.
Proof.
  induction l as [|y l IH]; simpl; [done|].
  by destruct (f y).
Qed.

Lemma parent_map_lookup (docs : list Document) :
  Forall (fun d => is_Some (metadata d !! "parent_id")) docs →
  ∀ m, ∃ pm,
    GuidelineDataPreparationModule.parent_map docs m = inr pm
    ∧ ∀ p, pm !! p
           = match DataPreparationModule.find_parent (rev docs) p with
             | Some d => Some d
             | None => m !! p
             end.
Proof.
  induction 1 as [|doc rest [pid Hpid] Hall IH]; intros m.
  - exists m. split; [done|]. intros p. done.
  - simpl. unfold GuidelineDataPreparationModule.getitem. rewrite Hpid.
    cbn [bind ret].
    destruct (IH (<[pid:=doc]> m)) as (pm & Heq & Hpm).
    exists pm. split; [done|]. intros p. rewrite Hpm.
    unfold DataPreparationModule.find_parent. rewrite find_snoc.
    fold (DataPreparationModule.find_parent (rev rest) p).
    destruct (DataPreparationModule.find_parent (rev rest) p); [done|].
    rewrite Hpid. case_bool_decide as Hp.
    + injection Hp as ->. by rewrite lookup_insert_eq.
    + rewrite lookup_insert_ne; [done|]. congruence.
Qed.

Lemma retrieve_parents_first_occurrences (pm : gmap Value Document)
    (chunks : list Document) :
  ∀ (seen : gset Value) (s : list Value),
  (∀ x, x ∈ s ↔ x ∈ seen) →
  Forall2 (fun p d => pm !! p = Some d)
    (first_occurrences (fun p => bool_decide (is_Some (pm !! p))) s
       (referenced_parents chunks))
    (GuidelineDataPreparationModule.retrieve_parents pm chunks seen).
Proof.
  induction chunks as [|chunk rest IH]; intros seen s Hs.
  - constructor.
  - rewrite referenced_parents_cons.
    cbn [GuidelineDataPreparationModule.retrieve_parents].
    destruct (metadata chunk !! "parent_id") as [p|]; [|by apply IH].
    destruct (truthy (Some p)); [|by apply IH].
    cbn [first_occurrences andb].
    rewrite (bool_decide_ext (p ∈ s) (p ∈ seen)) by apply Hs.
    destruct (decide (p ∈ seen)) as [Hin|Hout].
    + rewrite (bool_decide_eq_true_2 (p ∈ seen)) by done.
      rewrite (bool_decide_eq_false_2 (p ∉ seen)) by tauto.
      rewrite andb_false_r. by apply IH.
    + rewrite (bool_decide_eq_false_2 (p ∈ seen)) by done.
      rewrite (bool_decide_eq_true_2 (p ∉ seen)) by done.
      rewrite andb_true_r. destruct (pm !! p) as [d|] eqn:Hp.
      * rewrite bool_decide_eq_true_2 by eauto.
        constructor; [done|]. apply IH. intros x.
        rewrite elem_of_cons, elem_of_union, elem_of_singleton, Hs. tauto.
      * rewrite bool_decide_eq_false_2 by (by intros [? ?]). by apply IH.
Qed.

(** The order of the hierarchical corpus: each referenced parent that
    resolves, once, in the order of first encounter. *)
Lemma guideline_parents_in_encounter_order (docs child_chunks : list Document) :
  Forall (fun d => is_Some (metadata d !! "parent_id")) docs →
  let ids := referenced_parents child_chunks in
  ∃ out ranked,
    GuidelineDataPreparationModule.get_parent_documents docs child_chunks
    = inr out
    ∧ Forall2 (fun p d =>
                 DataPreparationModule.find_parent (rev docs) p = Some d
                 ∧ metadata d !! "parent_id" = Some p) ranked out
    ∧ NoDup ranked
    ∧ (∀ p, p ∈ ranked ↔
         p ∈ ids ∧ is_Some (DataPreparationModule.find_parent (rev docs) p))
    ∧ StronglySorted (encountered_before ids) ranked.
Proof.
  intros Hdocs ids.
  destruct (parent_map_lookup docs Hdocs ∅) as (pm & Hpm & Hlook).
  assert (∀ p, pm !! p = DataPreparationModule.find_parent (rev docs) p)
    as Hres.
  { intros p. rewrite Hlook.
    by destruct (DataPreparationModule.find_parent (rev docs) p). }
  unfold GuidelineDataPreparationModule.get_parent_documents.
  rewrite Hpm. cbn [bind ret].
  eexists _, (first_occurrences (fun p => bool_decide (is_Some (pm !! p))) []
                ids).
  split; [done|]. split; [|split; [|split]].
  - eapply Forall2_impl;
      [apply (retrieve_parents_first_occurrences pm child_chunks ∅ [])|].
    + intros x. rewrite elem_of_nil, elem_of_empty. tauto.
    + intros p d Hp. cbv beta in Hp. rewrite Hres in Hp. split; [done|].
      by apply find_parent_Some in Hp as [_ ?].
  - apply first_occurrences_NoDup.
  - intros p. rewrite elem_of_first_occurrences, bool_decide_eq_true, Hres.
    rewrite elem_of_nil. tauto.
  - apply first_occurrences_sorted.
Qed.

(** C1 (amended). The parent resolver of the flat corpus returns each
    referenced parent that resolves exactly once, by descending relevance
    count, ties in the order of first encounter. The parent resolver of the
    hierarchical corpus returns each referenced parent that resolves
    exactly once, in the order of first encounter; it does not count.
    Both resolve fragments of parents [A,A,B,A,C] to [A,B,C], and the
    flat one counts [A:3, B:1, C:1]. *)
Theorem parent_resolver_order (docs child_chunks : list Document) :
  let ids := referenced_parents child_chunks in
  (∃ ranked,
     Forall2 (fun p d => DataPreparationModule.find_parent docs p = Some d
                         ∧ metadata d !! "parent_id" = Some p)
       ranked (DataPreparationModule.get_parent_documents docs child_chunks)
     ∧ NoDup ranked
     ∧ (∀ p, p ∈ ranked ↔
          p ∈ ids ∧ is_Some (DataPreparationModule.find_parent docs p))
     ∧ StronglySorted (ranks_before ids) ranked)
  ∧ (Forall (fun d => is_Some (metadata d !! "parent_id")) docs →
     ∃ out ranked,
       GuidelineDataPreparationModule.get_parent_documents docs child_chunks
       = inr out
       ∧ Forall2 (fun p d =>
                    DataPreparationModule.find_parent (rev docs) p = Some d
                    ∧ metadata d !! "parent_id" = Some p) ranked out
       ∧ NoDup ranked
       ∧ (∀ p, p ∈ ranked ↔
            p ∈ ids
            ∧ is_Some (DataPreparationModule.find_parent (rev docs) p))
       ∧ StronglySorted (encountered_before ids) ranked)
  ∧ DataPreparationModule.get_parent_documents sample_parents fragments_AABAC
    = sample_parents
  ∧ GuidelineDataPreparationModule.get_parent_documents sample_parents
      fragments_AABAC = inr sample_parents
  ∧ (DataPreparationModule.collect_parents sample_parents fragments_AABAC [] ∅).1
    = [(VStr (py "A"), 3%nat); (VStr (py "B"), 1%nat); (VStr (py "C"), 1%nat)].
Proof.
  intros ids. split; [apply flat_parents_ranked|].
  split; [apply guideline_parents_in_encounter_order|].
  split; [by vm_compute|]. split; by vm_compute.
Qed.

Lemma parent_resolver_order_witness :
  Forall (fun d => is_Some (metadata d !! "parent_id")) sample_parents
  ∧ ∃ out ranked,
      GuidelineDataPreparationModule.get_parent_documents sample_parents
        fragments_BAA = inr out
      ∧ Forall2 (fun p d =>
                   DataPreparationModule.find_parent (rev sample_parents) p
                   = Some d
                   ∧ metadata d !! "parent_id" = Some p) ranked out
      ∧ NoDup ranked
      ∧ (∀ p, p ∈ ranked ↔
           p ∈ referenced_parents fragments_BAA
           ∧ is_Some (DataPreparationModule.find_parent (rev sample_parents) p))
      ∧ StronglySorted (encountered_before (referenced_parents fragments_BAA))
          ranked.
Proof.
  assert (Forall (fun d => is_Some (metadata d !! "parent_id")) sample_parents)
    as H.
  { repeat constructor; by eexists. }
  split; [exact H|].
  exact (proj1 (proj2 (parent_resolver_order sample_parents fragments_BAA)) H).
Defined.

(** For fragments of parents [B,A,A] the resolver of the hierarchical
    corpus answers [B,A], although two fragments refer to [A] and one to
    [B]; the resolver of the flat corpus answers [A,B]. *)
Lemma guideline_resolver_ignores_relevance :
  GuidelineDataPreparationModule.get_parent_documents sample_parents
    fragments_BAA = inr [parent_doc "B"; parent_doc "A"]
  ∧ relevance_count (referenced_parents fragments_BAA) (VStr (py "A")) = 2%nat
  ∧ relevance_count (referenced_parents fragments_BAA) (VStr (py "B")) = 1%nat
  ∧ ¬ relevance_ordered fragments_BAA [parent_doc "B"; parent_doc "A"]
  ∧ DataPreparationModule.get_parent_documents sample_parents fragments_BAA
    = [parent_doc "A"; parent_doc "B"].
Proof.
  split; [by vm_compute|]. split; [by vm_compute|]. split; [by vm_compute|].
  split; [|by vm_compute].
  intros (ranked & Hids & Hsorted).
  apply Forall2_cons_inv_r in Hids as (b & ranked' & Hb & Hids & ->).
  apply Forall2_cons_inv_r in Hids as (a & ranked'' & Ha & Hids & ->).
  apply Forall2_nil_inv_r in Hids as ->.
  vm_compute in Ha, Hb. injection Ha as <-. injection Hb as <-.
  apply StronglySorted_inv in Hsorted as [_ Hall].
  apply Forall_cons in Hall as [Hrank _].
  vm_compute in Hrank. destruct Hrank as [Hlt | [Heq _]].
  - apply Nat.leb_le in Hlt. discriminate.
  - discriminate.
Qed.

(** ** Path metadata resolver *)

Lemma join_cons_ne (sep p : list N) (rest : list (list N)) :
  rest ≠ [] → join sep (p :: rest) = p ++ sep ++ join sep rest.
Proof. by destruct rest. Qed.

Lemma word_breaks_nil_inv (s : list N) : word_breaks s = [] → s = [].
Proof.
  destruct s as [|a [|b r]]; simpl; [done..|].
  by destruct (_ || _).
Qed.

Lemma camel_matches_word_breaks (s : list N) :
  LF ∉ s → s ≠ [] →
  ∀ cur, join [32] (Re.camel_matches cur s) = rev cur ++ word_breaks s.
Proof.
  induction s as [|c r IH]; intros Hlf Hne cur; [done|].
  apply not_elem_of_cons in Hlf as [Hc Hr].
  cbn [Re.camel_matches].
  rewrite (proj2 (N.eqb_neq c LF)) by done.
  destruct r as [|b r'].
  - simpl. done.
  - apply not_elem_of_cons in Hr as [Hb Hr'].
    assert (LF ∉ b :: r') as Hlf' by (apply not_elem_of_cons; done).
    assert (Re.camel_boundary c (b :: r')
            = (is_lower c && is_upper b)
              || (is_upper c && is_upper b
                  && match r' with d :: _ => is_lower d | [] => false end))
      as ->.
    { unfold Re.camel_boundary.
      rewrite (proj2 (N.eqb_neq b LF)) by done. simpl. apply orb_false_r. }
    change (word_breaks (c :: b :: r'))
      with (if (is_lower c && is_upper b)
               || (is_upper c && is_upper b
                   && match r' with d :: _ => is_lower d | [] => false end)
            then c :: 32 :: word_breaks (b :: r')
            else c :: word_breaks (b :: r')).
    destruct (_ || _).
    + pose proof (IH Hlf' ltac:(done) []) as Hrest. cbn [rev app] in Hrest.
      rewrite join_cons_ne.
      * rewrite Hrest. cbn [rev]. by rewrite <- !app_assoc.
      * intros Hnil. rewrite Hnil in Hrest. cbn [join] in Hrest.
        symmetry in Hrest. by apply word_breaks_nil_inv in Hrest.
    + rewrite (IH Hlf' ltac:(done)). cbn [rev]. by rewrite <- app_assoc.
Qed.

Lemma camel_case_split_word_breaks (identifier : list N) :
  LF ∉ identifier →
  GuidelineDataPreparationModule._camel_case_split identifier
  = word_breaks identifier.
Proof.
  intros Hlf. unfold GuidelineDataPreparationModule._camel_case_split.
  destruct identifier as [|c r]; [done|].
  by rewrite camel_matches_word_breaks.
Qed.

Lemma split_first_Some (sep : N) (s a b : list N) :
  s = a ++ sep :: b → sep ∉ a →
  GuidelineDataPreparationModule.split_first sep s = Some (a, b).
Proof.
  intros -> Ha. induction a as [|c a IH]; simpl.
  - by rewrite N.eqb_refl.
  - apply not_elem_of_cons in Ha as [Hc Ha].
    rewrite (proj2 (N.eqb_neq c sep)) by done.
    by rewrite IH.
Qed.

Lemma split_first_None (sep : N) (s : list N) :
  sep ∉ s → GuidelineDataPreparationModule.split_first sep s = None.
Proof.
  induction s as [|c s IH]; intros Hs; simpl; [done|].
  apply not_elem_of_cons in Hs as [Hc Hs].
  rewrite (proj2 (N.eqb_neq c sep)) by done.
  by rewrite IH.
Qed.

Lemma relative_to_app (data_path rel : list (list N)) :
  GuidelineDataPreparationModule.relative_to (data_path ++ rel) data_path
  = Some rel.
Proof.
  induction data_path as [|d ds IH]; simpl.
  - by destruct rel.
  - by rewrite bool_decide_eq_true_2.
Qed.

Lemma search_part_None (s : list N) :
  (∀ pre suf, s = pre ++ suf → Re.part_at suf = None) →
  Re.search_part s = None.
Proof.
  induction s as [|c s IH]; intros H; [done|].
  cbn [Re.search_part].
  rewrite (H [] (c :: s)) by done.
  apply IH. intros pre suf ->. by apply (H (c :: pre) suf).
Qed.

Lemma search_part_leftmost (pre suf ds : list N) :
  Re.part_at suf = Some ds →
  (∀ pre1 pre2, pre = pre1 ++ pre2 → pre2 ≠ [] →
     Re.part_at (pre2 ++ suf) = None) →
  Re.search_part (pre ++ suf) = Some ds.
Proof.
  intros Hsuf. induction pre as [|c pre IH]; intros Hleft.
  - destruct suf as [|c suf]; [done|]. simpl app.
    cbn [Re.search_part]. by rewrite Hsuf.
  - pose proof (Hleft [] (c :: pre) eq_refl ltac:(done)) as Hc.
    cbn [app] in *. cbn [Re.search_part]. rewrite Hc.
    apply IH. intros pre1 pre2 -> Hne. by apply (Hleft (c :: pre1) pre2).
Qed.

Lemma take_while_app_stop (f : N → bool) (ds rest : list N) :
  Forall (fun c => f c = true) ds →
  match rest with d :: _ => f d = false | [] => True end →
  Re.take_while f (ds ++ rest) = ds.
Proof.
  intros Hds Hrest. induction Hds as [|c ds Hc Hds IH]; simpl.
  - destruct rest as [|d rest]; [done|]. simpl. by rewrite Hrest.
  - by rewrite Hc, IH.
Qed.

Lemma ci_startswith_app (kw tok rest : list N) :
  lower tok = kw → Re.ci_startswith kw (tok ++ rest) = true.
Proof.
  intros <-. induction tok as [|c tok IH]; simpl; [done|].
  unfold Re.ci_eq. by rewrite N.eqb_refl, IH.
Qed.

(** The pattern [part(\d+)] at a position, by the shape of the text
    there: the token in any case, then the longest run of digits. *)
Lemma part_at_token (tok ds rest : list N) :
  lower tok = py "part" → ds ≠ [] →
  Forall (fun c => is_digit c = true) ds →
  match rest with d :: _ => is_digit d = false | [] => True end →
  Re.part_at (tok ++ ds ++ rest) = Some ds.
Proof.
  intros Htok Hne Hds Hrest. unfold Re.part_at.
  rewrite (ci_startswith_app _ tok) by done.
  assert (length tok = 4%nat) as Hlen.
  { apply (f_equal length) in Htok. unfold lower in Htok.
    by rewrite length_map in Htok. }
  rewrite drop_app_length' by done.
  rewrite take_while_app_stop by done.
  by destruct ds.
Qed.

(** C5 (amended). For a file at depth three or more under the corpus root
    the path metadata resolver answers with: the book name, which is the
    first segment with a space at each camel-case boundary when the
    segment has no line feed; the chapter index and name, the second
    segment split at its first underscore, the other underscores turned
    into spaces, or index ["0"] and the whole segment when it has no
    underscore; the part index, the number after the leftmost [part] (in
    any case) that is followed by a decimal digit, of any script, in the
    file name, or 1; and the hierarchy string built from them, with the
    digits as the file name has them. The path
    [AdultIsthmicSpondylolisthesis/B_Diagnosis_Imaging/part2.md]
    resolves to book "Adult Isthmic Spondylolisthesis", chapter "B",
    "Diagnosis Imaging", part 2. A path of depth less than three is
    invalid. *)
Theorem parse_path_metadata_fields (data_path : list (list N))
    (book chapter : list N) (rest : list (list N)) :
  rest ≠ [] →
  let file_name := List.last rest [] in
  (∃ m part_digits,
     GuidelineDataPreparationModule._parse_path_metadata data_path
       (data_path ++ book :: chapter :: rest) = Some m
     ∧ GuidelineDataPreparationModule.source_file m = file_name
     ∧ (LF ∉ book →
        GuidelineDataPreparationModule.book_name m = word_breaks book)
     ∧ (∀ idx name,
          chapter = idx ++ 95 :: name → 95 ∉ idx →
          GuidelineDataPreparationModule.chapter_index m = idx
          ∧ GuidelineDataPreparationModule.chapter_name m
            = GuidelineDataPreparationModule.replace_char 95 32 name)
     ∧ (95 ∉ chapter →
        GuidelineDataPreparationModule.chapter_index m = py "0"
        ∧ GuidelineDataPreparationModule.chapter_name m = chapter)
     ∧ GuidelineDataPreparationModule.part_index m = int_of_digits part_digits
     ∧ (∀ pre tok ds post,
          file_name = pre ++ tok ++ ds ++ post →
          lower tok = py "part" → ds ≠ [] →
          Forall (fun c => is_digit c = true) ds →
          match post with d :: _ => is_digit d = false | [] => True end →
          (∀ pre1 pre2, pre = pre1 ++ pre2 → pre2 ≠ [] →
             Re.part_at (pre2 ++ tok ++ ds ++ post) = None) →
          part_digits = ds)
     ∧ ((∀ pre suf, file_name = pre ++ suf → Re.part_at suf = None) →
        part_digits = py "1"
        ∧ GuidelineDataPreparationModule.part_index m = 1%Z)
     ∧ GuidelineDataPreparationModule.hierarchy_string m
       = GuidelineDataPreparationModule.book_name m ++ py " > "
         ++ GuidelineDataPreparationModule.chapter_index m ++ py ". "
         ++ GuidelineDataPreparationModule.chapter_name m ++ py " > Part "
         ++ part_digits)
  ∧ (∀ rel, (length rel < 3)%nat →
       GuidelineDataPreparationModule._parse_path_metadata data_path
         (data_path ++ rel) = None)
  ∧ GuidelineDataPreparationModule._parse_path_metadata corpus_root
      (corpus_root ++ sample_path)
    = Some (GuidelineDataPreparationModule.mkPathMetadata
              (py "Adult Isthmic Spondylolisthesis") (py "B")
              (py "Diagnosis Imaging") 2 (py "part2.md")
              (py "Adult Isthmic Spondylolisthesis > B. Diagnosis Imaging > Part 2")).
Proof.
  intros Hrest file_name. split; [|split; [|by vm_compute]].
  - unfold GuidelineDataPreparationModule._parse_path_metadata.
    rewrite relative_to_app.
    destruct rest as [|f rest']; [done|].
    change (length (book :: chapter :: f :: rest') <? 3)%nat with false.
    cbv iota.
    assert (List.last (book :: chapter :: f :: rest') [] = file_name) as ->
      by done.
    clearbody file_name.
    set (chap := match GuidelineDataPreparationModule.split_first 95 chapter with
                 | Some (ci, raw) =>
                     (ci, GuidelineDataPreparationModule.replace_char 95 32 raw)
                 | None => ([48], chapter)
                 end).
    set (digits := match Re.search_part file_name with
                   | Some ds => ds
                   | None => [49]
                   end).
    destruct chap as [ci cn] eqn:Hchap.
    eexists _, digits. split; [reflexivity|]. cbn.
    split; [done|]. split; [apply camel_case_split_word_breaks|].
    split; [|split; [|split; [done|split; [|split; [|done]]]]].
    + intros idx name Hc Hidx. subst chap.
      rewrite (split_first_Some 95 chapter idx name) in Hchap by done.
      by injection Hchap as <- <-.
    + intros Hc. subst chap.
      rewrite split_first_None in Hchap by done.
      by injection Hchap as <- <-.
    + intros pre tok ds post Hfile Htok Hne Hds Hpost Hleft. subst digits.
      rewrite Hfile.
      by rewrite (search_part_leftmost pre (tok ++ ds ++ post) ds)
        by (by apply part_at_token || done).
    + intros Hnone. subst digits.
      by rewrite search_part_None.
  - intros rel Hlen.
    unfold GuidelineDataPreparationModule._parse_path_metadata.
    rewrite relative_to_app.
    by rewrite (proj2 (Nat.ltb_lt _ _)).
Qed.

Lemma parse_path_metadata_fields_witness :
  ∃ m,
    GuidelineDataPreparationModule._parse_path_metadata corpus_root
      (corpus_root ++ sample_path) = Some m
    ∧ GuidelineDataPreparationModule.book_name m
      = py "Adult Isthmic Spondylolisthesis"
    ∧ GuidelineDataPreparationModule.chapter_index m = py "B"
    ∧ GuidelineDataPreparationModule.chapter_name m = py "Diagnosis Imaging"
    ∧ GuidelineDataPreparationModule.part_index m = 2%Z.
Proof.
  destruct (proj1 (parse_path_metadata_fields corpus_root
                     (py "AdultIsthmicSpondylolisthesis")
                     (py "B_Diagnosis_Imaging") [py "part2.md"]
                     ltac:(discriminate)))
    as (m & digits & Hm & _ & Hbook & Hchapter & _ & Hpart & Hdigits & _).
  exists m. split; [exact Hm|].
  split.
  { rewrite Hbook; [by vm_compute|].
    intros Hin. apply (bool_decide_pack _) in Hin. by vm_compute in Hin. }
  destruct (Hchapter (py "B") (py "Diagnosis_Imaging")) as [Hci Hcn].
  { by vm_compute. }
  { intros Hin. apply (bool_decide_pack _) in Hin. by vm_compute in Hin. }
  split; [exact Hci|]. split; [rewrite Hcn; by vm_compute|].
  rewrite Hpart.
  rewrite (Hdigits [] (py "part") (py "2") (py ".md")).
  - by vm_compute.
  - by vm_compute.
  - by vm_compute.
  - discriminate.
  - repeat constructor.
  - by vm_compute.
  - intros pre1 pre2 Hpre Hne. by destruct pre1, pre2.
Defined.

(** The book folder with a line feed: the pattern of the camel-case split
    does not pass a line feed, and what stands before it is lost; the
    book name is not the folder name with spaces at its boundaries. *)
Lemma book_folder_with_line_feed :
  ∃ m,
    GuidelineDataPreparationModule._parse_path_metadata corpus_root
      (corpus_root ++ [py "Ab
Cd"; py "B_Diagnosis_Imaging"; py "part2.md"]) = Some m
    ∧ GuidelineDataPreparationModule.book_name m = py "Cd"
    ∧ word_breaks (py "Ab
Cd") = py "Ab
Cd"
    ∧ GuidelineDataPreparationModule.book_name m ≠ word_breaks (py "Ab
Cd").
Proof.
  eexists. split; [by vm_compute|].
  cbn [GuidelineDataPreparationModule.book_name].
  split; [by vm_compute|]. split; [by vm_compute|].
  intros H. vm_compute in H. discriminate H.
Qed.

(** The digits of the part may be of any script: the part index is their
    value, the hierarchy string keeps them as they are. *)
Example part_index_of_any_script :
  GuidelineDataPreparationModule._parse_path_metadata corpus_root
    (corpus_root ++ [py "NeckPain"; py "A_Intro"; py "Part٢7.md"])
  = Some (GuidelineDataPreparationModule.mkPathMetadata
            (py "Neck Pain") (py "A") (py "Intro") 27 (py "Part٢7.md")
            (py "Neck Pain > A. Intro > Part ٢7")).
Proof. by vm_compute. Qed.

(** ** Content normalizers *)

Lemma sub_no_match (match_at : list N → option (nat * list N)) (s : list N) :
  no_match match_at s → Re.sub match_at 0 s = s.
Proof.
  induction s as [|c r IH]; intros Hno; [done|].
  cbn [Re.sub]. rewrite (Hno [] (c :: r)) by done.
  f_equal. apply IH. intros pre suf ->. by apply (Hno (c :: pre) suf).
Qed.

Lemma before_ref_heading_no_match (kws : list (list N)) (s : list N) :
  ∀ bol : bool,
  (∀ pre suf,
     s = pre ++ suf →
     (pre = [] ∧ bol = true ∨ ∃ pre', pre = pre' ++ [LF]) →
     Re.ref_heading_at kws suf = false) →
  Re.before_ref_heading kws bol s = s.
Proof.
  induction s as [|c r IH]; intros bol Hno; [done|].
  cbn [Re.before_ref_heading].
  assert (bol && Re.ref_heading_at kws (c :: r) = false) as ->.
  { destruct bol; [|done]. simpl. apply (Hno [] (c :: r)); [done|]. by left. }
  f_equal. apply IH. intros pre suf -> Hpre.
  apply (Hno (c :: pre) suf); [done|]. right.
  destruct Hpre as [[-> Hc] | [pre' ->]].
  - apply N.eqb_eq in Hc as ->. by exists [].
  - by exists (c :: pre').
Qed.

Lemma lstrip_id (t : list N) :
  (∀ c r, t = c :: r → is_space c = false) → lstrip t = t.
Proof.
  destruct t as [|c r]; intros H; [done|].
  simpl. by rewrite (H c r).
Qed.

Lemma strip_trimmed (t : list N) : trimmed t → strip t = t.
Proof.
  intros [Hhead Hlast]. unfold strip, rstrip.
  rewrite (lstrip_id t) by done.
  rewrite lstrip_id; [by rewrite rev_involutive|].
  intros c r Hrev. apply (Hlast (rev r) c).
  by rewrite <- (rev_involutive t), Hrev.
Qed.

Lemma image_drop_no_match (t : list N) :
  no_match Re.image_at t → no_match Re.image_drop_at t.
Proof.
  intros H pre suf Ht. unfold Re.image_drop_at. by rewrite (H pre suf).
Qed.

(** C6 (amended). Each content normalizer is total and answers the empty
    text with the empty text. On text that is already clean, with no
    reference heading at the start of a line, no tag, no image reference,
    no run of three newlines and no white space at either end, it changes
    nothing. *)
Theorem normalizers_fix_clean_text (t : list N) :
  DataPreparationModule.clean_academic_markdown [] = []
  ∧ GuidelineDataPreparationModule.clean_guideline_markdown [] = []
  ∧ (clean_academic t → DataPreparationModule.clean_academic_markdown t = t)
  ∧ (clean_guideline t →
     GuidelineDataPreparationModule.clean_guideline_markdown t = t).
Proof.
  split; [done|]. split; [done|]. split.
  - intros (Href & Htag & Himg & Hnl & Htrim).
    unfold DataPreparationModule.clean_academic_markdown.
    destruct t as [|c r] eqn:Ht; [done|]. rewrite <- Ht in *. clear Ht.
    rewrite before_ref_heading_no_match.
    + rewrite (sub_no_match Re.tag_at) by done.
      rewrite (sub_no_match Re.image_drop_at) by (by apply image_drop_no_match).
      rewrite (sub_no_match Re.blank_lines_at) by done.
      by apply strip_trimmed.
    + intros pre suf Hsplit Hpre. apply (Href pre suf Hsplit).
      destruct Hpre as [[-> _]|?]; [by left | by right].
  - intros (Href & Hbr & Htag & Himg & Hnl & Htrim).
    unfold GuidelineDataPreparationModule.clean_guideline_markdown.
    destruct t as [|c r] eqn:Ht; [done|]. rewrite <- Ht in *. clear Ht.
    rewrite before_ref_heading_no_match.
    + rewrite (sub_no_match Re.br_at) by done.
      rewrite (sub_no_match Re.tag_at) by done.
      rewrite (sub_no_match Re.image_at) by done.
      rewrite (sub_no_match Re.blank_lines_at) by done.
      by apply strip_trimmed.
    + intros pre suf Hsplit Hpre. apply (Href pre suf Hsplit).
      destruct Hpre as [[-> _]|?]; [by left | by right].
Qed.

Lemma no_match_b_sound {R} (match_at : list N → option R) (t : list N) :
  no_match_b match_at t = true → no_match match_at t.
Proof.
  unfold no_match_b, no_match. induction t as [|c r IH]; intros Hb pre suf Ht.
  - destruct pre, suf; try done. simpl in Hb.
    by destruct (match_at []).
  - cbn [tails forallb] in Hb. apply andb_true_iff in Hb as [Hhead Htail].
    destruct pre as [|c' pre].
    + simpl in Ht. subst suf. by destruct (match_at (c :: r)).
    + injection Ht as <- ->. by apply (IH Htail pre suf).
Qed.

Lemma no_ref_heading_b_sound (kws : list (list N)) (t : list N) :
  ∀ bol, no_ref_heading_b kws bol t = true →
  ∀ pre suf,
    t = pre ++ suf →
    (pre = [] ∧ bol = true ∨ ∃ pre', pre = pre' ++ [LF]) →
    Re.ref_heading_at kws suf = false.
Proof.
  induction t as [|c r IH]; intros bol Hb pre suf Ht Hpre.
  - by destruct pre, suf.
  - cbn [no_ref_heading_b] in Hb. apply andb_true_iff in Hb as [Hhead Htail].
    destruct pre as [|c' pre].
    + simpl in Ht. subst suf.
      destruct Hpre as [[_ ->]|[pre' Hpre']]; [|by destruct pre'].
      simpl in Hhead. by apply negb_true_iff in Hhead.
    + injection Ht as <- ->. apply (IH _ Htail pre suf eq_refl).
      destruct Hpre as [[? _]|[pre' Hpre']]; [done|].
      destruct pre' as [|c'' pre'].
      * injection Hpre' as -> ->. left. by rewrite N.eqb_refl.
      * injection Hpre' as -> ->. right. by exists pre'.
Qed.

Lemma trimmed_b_sound (t : list N) : trimmed_b t = true → trimmed t.
Proof.
  unfold trimmed_b, trimmed. intros [Hhead Hlast]%andb_true_iff. split.
  - intros c r ->. by apply negb_true_iff in Hhead.
  - intros r c ->. rewrite rev_unit in Hlast. by apply negb_true_iff in Hlast.
Qed.

Lemma clean_academic_test (t : list N) :
  no_ref_heading_b DataPreparationModule.references_keywords true t
  && no_match_b Re.tag_at t && no_match_b Re.image_at t
  && no_match_b Re.blank_lines_at t && trimmed_b t = true →
  clean_academic t.
Proof.
  rewrite !andb_true_iff. intros ((((Href & Htag) & Himg) & Hnl) & Htrim).
  split; [|split; [|split; [|split]]].
  - intros pre suf Ht Hpre.
    apply (no_ref_heading_b_sound _ _ _ Href pre suf Ht).
    destruct Hpre as [->|?]; [by left | by right].
  - by apply no_match_b_sound.
  - by apply no_match_b_sound.
  - by apply no_match_b_sound.
  - by apply trimmed_b_sound.
Qed.

Lemma clean_guideline_test (t : list N) :
  no_ref_heading_b GuidelineDataPreparationModule.references_keywords true t
  && no_match_b Re.br_at t && no_match_b Re.tag_at t
  && no_match_b Re.image_at t && no_match_b Re.blank_lines_at t
  && trimmed_b t = true →
  clean_guideline t.
Proof.
  rewrite !andb_true_iff.
  intros (((((Href & Hbr) & Htag) & Himg) & Hnl) & Htrim).
  split; [|split; [|split; [|split; [|split]]]].
  - intros pre suf Ht Hpre.
    apply (no_ref_heading_b_sound _ _ _ Href pre suf Ht).
    destruct Hpre as [->|?]; [by left | by right].
  - by apply no_match_b_sound.
  - by apply no_match_b_sound.
  - by apply no_match_b_sound.
  - by apply no_match_b_sound.
  - by apply trimmed_b_sound.
Qed.

Lemma normalizers_fix_clean_text_witness :
  clean_academic clean_sample ∧ clean_guideline clean_sample
  ∧ DataPreparationModule.clean_academic_markdown clean_sample = clean_sample
  ∧ GuidelineDataPreparationModule.clean_guideline_markdown clean_sample
    = clean_sample.
Proof.
  assert (clean_academic clean_sample) as Ha
    by (apply clean_academic_test; vm_compute; reflexivity).
  assert (clean_guideline clean_sample) as Hg
    by (apply clean_guideline_test; vm_compute; reflexivity).
  split; [exact Ha|]. split; [exact Hg|].
  destruct (normalizers_fix_clean_text clean_sample) as (_ & _ & H1 & H2).
  split; [exact (H1 Ha) | exact (H2 Hg)].
Defined.

(** The normalizers are not idempotent: trimming the text [ # References]
    moves the heading to the start of the line, and a second pass then
    removes it; removing the image of [!![a](b)[c](d)] leaves the image
    [![c](d)]. *)
Lemma normalizers_not_idempotent :
  DataPreparationModule.clean_academic_markdown
    (DataPreparationModule.clean_academic_markdown indented_references)
  ≠ DataPreparationModule.clean_academic_markdown indented_references
  ∧ GuidelineDataPreparationModule.clean_guideline_markdown
      (GuidelineDataPreparationModule.clean_guideline_markdown
         indented_references)
    ≠ GuidelineDataPreparationModule.clean_guideline_markdown
        indented_references
  ∧ DataPreparationModule.clean_academic_markdown indented_references
    = py "# References"
  ∧ DataPreparationModule.clean_academic_markdown (py "# References") = []
  ∧ DataPreparationModule.clean_academic_markdown nested_image = py "![c](d)"
  ∧ DataPreparationModule.clean_academic_markdown (py "![c](d)") = [].
Proof.
  repeat split; by vm_compute.
Qed.

(** ** Structural chunker *)

Section FlatChunking.
Variable split_text : list N → result (list Document).
Variable uuid4 : nat → list N.

Lemma link_children_texts (doc_metadata : gmap string Value) (parent_id : Value)
    (md_chunks : list Document) :
  ∀ i pcm next,
  page_content <$>
    (DataPreparationModule.link_children uuid4 doc_metadata parent_id i
       md_chunks pcm next).1.1
  = page_content <$> md_chunks.
Proof.
  induction md_chunks as [|chunk rest IH]; intros i pcm next; [done|].
  cbn [DataPreparationModule.link_children].
  specialize (IH (S i) (<[uuid4 next:=parent_id]> pcm) (S next)).
  destruct (DataPreparationModule.link_children uuid4 doc_metadata parent_id
              (S i) rest _ _) as [[rest' pcm'] next'].
  cbv beta iota. cbn [fst] in *. rewrite !fmap_cons. cbn [page_content].
  by rewrite IH.
Qed.

Lemma chunk_texts_app (docs : list Document)
    (cs1 cs2 : list DataPreparationModule.ChunkRef) :
  chunk_texts docs (cs1 ++ cs2) = chunk_texts docs cs1 ++ chunk_texts docs cs2.
Proof. unfold chunk_texts. by rewrite omap_app, fmap_app. Qed.

Lemma chunk_texts_Fresh (docs linked : list Document) :
  chunk_texts docs (map DataPreparationModule.Fresh linked)
  = page_content <$> linked.
Proof.
  unfold chunk_texts. induction linked as [|d l IH]; [done|].
  cbn [map omap list_omap DataPreparationModule.deref].
  by rewrite !fmap_cons, IH.
Qed.

Lemma chunk_texts_Parent (docs : list Document) (idx : nat) (doc : Document) :
  docs !! idx = Some doc →
  chunk_texts docs [DataPreparationModule.Parent idx] = [page_content doc].
Proof.
  intros H. unfold chunk_texts.
  cbn [omap list_omap DataPreparationModule.deref]. by rewrite H.
Qed.

Lemma chunk_texts_ext (docs1 docs2 : list Document)
    (cs : list DataPreparationModule.ChunkRef) :
  page_content <$> docs1 = page_content <$> docs2 →
  chunk_texts docs1 cs = chunk_texts docs2 cs.
Proof.
  intros Heq. unfold chunk_texts. induction cs as [|c cs IH]; [done|].
  cbn [omap list_omap]. destruct c as [d|j].
  - cbn [DataPreparationModule.deref]. by rewrite !fmap_cons, IH.
  - cbn [DataPreparationModule.deref].
    assert (page_content <$> docs1 !! j = page_content <$> docs2 !! j) as Hj
      by (by rewrite <- !list_lookup_fmap, Heq).
    destruct (docs1 !! j) as [d1|], (docs2 !! j) as [d2|]; try done.
    injection Hj as Hj. by rewrite !fmap_cons, IH, Hj.
Qed.

Lemma split_document_texts (docs0 : list Document) (idx : nat)
    (doc : Document) (acc : DataPreparationModule.split_acc) :
  docs0 !! idx = Some doc →
  chunk_texts docs0
    (DataPreparationModule.all_chunks
       (DataPreparationModule.split_document split_text uuid4 idx doc acc))
  = chunk_texts docs0 (DataPreparationModule.all_chunks acc)
    ++ expected_texts split_text doc.
Proof.
  intros Hidx.
  unfold DataPreparationModule.split_document, expected_texts,
    DataPreparationModule.split_failed.
  destruct (split_text (page_content doc)) as [e|md_chunks].
  - cbn [DataPreparationModule.all_chunks].
    by rewrite chunk_texts_app, (chunk_texts_Parent _ _ doc).
  - destruct (metadata doc !! "parent_id") as [parent_id|].
    + pose proof (link_children_texts (metadata doc) parent_id md_chunks 0
        (DataPreparationModule.acc_map acc)
        (DataPreparationModule.acc_next acc)) as Htexts.
      destruct (DataPreparationModule.link_children uuid4 (metadata doc)
                  parent_id 0 md_chunks _ _) as [[linked pcm] next'].
      cbn [DataPreparationModule.all_chunks fst] in *.
      by rewrite chunk_texts_app, chunk_texts_Fresh, Htexts.
    + cbn [DataPreparationModule.all_chunks].
      by rewrite chunk_texts_app, (chunk_texts_Parent _ _ doc).
Qed.

Lemma split_documents_texts (docs0 docs : list Document) :
  ∀ idx acc,
  (∀ k doc, docs !! k = Some doc → docs0 !! (idx + k)%nat = Some doc) →
  chunk_texts docs0
    (DataPreparationModule.all_chunks
       (DataPreparationModule.split_documents split_text uuid4 idx docs acc))
  = chunk_texts docs0 (DataPreparationModule.all_chunks acc)
    ++ (docs ≫= expected_texts split_text).
Proof.
  induction docs as [|doc rest IH]; intros idx acc Hdocs.
  - simpl. by rewrite app_nil_r.
  - cbn [DataPreparationModule.split_documents].
    rewrite IH.
    + rewrite split_document_texts.
      * rewrite bind_cons. by rewrite <- app_assoc.
      * specialize (Hdocs 0%nat doc eq_refl). by rewrite Nat.add_0_r in Hdocs.
    + intros k d Hk. specialize (Hdocs (S k) d Hk).
      by rewrite Nat.add_succ_r in Hdocs.
Qed.

Lemma stamp_text (i next : nat) (d : Document) :
  page_content (DataPreparationModule.stamp uuid4 i next d).1 = page_content d.
Proof.
  unfold DataPreparationModule.stamp.
  by destruct (metadata d !! "chunk_id").
Qed.

Lemma stamp_chunks_texts (cs : list DataPreparationModule.ChunkRef) :
  ∀ i docs next,
  page_content <$> (DataPreparationModule.stamp_chunks uuid4 i cs docs next).1.2
  = page_content <$> docs
  ∧ chunk_texts
      (DataPreparationModule.stamp_chunks uuid4 i cs docs next).1.2
      (DataPreparationModule.stamp_chunks uuid4 i cs docs next).1.1
    = chunk_texts docs cs.
Proof.
  induction cs as [|c cs IH]; intros i docs next; [done|].
  cbn [DataPreparationModule.stamp_chunks]. destruct c as [d|j].
  - pose proof (stamp_text i next d) as Hd.
    destruct (DataPreparationModule.stamp uuid4 i next d) as [d' next1].
    destruct (IH (S i) docs next1) as [Hdocs Htexts].
    destruct (DataPreparationModule.stamp_chunks uuid4 (S i) cs docs next1)
      as [[cs' docs'] next'].
    cbn [fst snd] in *. split; [done|].
    change (DataPreparationModule.Fresh d' :: cs')
      with ([DataPreparationModule.Fresh d'] ++ cs').
    change (DataPreparationModule.Fresh d :: cs)
      with ([DataPreparationModule.Fresh d] ++ cs).
    rewrite !chunk_texts_app, Htexts. f_equal.
    unfold chunk_texts. cbn. by rewrite Hd.
  - destruct (docs !! j) as [d|] eqn:Hj.
    + pose proof (stamp_text i next d) as Hd.
      destruct (DataPreparationModule.stamp uuid4 i next d) as [d' next1].
      cbn [fst] in Hd.
      assert (page_content <$> <[j:=d']> docs = page_content <$> docs) as Hins.
      { rewrite list_fmap_insert, Hd. apply list_insert_id.
        by rewrite list_lookup_fmap, Hj. }
      destruct (IH (S i) (<[j:=d']> docs) next1) as [Hdocs Htexts].
      destruct (DataPreparationModule.stamp_chunks uuid4 (S i) cs
                  (<[j:=d']> docs) next1) as [[cs' docs'] next'].
      cbn [fst snd] in *. split; [by rewrite Hdocs|].
      change (DataPreparationModule.Parent j :: cs')
        with ([DataPreparationModule.Parent j] ++ cs').
      change (DataPreparationModule.Parent j :: cs)
        with ([DataPreparationModule.Parent j] ++ cs).
      rewrite !chunk_texts_app, Htexts.
      rewrite (chunk_texts_ext (<[j:=d']> docs) docs cs) by done.
      f_equal. apply chunk_texts_ext. by rewrite Hdocs.
    + destruct (IH (S i) docs next) as [Hdocs Htexts].
      destruct (DataPreparationModule.stamp_chunks uuid4 (S i) cs docs next)
        as [[cs' docs'] next'].
      cbn [fst snd] in *. split; [done|].
      change (DataPreparationModule.Parent j :: cs')
        with ([DataPreparationModule.Parent j] ++ cs').
      change (DataPreparationModule.Parent j :: cs)
        with ([DataPreparationModule.Parent j] ++ cs).
      rewrite !chunk_texts_app, Htexts.
      f_equal. by apply chunk_texts_ext.
Qed.

Lemma split_document_log_mono (idx : nat) (doc : Document)
    (acc : DataPreparationModule.split_acc) (w : Warning) :
  w ∈ DataPreparationModule.acc_log acc →
  w ∈ DataPreparationModule.acc_log
        (DataPreparationModule.split_document split_text uuid4 idx doc acc).
Proof.
  intros Hw.
  unfold DataPreparationModule.split_document,
    DataPreparationModule.split_failed.
  destruct (split_text (page_content doc)) as [e|md_chunks].
  - cbn. rewrite elem_of_app. by left.
  - destruct (metadata doc !! "parent_id") as [parent_id|].
    + destruct (DataPreparationModule.link_children _ _ _ _ _ _ _)
        as [[linked pcm] next'].
      cbn. rewrite elem_of_app. by left.
    + cbn. rewrite elem_of_app. by left.
Qed.

Lemma split_document_log (idx : nat) (doc : Document)
    (acc : DataPreparationModule.split_acc) :
  let log := DataPreparationModule.acc_log
               (DataPreparationModule.split_document split_text uuid4 idx doc
                  acc) in
  (DataPreparationModule.has_headers (page_content doc) = false →
   NoHeadersFound idx ∈ log)
  ∧ (∀ e, split_text (page_content doc) = inl e → SplitFailed idx e ∈ log).
Proof.
  unfold DataPreparationModule.split_document,
    DataPreparationModule.split_failed.
  split.
  - intros ->.
    destruct (split_text (page_content doc)) as [e|md_chunks].
    + cbn. rewrite !elem_of_app, !elem_of_cons. tauto.
    + destruct (metadata doc !! "parent_id") as [parent_id|].
      * destruct (DataPreparationModule.link_children _ _ _ _ _ _ _)
          as [[linked pcm] next'].
        cbn. rewrite !elem_of_app, !elem_of_cons. tauto.
      * cbn. rewrite !elem_of_app, !elem_of_cons. tauto.
  - intros e ->. cbn. rewrite !elem_of_app, !elem_of_cons. tauto.
Qed.

Lemma split_documents_log (docs : list Document) :
  ∀ idx acc,
  let log := DataPreparationModule.acc_log
               (DataPreparationModule.split_documents split_text uuid4 idx
                  docs acc) in
  (∀ w, w ∈ DataPreparationModule.acc_log acc → w ∈ log)
  ∧ (∀ k doc, docs !! k = Some doc →
       (DataPreparationModule.has_headers (page_content doc) = false →
        NoHeadersFound (idx + k) ∈ log)
       ∧ (∀ e, split_text (page_content doc) = inl e →
            SplitFailed (idx + k) e ∈ log)).
Proof.
  induction docs as [|doc rest IH]; intros idx acc.
  - split; [done|]. intros k doc Hk. by rewrite lookup_nil in Hk.
  - cbn [DataPreparationModule.split_documents].
    destruct (IH (S idx)
                (DataPreparationModule.split_document split_text uuid4 idx doc
                   acc)) as [Hmono Hrest].
    split.
    + intros w Hw. apply Hmono. by apply split_document_log_mono.
    + intros [|k] d Hk.
      * injection Hk as ->. rewrite Nat.add_0_r.
        destruct (split_document_log idx d acc) as [H1 H2].
        split; [intros H; apply Hmono; by apply H1|].
        intros e He. apply Hmono. by apply H2.
      * rewrite Nat.add_succ_r. by apply (Hrest k d).
Qed.
End FlatChunking.

(** C7 (amended). Chunking a corpus never raises for want of headings. A
    document contributes the fragments that the heading splitter returns
    for its text, in number and in text; which fragments a text without
    heading gets is the splitter's answer, the code only logs a warning
    when the first 200 characters show no heading. The single fragment
    that holds the whole document is the answer to a failure of the split
    (the splitter raises, or the document has no parent identifier), and
    that failure is logged as a warning. *)
Theorem chunking_follows_splitter
    (split_text : list N → result (list Document)) (uuid4 : nat → list N)
    (st : DataPreparationModule.state) (next : nat) :
  DataPreparationModule.documents st ≠ [] →
  ∃ st' next' log,
    DataPreparationModule.chunk_documents split_text uuid4 st next
    = inr (st', next', log)
    ∧ page_content <$> DataPreparationModule.fragments st'
      = DataPreparationModule.documents st ≫= expected_texts split_text
    ∧ ∀ i doc,
        DataPreparationModule.documents st !! i = Some doc →
        (DataPreparationModule.has_headers (page_content doc) = false →
         NoHeadersFound i ∈ log)
        ∧ (∀ e, split_text (page_content doc) = inl e →
             SplitFailed i e ∈ log
             ∧ expected_texts split_text doc = [page_content doc])
        ∧ (∀ md_chunks,
             split_text (page_content doc) = inr md_chunks →
             is_Some (metadata doc !! "parent_id") →
             expected_texts split_text doc = page_content <$> md_chunks).
Proof.
  intros Hdocs. unfold DataPreparationModule.chunk_documents.
  destruct (DataPreparationModule.documents st) as [|d0 ds] eqn:Hst; [done|].
  rewrite <- Hst. clear Hdocs.
  unfold DataPreparationModule._markdown_header_split.
  set (acc0 := DataPreparationModule.mkAcc [] _ next []).
  pose proof (split_documents_texts split_text uuid4
                (DataPreparationModule.documents st)
                (DataPreparationModule.documents st) 0 acc0
                (fun k doc H => H)) as Htexts.
  destruct (split_documents_log split_text uuid4
              (DataPreparationModule.documents st) 0 acc0) as [_ Hlog].
  set (acc := DataPreparationModule.split_documents split_text uuid4 0
                (DataPreparationModule.documents st) acc0) in *.
  destruct (stamp_chunks_texts uuid4 (DataPreparationModule.all_chunks acc) 0
              (DataPreparationModule.documents st)
              (DataPreparationModule.acc_next acc)) as [_ Hstamp].
  destruct (DataPreparationModule.stamp_chunks uuid4 0
              (DataPreparationModule.all_chunks acc)
              (DataPreparationModule.documents st)
              (DataPreparationModule.acc_next acc)) as [[cs docs'] next'].
  cbn [fst snd] in Hstamp.
  eexists _, _, _. split; [reflexivity|]. split.
  - unfold DataPreparationModule.fragments.
    cbn [DataPreparationModule.documents DataPreparationModule.chunks].
    change (page_content <$> omap (DataPreparationModule.deref docs') cs)
      with (chunk_texts docs' cs).
    by rewrite Hstamp, Htexts.
  - intros i doc Hi. destruct (Hlog i doc Hi) as [Hno Hfail].
    split; [exact Hno|]. split.
    + intros e He. split; [by apply Hfail|].
      unfold expected_texts. by rewrite He.
    + intros md_chunks Hsplit [p Hp]. unfold expected_texts.
      by rewrite Hsplit, Hp.
Qed.

Lemma chunking_follows_splitter_witness :
  ∃ st' next' log,
    DataPreparationModule.chunk_documents failing_split_text sample_uuid4
      plain_corpus 0 = inr (st', next', log)
    ∧ page_content <$> DataPreparationModule.fragments st'
      = [page_content plain_document]
    ∧ NoHeadersFound 0 ∈ log
    ∧ SplitFailed 0 (ExternalError (py "split_text")) ∈ log.
Proof.
  destruct (chunking_follows_splitter failing_split_text sample_uuid4
              plain_corpus 0 ltac:(discriminate))
    as (st' & next' & log & Hrun & Htexts & Hdoc).
  exists st', next', log. split; [exact Hrun|]. split; [exact Htexts|].
  destruct (Hdoc 0%nat plain_document eq_refl) as (Hno & Hfail & _).
  split; [by apply Hno|]. by apply Hfail.
Defined.

(** With the heading splitter of the package, the text of two paragraphs
    [a], blank line, [b], which has no heading, gives one fragment whose
    text is not the text of the document, and the empty text gives no
    fragment at all. *)
Lemma headingless_fragment_differs :
  DataPreparationModule.has_headers (page_content plain_document) = false
  ∧ (∃ st' next' log,
       DataPreparationModule.chunk_documents split_plain_text sample_uuid4
         plain_corpus 0 = inr (st', next', log)
       ∧ page_content <$> DataPreparationModule.fragments st'
         = [[97; 32; 32; LF; 98]]
       ∧ page_content <$> DataPreparationModule.fragments st'
         ≠ [page_content plain_document])
  ∧ DataPreparationModule.has_headers (page_content empty_document) = false
  ∧ (∃ st' next' log,
       DataPreparationModule.chunk_documents split_plain_text sample_uuid4
         empty_corpus 0 = inr (st', next', log)
       ∧ DataPreparationModule.fragments st' = []).
Proof.
  split; [by vm_compute|]. split.
  - eexists _, _, _. split; [by vm_compute|]. split; by vm_compute.
  - split; [by vm_compute|].
    eexists _, _, _. split; by vm_compute.
Qed.

(** C8 (the fragment of the failure path). When the split of a document
    fails, [chunk_documents] gives the parent document, now a fragment, a
    new chunk identifier, and the fragment keeps its parent identifier,
    but the map from child to parent gets no entry for it. *)
Theorem fallback_fragment_not_indexed
    (split_text : list N → result (list Document)) (uuid4 : nat → list N)
    (doc : Document) (p : Value) (e : exn) (next : nat) :
  split_text (page_content doc) = inl e →
  metadata doc !! "parent_id" = Some p →
  metadata doc !! "chunk_id" = None →
  ∃ st' log frag,
    DataPreparationModule.chunk_documents split_text uuid4
      (DataPreparationModule.mkState [doc] [] ∅) next
    = inr (st', S next, log)
    ∧ DataPreparationModule.fragments st' = [frag]
    ∧ page_content frag = page_content doc
    ∧ metadata frag !! "chunk_id" = Some (VStr (uuid4 next))
    ∧ metadata frag !! "parent_id" = Some p
    ∧ DataPreparationModule.parent_child_map st' !! uuid4 next = None
    ∧ DataPreparationModule.parent_child_map st' = ∅.
Proof.
  intros Hsplit Hp Hc.
  unfold DataPreparationModule.chunk_documents,
    DataPreparationModule._markdown_header_split.
  cbn [DataPreparationModule.documents DataPreparationModule.split_documents
       DataPreparationModule.parent_child_map].
  unfold DataPreparationModule.split_document. rewrite Hsplit.
  unfold DataPreparationModule.split_failed.
  cbn [DataPreparationModule.all_chunks DataPreparationModule.acc_next
       DataPreparationModule.acc_map DataPreparationModule.acc_log app
       DataPreparationModule.stamp_chunks lookup list_lookup].
  unfold DataPreparationModule.stamp. rewrite Hc.
  cbn [DataPreparationModule.stamp_chunks].
  eexists _, _, _. split; [reflexivity|].
  unfold DataPreparationModule.fragments.
  cbn [DataPreparationModule.documents DataPreparationModule.chunks omap
       list_omap DataPreparationModule.deref lookup list_lookup insert
       list_insert DataPreparationModule.parent_child_map].
  split; [reflexivity|]. cbn [page_content metadata].
  split; [done|]. split.
  - rewrite !lookup_insert_ne by done. by rewrite lookup_insert_eq.
  - split; [by rewrite !lookup_insert_ne by done|]. split; [|done].
    apply lookup_empty.
Qed.

Lemma fallback_fragment_not_indexed_witness :
  ∃ st' log frag,
    DataPreparationModule.chunk_documents failing_split_text sample_uuid4
      plain_corpus 0 = inr (st', 1%nat, log)
    ∧ DataPreparationModule.fragments st' = [frag]
    ∧ page_content frag = page_content plain_document
    ∧ metadata frag !! "chunk_id" = Some (VStr (sample_uuid4 0))
    ∧ metadata frag !! "parent_id" = Some (VStr (py "p1"))
    ∧ DataPreparationModule.parent_child_map st' !! sample_uuid4 0 = None
    ∧ DataPreparationModule.parent_child_map st' = ∅.
Proof.
  exact (fallback_fragment_not_indexed failing_split_text sample_uuid4
           plain_document (VStr (py "p1")) (ExternalError (py "split_text")) 0
           eq_refl eq_refl eq_refl).
Defined.

(** *** The map from child to parent on the regular path *)

Section FlatIndex.
Variable split_text : list N → result (list Document).
Variable uuid4 : nat → list N.
Hypothesis uuid4_inj : ∀ i j, uuid4 i = uuid4 j → i = j.

Lemma flat_link_children_indexed (doc_metadata : gmap string Value)
    (parent_id : Value) (md_chunks : list Document) :
  ∀ i pcm next,
  let r := DataPreparationModule.link_children uuid4 doc_metadata parent_id i
             md_chunks pcm next in
  (next ≤ r.2)%nat
  ∧ Forall (indexed uuid4 r.1.2 r.2) r.1.1
  ∧ (∀ key, (∀ k, (next ≤ k)%nat → key ≠ uuid4 k) → r.1.2 !! key = pcm !! key).
Proof.
  induction md_chunks as [|chunk rest IH]; intros i pcm next.
  - cbn. split; [lia|]. split; [constructor | done].
  - cbn [DataPreparationModule.link_children].
    specialize (IH (S i) (<[uuid4 next:=parent_id]> pcm) (S next)).
    destruct (DataPreparationModule.link_children uuid4 doc_metadata parent_id
                (S i) rest _ _) as [[rest' pcm'] next'].
    cbn [fst snd] in *. destruct IH as (Hle & Hall & Hframe).
    split; [lia|]. split.
    + constructor; [|done].
      exists next, parent_id. split; [lia|]. cbn [metadata].
      split; [by rewrite !lookup_insert_ne by done; rewrite lookup_insert_eq|].
      split; [by rewrite !lookup_insert_ne by done; rewrite lookup_insert_eq|].
      rewrite Hframe; [apply lookup_insert_eq|].
      intros k Hk Heq. apply uuid4_inj in Heq. lia.
    + intros key Hkey. rewrite Hframe.
      * apply lookup_insert_ne. intros Heq. by apply (Hkey next).
      * intros k Hk. apply Hkey. lia.
Qed.

Lemma indexed_frame (pcm pcm' : gmap (list N) Value) (bound bound' : nat)
    (d : Document) :
  (bound ≤ bound')%nat →
  (∀ key, (∀ k, (bound ≤ k)%nat → key ≠ uuid4 k) → pcm' !! key = pcm !! key) →
  indexed uuid4 pcm bound d → indexed uuid4 pcm' bound' d.
Proof.
  intros Hle Hframe (k & pid & Hk & Hc & Hp & Hm).
  exists k, pid. split; [lia|]. split; [done|]. split; [done|].
  rewrite Hframe; [done|].
  intros k' Hk' Heq. apply uuid4_inj in Heq. lia.
Qed.

Lemma split_document_indexed (idx : nat) (doc : Document)
    (acc : DataPreparationModule.split_acc) :
  acc_indexed uuid4 acc →
  acc_indexed uuid4 (DataPreparationModule.split_document split_text uuid4 idx doc acc).
Proof.
  intros Hacc. unfold DataPreparationModule.split_document,
    DataPreparationModule.split_failed.
  destruct (split_text (page_content doc)) as [e|md_chunks].
  - intros d. cbn. rewrite elem_of_app, list_elem_of_singleton.
    intros [Hd|Hd]; [by apply Hacc | done].
  - destruct (metadata doc !! "parent_id") as [parent_id|].
    + pose proof (flat_link_children_indexed (metadata doc) parent_id
                    md_chunks 0 (DataPreparationModule.acc_map acc)
                    (DataPreparationModule.acc_next acc)) as Hlink.
      destruct (DataPreparationModule.link_children uuid4 (metadata doc)
                  parent_id 0 md_chunks _ _) as [[linked pcm] next'].
      cbn [fst snd] in Hlink. destruct Hlink as (Hle & Hall & Hframe).
      intros d. cbn. rewrite elem_of_app. intros [Hd|Hd].
      * eapply indexed_frame; [exact Hle | exact Hframe | by apply Hacc].
      * apply list_elem_of_fmap in Hd as (d' & Heq & Hd').
        injection Heq as ->. rewrite Forall_forall in Hall. by apply Hall.
    + intros d. cbn. rewrite elem_of_app, list_elem_of_singleton.
      intros [Hd|Hd]; [by apply Hacc | done].
Qed.

Lemma split_documents_indexed (docs : list Document) :
  ∀ idx acc,
  acc_indexed uuid4 acc →
  acc_indexed uuid4 (DataPreparationModule.split_documents split_text uuid4 idx docs
                 acc).
Proof.
  induction docs as [|doc rest IH]; intros idx acc Hacc; [done|].
  cbn [DataPreparationModule.split_documents].
  apply IH. by apply split_document_indexed.
Qed.

Lemma stamp_chunks_keeps_ids (cs : list DataPreparationModule.ChunkRef) :
  ∀ i docs next d',
  DataPreparationModule.Fresh d'
    ∈ (DataPreparationModule.stamp_chunks uuid4 i cs docs next).1.1 →
  ∃ d,
    DataPreparationModule.Fresh d ∈ cs
    ∧ (is_Some (metadata d !! "chunk_id") →
       metadata d' !! "chunk_id" = metadata d !! "chunk_id")
    ∧ metadata d' !! "parent_id" = metadata d !! "parent_id".
Proof.
  induction cs as [|c cs IH]; intros i docs next d'.
  - cbn. by intros ?%elem_of_nil.
  - cbn [DataPreparationModule.stamp_chunks]. destruct c as [d|j].
    + unfold DataPreparationModule.stamp at 1.
      destruct (metadata d !! "chunk_id") as [cid|] eqn:Hcid.
      * specialize (IH (S i) docs next d').
        destruct (DataPreparationModule.stamp_chunks uuid4 (S i) cs docs next)
          as [[cs' docs'] next'].
        cbn [fst]. intros [Heq|Hin]%elem_of_cons.
        -- injection Heq as ->. exists d. split; [by left|].
           cbn [metadata]. rewrite !lookup_insert_ne by done. done.
        -- destruct (IH Hin) as (d0 & Hd0 & H). exists d0.
           split; [by right | done].
      * specialize (IH (S i) docs (S next) d').
        destruct (DataPreparationModule.stamp_chunks uuid4 (S i) cs docs
                    (S next)) as [[cs' docs'] next'].
        cbn [fst]. intros [Heq|Hin]%elem_of_cons.
        -- injection Heq as ->. exists d. split; [by left|].
           cbn [metadata]. split; [intros [? ?]; congruence|].
           by rewrite !lookup_insert_ne by done.
        -- destruct (IH Hin) as (d0 & Hd0 & H). exists d0.
           split; [by right | done].
    + destruct (docs !! j) as [d|].
      * destruct (DataPreparationModule.stamp uuid4 i next d) as [dj next1].
        specialize (IH (S i) (<[j:=dj]> docs) next1 d').
        destruct (DataPreparationModule.stamp_chunks uuid4 (S i) cs
                    (<[j:=dj]> docs) next1) as [[cs' docs'] next'].
        cbn [fst]. intros [Heq|Hin]%elem_of_cons; [done|].
        destruct (IH Hin) as (d0 & Hd0 & H). exists d0.
        split; [by right | done].
      * specialize (IH (S i) docs next d').
        destruct (DataPreparationModule.stamp_chunks uuid4 (S i) cs docs next)
          as [[cs' docs'] next'].
        cbn [fst]. intros [Heq|Hin]%elem_of_cons; [done|].
        destruct (IH Hin) as (d0 & Hd0 & H). exists d0.
        split; [by right | done].
Qed.

(** Every fragment that the splitter produced has its identifier in the
    map, with the parent that its own metadata names. *)
Lemma split_fragments_indexed (st : DataPreparationModule.state) (next : nat)
    (st' : DataPreparationModule.state) (next' : nat) (log : list Warning) :
  DataPreparationModule.chunk_documents split_text uuid4 st next
  = inr (st', next', log) →
  ∀ d, DataPreparationModule.Fresh d ∈ DataPreparationModule.chunks st' →
  ∃ c, metadata d !! "chunk_id" = Some (VStr c)
       ∧ is_Some (DataPreparationModule.parent_child_map st' !! c)
       ∧ DataPreparationModule.parent_child_map st' !! c
         = metadata d !! "parent_id".
Proof.
  unfold DataPreparationModule.chunk_documents.
  destruct (DataPreparationModule.documents st) as [|d0 ds] eqn:Hst; [done|].
  rewrite <- Hst.
  pose proof (split_documents_indexed (DataPreparationModule.documents st) 0
                (DataPreparationModule.mkAcc []
                   (DataPreparationModule.parent_child_map st) next [])) as Hidx.
  fold (DataPreparationModule._markdown_header_split split_text uuid4 st next)
    in Hidx.
  set (acc := DataPreparationModule._markdown_header_split split_text uuid4 st
                next) in *.
  assert (acc_indexed uuid4 acc) as Hacc.
  { apply Hidx. intros d. cbn. by intros ?%elem_of_nil. }
  pose proof (stamp_chunks_keeps_ids (DataPreparationModule.all_chunks acc) 0
                (DataPreparationModule.documents st)
                (DataPreparationModule.acc_next acc)) as Hstamp.
  destruct (DataPreparationModule.stamp_chunks uuid4 0
              (DataPreparationModule.all_chunks acc)
              (DataPreparationModule.documents st)
              (DataPreparationModule.acc_next acc)) as [[cs docs'] next1].
  cbn [fst] in Hstamp. intros Heq d Hd. injection Heq as <- <- <-.
  cbn [DataPreparationModule.chunks DataPreparationModule.parent_child_map]
    in *.
  destruct (Hstamp d Hd) as (d1 & Hd1 & Hcid & Hpid).
  destruct (Hacc d1 Hd1) as (k & pid & _ & Hc & Hp & Hm).
  exists (uuid4 k). rewrite Hcid, Hpid, Hc, Hp, Hm by (by rewrite Hc).
  by eauto.
Qed.
End FlatIndex.

Section GuidelineIndex.
Variable split_text : list N → result (list Document).
Variable uuid4 : nat → list N.
Hypothesis uuid4_inj : ∀ i j, uuid4 i = uuid4 j → i = j.

Lemma guideline_link_children_indexed (doc_metadata : gmap string Value)
    (parent_id : Value) (md_chunks : list Document) :
  doc_metadata !! "parent_id" = Some parent_id →
  ∀ i pcm next,
  let r := GuidelineDataPreparationModule.link_children uuid4 doc_metadata
             parent_id i md_chunks pcm next in
  (next ≤ r.1.2)%nat
  ∧ (∀ linked, r.2 = inr linked → Forall (indexed uuid4 r.1.1 r.1.2) linked)
  ∧ (∀ key, (∀ k, (next ≤ k)%nat → key ≠ uuid4 k) → r.1.1 !! key = pcm !! key).
Proof.
  intros Hpid. induction md_chunks as [|chunk rest IH]; intros i pcm next.
  - cbn. split; [lia|]. split; [|done].
    intros linked Heq. injection Heq as <-. constructor.
  - cbn [GuidelineDataPreparationModule.link_children].
    destruct (bind (GuidelineDataPreparationModule.getitem doc_metadata
                      "book_name") _) as [e|full_context].
    + cbn. split; [lia|]. split; [intros ? [=] | done].
    + specialize (IH (S i) (<[uuid4 next:=parent_id]> pcm) (S next)).
      destruct (GuidelineDataPreparationModule.link_children uuid4 doc_metadata
                  parent_id (S i) rest _ _) as [[pcm' next'] rest'].
      cbn [fst snd] in *. destruct IH as (Hle & Hall & Hframe).
      split; [lia|]. split.
      * intros linked Hlinked. destruct rest' as [e|rest']; [done|].
        cbn in Hlinked. injection Hlinked as <-.
        constructor; [|by apply Hall].
        exists next, parent_id. split; [lia|]. cbn [metadata].
        split; [by rewrite !lookup_insert_ne by done; rewrite lookup_insert_eq|].
        split.
        -- rewrite !lookup_insert_ne by done.
           by apply lookup_union_Some_l.
        -- rewrite Hframe; [apply lookup_insert_eq|].
           intros k Hk Heq. apply uuid4_inj in Heq. lia.
      * intros key Hkey. rewrite Hframe.
        -- apply lookup_insert_ne. intros Heq. by apply (Hkey next).
        -- intros k Hk. apply Hkey. lia.
Qed.

Lemma chunk_loop_indexed (docs : list Document) :
  ∀ pcm next,
  let r := GuidelineDataPreparationModule.chunk_loop split_text uuid4 docs pcm
             next in
  (next ≤ r.1.2)%nat
  ∧ (∀ all_chunks, r.2 = inr all_chunks →
       Forall (indexed uuid4 r.1.1 r.1.2) all_chunks)
  ∧ (∀ key, (∀ k, (next ≤ k)%nat → key ≠ uuid4 k) → r.1.1 !! key = pcm !! key).
Proof.
  induction docs as [|doc rest IH]; intros pcm next.
  - cbn. split; [lia|]. split; [|done].
    intros all_chunks Heq. injection Heq as <-. constructor.
  - cbn [GuidelineDataPreparationModule.chunk_loop].
    unfold GuidelineDataPreparationModule.getitem.
    destruct (metadata doc !! "parent_id") as [parent_id|] eqn:Hpid;
      [|cbn; split; [lia|]; split; [intros ? [=] | done]].
    cbn [ret]. destruct (split_text (page_content doc)) as [e|md_chunks];
      [cbn; split; [lia|]; split; [intros ? [=] | done]|].
    pose proof (guideline_link_children_indexed (metadata doc) parent_id
                  md_chunks Hpid 0 pcm next) as Hlink.
    destruct (GuidelineDataPreparationModule.link_children uuid4 (metadata doc)
                parent_id 0 md_chunks pcm next) as [[pcm1 next1] linked].
    cbn [fst snd] in Hlink. destruct Hlink as (Hle1 & Hall1 & Hframe1).
    destruct linked as [e|linked]; [cbn; split; [lia|]; split; [intros ? [=] | done]|].
    specialize (IH pcm1 next1).
    destruct (GuidelineDataPreparationModule.chunk_loop split_text uuid4 rest
                pcm1 next1) as [[pcm' next'] r].
    cbn [fst snd] in *. destruct IH as (Hle & Hall & Hframe).
    split; [lia|]. split.
    + intros all_chunks Heq. destruct r as [e|r]; [done|].
      cbn in Heq. injection Heq as <-. apply Forall_app. split.
      * eapply Forall_impl; [by apply Hall1|].
        intros d Hd. eapply indexed_frame; [done | exact Hle | exact Hframe | done].
      * by apply Hall.
    + intros key Hkey. rewrite Hframe.
      * by apply Hframe1.
      * intros k Hk. apply Hkey. lia.
Qed.

(** In the hierarchical corpus every fragment has its identifier in the
    map, with the parent that its own metadata names. *)
Lemma guideline_fragments_indexed (st : GuidelineDataPreparationModule.state)
    (next : nat) (st' : GuidelineDataPreparationModule.state) (next' : nat)
    (all_chunks : list Document) :
  GuidelineDataPreparationModule.chunk_documents split_text uuid4 st next
  = (st', next', inr all_chunks) →
  GuidelineDataPreparationModule.chunks st' = all_chunks
  ∧ ∀ d, d ∈ all_chunks →
      ∃ c, metadata d !! "chunk_id" = Some (VStr c)
           ∧ is_Some (GuidelineDataPreparationModule.parent_child_map st' !! c)
           ∧ GuidelineDataPreparationModule.parent_child_map st' !! c
             = metadata d !! "parent_id".
Proof.
  unfold GuidelineDataPreparationModule.chunk_documents.
  destruct (GuidelineDataPreparationModule.documents st) as [|d0 ds] eqn:Hst;
    [done|].
  rewrite <- Hst.
  pose proof (chunk_loop_indexed (GuidelineDataPreparationModule.documents st)
                (GuidelineDataPreparationModule.parent_child_map st) next)
    as Hloop.
  destruct (GuidelineDataPreparationModule.chunk_loop split_text uuid4
              (GuidelineDataPreparationModule.documents st)
              (GuidelineDataPreparationModule.parent_child_map st) next)
    as [[pcm next1] r].
  cbn [fst snd] in Hloop. destruct Hloop as (_ & Hall & _).
  destruct r as [e|chunks]; [done|].
  intros Heq. injection Heq as <- <- <-.
  cbn [GuidelineDataPreparationModule.chunks
       GuidelineDataPreparationModule.parent_child_map].
  split; [done|]. intros d Hd.
  specialize (Hall chunks eq_refl). rewrite Forall_forall in Hall.
  destruct (Hall d Hd) as (k & pid & _ & Hc & Hp & Hm).
  exists (uuid4 k). rewrite Hc, Hp, Hm. by eauto.
Qed.
End GuidelineIndex.

(** * Further properties of the code *)

(** ** Classification by path *)

Lemma find_category_first (mapping : list (list N * list N))
    (path_parts : list (list N)) :
  (∀ pre key value post,
     mapping = pre ++ (key, value) :: post →
     key ∈ path_parts →
     (∀ k v, (k, v) ∈ pre → k ∉ path_parts) →
     DataPreparationModule.find_category mapping path_parts = Some value)
  ∧ ((∀ k v, (k, v) ∈ mapping → k ∉ path_parts) →
     DataPreparationModule.find_category mapping path_parts = None).
Proof.
  split.
  - intros pre key value post -> Hkey Hpre.
    induction pre as [|[k v] pre IH]; simpl.
    + by rewrite bool_decide_eq_true_2.
    + rewrite bool_decide_eq_false_2 by (apply (Hpre k v); by left).
      apply IH. intros k' v' Hin. apply (Hpre k' v'). by right.
  - induction mapping as [|[k v] mapping IH]; intros Hnone; simpl; [done|].
    rewrite bool_decide_eq_false_2 by (apply (Hnone k v); by left).
    apply IH. intros k' v' Hin. apply (Hnone k' v'). by right.
Qed.

(** X1. The category that [_enhance_metadata] gives to a document is the
    label of the first entry of the keyword table, in the order of the
    table, whose keyword is one of the folders above the file; a document
    under no such folder gets the category "其他". The text and the other
    metadata are left as they are. *)
Theorem enhance_metadata_first_match (doc : Document) (s : list N) :
  metadata doc !! "source" = Some (VStr s) →
  let path_parts := Path.parts (Path.parent (Path.of_str s)) in
  ∃ doc',
    DataPreparationModule._enhance_metadata doc = inr doc'
    ∧ page_content doc' = page_content doc
    ∧ (∀ pre key value post,
         DataPreparationModule.CATEGORY_MAPPING = pre ++ (key, value) :: post →
         key ∈ path_parts →
         (∀ k v, (k, v) ∈ pre → k ∉ path_parts) →
         metadata doc' !! "category" = Some (VStr value))
    ∧ ((∀ k v, (k, v) ∈ DataPreparationModule.CATEGORY_MAPPING →
               k ∉ path_parts) →
       metadata doc' !! "category" = Some (VStr (py "其他")))
    ∧ (∀ key, key ≠ "category" → key ≠ "case_report_id" →
         metadata doc' !! key = metadata doc !! key).
Proof.
  intros Hsrc path_parts.
  unfold DataPreparationModule._enhance_metadata,
    DataPreparationModule.source_path.
  rewrite Hsrc. cbn [bind ret]. fold path_parts.
  eexists. split; [reflexivity|]. cbn [page_content metadata].
  destruct (find_category_first DataPreparationModule.CATEGORY_MAPPING
              path_parts) as [Hfirst Hnone].
  split; [done|]. split; [|split].
  - intros pre key value post Hmap Hkey Hpre.
    rewrite lookup_insert_ne by done. rewrite lookup_insert_eq.
    by rewrite (Hfirst pre key value post).
  - intros Hno. rewrite lookup_insert_ne by done. rewrite lookup_insert_eq.
    by rewrite Hnone.
  - intros key Hc Hr. by rewrite !lookup_insert_ne.
Qed.

Lemma enhance_metadata_first_match_witness :
  ∃ doc',
    DataPreparationModule._enhance_metadata report_two_categories = inr doc'
    ∧ metadata doc' !! "category" = Some (VStr (py "骨折"))
    ∧ metadata doc' !! "case_report_id" = Some (VStr (py "case"))
    ∧ ∃ doc'',
        DataPreparationModule._enhance_metadata report_no_category = inr doc''
        ∧ metadata doc'' !! "category" = Some (VStr (py "其他")).
Proof.
  destruct (enhance_metadata_first_match report_two_categories
              (py "/data/infection/fracture/case.7/pubmed_pdf.md") eq_refl)
    as (doc' & Hrun & _ & Hfirst & _).
  exists doc'. split; [exact Hrun|]. split.
  { apply (Hfirst [] (py "fracture") (py "骨折")
             (tail DataPreparationModule.CATEGORY_MAPPING)).
    - reflexivity.
    - apply (bool_decide_unpack _). by vm_compute.
    - intros k v Hin. by apply elem_of_nil in Hin. }
  split.
  { vm_compute in Hrun. injection Hrun as <-. by vm_compute. }
  destruct (enhance_metadata_first_match report_no_category
              (py "notes/pubmed_pdf.md") eq_refl)
    as (doc'' & Hrun' & _ & _ & Hnone & _).
  exists doc''. split; [exact Hrun'|]. apply Hnone.
  intros k v Hin Hk. revert Hin.
  unfold DataPreparationModule.CATEGORY_MAPPING.
  rewrite !elem_of_cons, elem_of_nil.
  intros [Heq|[Heq|[Heq|[Heq|[Heq|[Heq|[]]]]]]]; injection Heq as -> _;
    apply (bool_decide_pack _) in Hk; by vm_compute in Hk.
Defined.

(** ** Statistics and category browsing *)

Lemma count_parent_sum (p : Value) (rel : list (Value * nat)) :
  sum_list (DataPreparationModule.count_parent p rel).*2
  = S (sum_list rel.*2).
Proof.
  induction rel as [|[k n] rel IH]; [done|].
  cbn [DataPreparationModule.count_parent].
  destruct (decide (k = p)); rewrite !fmap_cons; cbn [snd sum_list].
  - done.
  - rewrite IH. lia.
Qed.

Lemma count_parent_NoDup (p : Value) (rel : list (Value * nat)) :
  NoDup rel.*1 → NoDup (DataPreparationModule.count_parent p rel).*1.
Proof.
  intros Hnd. rewrite count_parent_keys.
  destruct (decide (p ∈ rel.*1)); [done|].
  apply NoDup_app. split; [done|]. split.
  - intros x Hx ->%list_elem_of_singleton. done.
  - apply NoDup_singleton.
Qed.

Lemma count_categories_spec (docs : list Document) :
  ∀ categories,
  let out := DataPreparationModule.count_categories docs categories in
  sum_list out.*2 = (sum_list categories.*2 + length docs)%nat
  ∧ (NoDup categories.*1 → NoDup out.*1)
  ∧ ∀ c, assoc_count out c
         = (assoc_count categories c
            + length (filter (fun d => counted_category d = c) docs))%nat.
Proof.
  induction docs as [|doc rest IH]; intros categories.
  - cbn. split; [lia|]. split; [done|]. intros c. lia.
  - cbn [DataPreparationModule.count_categories].
    fold (counted_category doc).
    destruct (IH (DataPreparationModule.count_parent (counted_category doc)
                    categories)) as (Hsum & Hnd & Hcount).
    cbv zeta. split; [|split].
    + rewrite Hsum, count_parent_sum. simpl. lia.
    + intros H. apply Hnd. by apply count_parent_NoDup.
    + intros c. rewrite Hcount, assoc_count_count_parent, filter_cons.
      destruct (decide (counted_category doc = c)); simpl; lia.
Qed.

(** X2. The category counts of [get_statistics] add up to the number of
    documents; every category is listed once, with the number of
    documents that have it, a document without category counting as
    "未知". A module without documents gets the empty dict. *)
Theorem statistics_count_every_document (st : DataPreparationModule.state) :
  (DataPreparationModule.documents st = [] →
   DataPreparationModule.get_statistics st = None)
  ∧ (DataPreparationModule.documents st ≠ [] →
     ∃ stats,
       DataPreparationModule.get_statistics st = Some stats
       ∧ DataPreparationModule.total_documents stats
         = length (DataPreparationModule.documents st)
       ∧ sum_list (DataPreparationModule.categories stats).*2
         = DataPreparationModule.total_documents stats
       ∧ NoDup (DataPreparationModule.categories stats).*1
       ∧ ∀ c, assoc_count (DataPreparationModule.categories stats) c
              = length (filter (fun d => counted_category d = c)
                          (DataPreparationModule.documents st))).
Proof.
  unfold DataPreparationModule.get_statistics. split.
  - by intros ->.
  - intros Hne.
    destruct (DataPreparationModule.documents st) as [|d ds] eqn:Hdocs;
      [done|].
    rewrite <- Hdocs.
    destruct (count_categories_spec (DataPreparationModule.documents st) [])
      as (Hsum & Hnd & Hcount).
    eexists. split; [reflexivity|].
    cbn [DataPreparationModule.total_documents
         DataPreparationModule.categories].
    split; [done|]. split; [by rewrite Hsum|]. split.
    + apply Hnd. constructor.
    + intros c. by rewrite Hcount.
Qed.

Lemma statistics_count_every_document_witness :
  ∃ stats,
    DataPreparationModule.get_statistics sample_library = Some stats
    ∧ DataPreparationModule.total_documents stats = 4%nat
    ∧ sum_list (DataPreparationModule.categories stats).*2 = 4%nat
    ∧ assoc_count (DataPreparationModule.categories stats) (VStr (py "骨折"))
      = 2%nat
    ∧ assoc_count (DataPreparationModule.categories stats) (VStr (py "未知"))
      = 1%nat.
Proof.
  destruct (proj2 (statistics_count_every_document sample_library)
              ltac:(discriminate))
    as (stats & Hrun & Htotal & Hsum & _ & Hcount).
  exists stats. split; [exact Hrun|]. split; [exact Htotal|].
  split; [by rewrite Hsum, Htotal|].
  split; rewrite Hcount; by vm_compute.
Defined.

Lemma filter_length_counted (docs : list Document) (category : list N) :
  category ≠ DataPreparationModule.category_unknown →
  length (DataPreparationModule.filter_documents_by_category docs category)
  = length (filter (fun d => counted_category d = VStr category) docs).
Proof.
  intros Hne. unfold DataPreparationModule.filter_documents_by_category.
  induction docs as [|d docs IH]; [done|].
  cbn [List.filter].
  assert (counted_category d = VStr category
          ↔ metadata d !! "category" = Some (VStr category)) as Hiff.
  { unfold counted_category.
    destruct (metadata d !! "category") as [v|]; simpl.
    - split; intros H; [by rewrite H | by injection H as ->].
    - split; intros H; [|done]. exfalso. apply Hne.
      symmetry. by injection H. }
  rewrite filter_cons.
  destruct (decide (counted_category d = VStr category)) as [Hc|Hc].
  - rewrite bool_decide_eq_true_2 by by apply Hiff. simpl. by rewrite IH.
  - rewrite bool_decide_eq_false_2 by (by rewrite <- Hiff). done.
Qed.

Lemma filter_by_category_sublist (docs : list Document) (category : list N) :
  sublist (DataPreparationModule.filter_documents_by_category docs category)
    docs.
Proof.
  unfold DataPreparationModule.filter_documents_by_category.
  induction docs as [|d ds IH]; [done|].
  cbn [List.filter]. destruct (bool_decide _).
  - by apply sublist_skip.
  - by apply sublist_cons.
Qed.

(** X3. Browsing by category agrees with the statistics: for a category
    other than "未知", [filter_documents_by_category] returns as many
    documents as [get_statistics] counts for it; they are documents of
    the module, in their order, each with that category. (Under "未知"
    the statistics count the documents without category, which the
    filter does not return.) *)
Theorem filter_agrees_with_statistics (st : DataPreparationModule.state)
    (stats : DataPreparationModule.Statistics) (category : list N) :
  DataPreparationModule.get_statistics st = Some stats →
  category ≠ DataPreparationModule.category_unknown →
  let found :=
    DataPreparationModule.filter_documents_by_category
      (DataPreparationModule.documents st) category in
  length found
  = assoc_count (DataPreparationModule.categories stats) (VStr category)
  ∧ sublist found (DataPreparationModule.documents st)
  ∧ ∀ d, d ∈ found ↔
      d ∈ DataPreparationModule.documents st
      ∧ metadata d !! "category" = Some (VStr category).
Proof.
  intros Hstats Hne found.
  assert (DataPreparationModule.documents st ≠ []) as Hdocs.
  { intros H. unfold DataPreparationModule.get_statistics in Hstats.
    by rewrite H in Hstats. }
  destruct (proj2 (statistics_count_every_document st) Hdocs)
    as (stats' & Hrun & _ & _ & _ & Hcount).
  rewrite Hstats in Hrun. injection Hrun as <-.
  split; [|split].
  - rewrite Hcount. by apply filter_length_counted.
  - apply filter_by_category_sublist.
  - intros d. unfold found, DataPreparationModule.filter_documents_by_category.
    rewrite list_elem_of_In, filter_In, <- list_elem_of_In.
    by rewrite bool_decide_eq_true.
Qed.

Lemma filter_agrees_with_statistics_witness :
  ∃ stats,
    DataPreparationModule.get_statistics sample_library = Some stats
    ∧ length (DataPreparationModule.filter_documents_by_category
                (DataPreparationModule.documents sample_library) (py "骨折"))
      = assoc_count (DataPreparationModule.categories stats)
          (VStr (py "骨折")).
Proof.
  eexists. split; [reflexivity|].
  apply (filter_agrees_with_statistics sample_library _ (py "骨折")).
  - reflexivity.
  - by vm_compute.
Defined.

(** ** Trimming and the query rewriter *)

Lemma lstrip_spec (s : list N) :
  ∃ a, s = a ++ lstrip s
       ∧ Forall (fun c => is_space c = true) a
       ∧ ∀ c r, lstrip s = c :: r → is_space c = false.
Proof.
  induction s as [|c s (a & Hs & Ha & Hhead)]; simpl.
  - exists []. split; [done|]. split; [constructor | done].
  - destruct (is_space c) eqn:Hc.
    + exists (c :: a). split; [by rewrite <- app_comm_cons, <- Hs|].
      split; [by constructor | done].
    + exists []. split; [done|]. split; [constructor|].
      intros c' r [= <- _]. done.
Qed.

Lemma strip_spec (s : list N) :
  ∃ a b, s = a ++ strip s ++ b
         ∧ Forall (fun c => is_space c = true) a
         ∧ Forall (fun c => is_space c = true) b
         ∧ trimmed (strip s).
Proof.
  unfold strip, rstrip.
  destruct (lstrip_spec s) as (a & Hs & Ha & Hhead).
  destruct (lstrip_spec (rev (lstrip s))) as (b & Hr & Hb & Hlast).
  set (core := lstrip (rev (lstrip s))) in *.
  assert (lstrip s = rev core ++ rev b) as Hl.
  { rewrite <- (rev_involutive (lstrip s)), Hr. by rewrite rev_app_distr. }
  exists a, (rev b). split; [by rewrite <- Hl|]. split; [done|].
  split; [by apply Forall_rev|]. split.
  - intros c r Hc. apply (Hhead c (r ++ rev b)). by rewrite Hl, Hc.
  - intros r c Hc. apply (Hlast c (rev r)).
    by rewrite <- (rev_involutive core), Hc, rev_unit.
Qed.

(** X4. The query rewriter answers with the backend's text without the
    white space around it: the text returned neither starts nor ends with
    white space, trimming it again changes nothing, and what was cut off
    at both ends is white space only. A failure of the backend is passed
    on unchanged. *)
Theorem query_rewrite_trims
    (llm : Prompt → list N → result (list N)) (query : list N) :
  (∀ raw, llm RewritePrompt query = inr raw →
     ∃ rewritten a b,
       GenerationIntegrationModule.query_rewrite llm query = inr rewritten
       ∧ raw = a ++ rewritten ++ b
       ∧ Forall (fun c => is_space c = true) a
       ∧ Forall (fun c => is_space c = true) b
       ∧ trimmed rewritten
       ∧ strip rewritten = rewritten)
  ∧ (∀ e, llm RewritePrompt query = inl e →
       GenerationIntegrationModule.query_rewrite llm query = inl e).
Proof.
  unfold GenerationIntegrationModule.query_rewrite. split.
  - intros raw ->. cbn [bind ret].
    destruct (strip_spec raw) as (a & b & Hraw & Ha & Hb & Htrim).
    exists (strip raw), a, b. split; [done|]. split; [done|].
    split; [done|]. split; [done|]. split; [done|]. by apply strip_trimmed.
  - by intros e ->.
Qed.

Lemma query_rewrite_trims_witness :
  ∃ rewritten a b,
    GenerationIntegrationModule.query_rewrite
      (RecipeRAGSystem.llm fixed_generation) question_fracture = inr rewritten
    ∧ py "骨折的治疗方案" = a ++ rewritten ++ b
    ∧ Forall (fun c => is_space c = true) a
    ∧ Forall (fun c => is_space c = true) b
    ∧ trimmed rewritten
    ∧ strip rewritten = rewritten.
Proof.
  exact (proj1 (query_rewrite_trims (RecipeRAGSystem.llm fixed_generation)
                  question_fracture) (py "骨折的治疗方案") eq_refl).
Defined.

(** ** Lists of names *)

Lemma collect_names_first_occurrences (docs : list Document) :
  ∀ seen,
  GenerationIntegrationModule.collect_names docs seen
  = seen ++ first_occurrences (fun _ => true) seen
              (GenerationIntegrationModule.dish_name_of <$> docs).
Proof.
  induction docs as [|doc rest IH]; intros seen.
  - simpl. by rewrite app_nil_r.
  - cbn [GenerationIntegrationModule.collect_names].
    rewrite fmap_cons. cbn [first_occurrences andb].
    case_bool_decide as Hin; cbn [negb].
    + apply IH.
    + rewrite IH, <- app_assoc. cbn [app]. do 2 f_equal.
      apply first_occurrences_ext. intros x.
      rewrite elem_of_app, list_elem_of_singleton, elem_of_cons. tauto.
Qed.

Lemma first_occurrences_app_dup (names : list Value) (x : Value) :
  ∀ seen, x ∈ seen ++ names →
  first_occurrences (fun _ => true) seen (names ++ [x])
  = first_occurrences (fun _ => true) seen names.
Proof.
  induction names as [|n names IH]; intros seen Hx.
  - rewrite app_nil_r in Hx. cbn. by rewrite bool_decide_eq_true_2.
  - cbn [app first_occurrences andb].
    rewrite elem_of_app, elem_of_cons in Hx.
    case_bool_decide as Hn; cbn [negb].
    + apply IH. rewrite elem_of_app. destruct Hx as [?|[->|?]]; tauto.
    + f_equal. apply IH. rewrite elem_of_app, elem_of_cons. tauto.
Qed.

Lemma collect_names_distinct (docs : list Document) :
  NoDup (GenerationIntegrationModule.collect_names docs [])
  ∧ ∀ name, name ∈ GenerationIntegrationModule.collect_names docs [] ↔
      ∃ d, d ∈ docs ∧ GenerationIntegrationModule.dish_name_of d = name.
Proof.
  rewrite collect_names_first_occurrences. cbn [app]. split.
  - apply first_occurrences_NoDup.
  - intros name.
    rewrite elem_of_first_occurrences, list_elem_of_fmap, elem_of_nil.
    split.
    + intros ((d & -> & Hd) & _). by exists d.
    + intros (d & Hd & <-). split; [by exists d | tauto].
Qed.

Lemma numbered_lines (names : list Value) :
  ∀ start,
  GenerationIntegrationModule.numbered start names
  = imap (fun i name =>
            str_of_N (start + N.of_nat (S i)) ++ py ". " ++ format_value name)
      names.
Proof.
  induction names as [|name rest IH]; intros start; [done|].
  cbn [GenerationIntegrationModule.numbered]. rewrite imap_cons. f_equal.
  rewrite IH. apply imap_ext. intros i x _. cbn [compose].
  do 2 f_equal. lia.
Qed.

(** X5. The list answer shows the case reports of the retrieved
    documents, each once, in the order in which the documents first show
    them, but no more than three of them: one name alone follows the
    recommendation on the same line; two or three names are listed on
    numbered lines; of more than three names the first three are listed
    and the number of the others is told. The answer depends on the
    documents only through these names, and not on the question. Without
    documents the answer is the fixed apology. *)
Theorem list_answer_shows_first_three_names (query query' : list N)
    (docs docs' : list Document) :
  let names_of := fun ds : list Document =>
    first_occurrences (fun _ => true) []
      (GenerationIntegrationModule.dish_name_of <$> ds) in
  let names := names_of docs in
  let line := fun (i : nat) (name : Value) =>
    str_of_N (N.of_nat (S i)) ++ py ". " ++ format_value name in
  let answer :=
    GenerationIntegrationModule.generate_list_answer query docs in
  NoDup names
  ∧ (∀ name, name ∈ names ↔
       ∃ d, d ∈ docs ∧ GenerationIntegrationModule.dish_name_of d = name)
  ∧ (docs = [] → answer = py "抱歉，没有找到相关的菜品信息。")
  ∧ (∀ name, names = [name] → answer = py "为您推荐：" ++ format_value name)
  ∧ ((2 ≤ length names ≤ 3)%nat →
     answer = py "为您推荐以下治疗方案：
" ++ join [LF] (imap line names))
  ∧ ((3 < length names)%nat →
     answer = py "为您推荐以下治疗方案：
" ++ join [LF] (imap line (take 3 names)) ++ py "

还有其他 " ++ str_of_Z (Z.of_nat (length names) - 3) ++ py " 道菜品可供选择。")
  ∧ (docs ≠ [] → docs' ≠ [] → names_of docs' = names →
     GenerationIntegrationModule.generate_list_answer query' docs' = answer).
Proof.
  intros names_of names line answer.
  assert (∀ q ds, ds ≠ [] →
            GenerationIntegrationModule.generate_list_answer q ds
            = match names_of ds with
              | [name] =>
                  GenerationIntegrationModule.recommend_one
                  ++ format_value name
              | ns =>
                  if (length ns <=? 3)%nat
                  then GenerationIntegrationModule.recommend_some
                       ++ join [LF] (imap line ns)
                  else GenerationIntegrationModule.recommend_some
                       ++ join [LF] (imap line (take 3 ns))
                       ++ GenerationIntegrationModule.others_open
                       ++ str_of_Z (Z.of_nat (length ns) - 3)
                       ++ GenerationIntegrationModule.others_close
              end) as Hanswer.
  { intros q ds Hne.
    unfold GenerationIntegrationModule.generate_list_answer.
    destruct ds as [|d0 ds]; [done|].
    rewrite collect_names_first_occurrences. cbn [app]. fold (names_of (d0 :: ds)).
    rewrite !numbered_lines. by destruct (names_of (d0 :: ds)) as [|n [|n' ns]]. }
  assert (docs = [] → names = []) as Hempty by (by intros ->).
  split; [apply first_occurrences_NoDup|]. split.
  { intros name. subst names names_of. cbv beta.
    rewrite elem_of_first_occurrences, list_elem_of_fmap, elem_of_nil.
    split.
    - intros ((d & -> & Hd) & _). by exists d.
    - intros (d & Hd & <-). split; [by exists d | tauto]. }
  split; [by intros ->|]. split.
  { intros name Hnames. subst answer. rewrite Hanswer.
    - fold names. by rewrite Hnames.
    - intros Hdocs. apply Hempty in Hdocs. congruence. }
  split.
  { intros Hlen. subst answer. rewrite Hanswer.
    - fold names. destruct names as [|n [|n' ns]]; cbn in Hlen; try lia.
      cbv beta iota zeta.
      rewrite (proj2 (Nat.leb_le _ _)) by (cbn; lia). done.
    - intros Hdocs. apply Hempty in Hdocs. rewrite Hdocs in Hlen.
      cbn in Hlen. lia. }
  split.
  { intros Hlen. subst answer. rewrite Hanswer.
    - fold names. destruct names as [|n [|n' ns]]; cbn in Hlen; try lia.
      cbv beta iota zeta.
      rewrite (proj2 (Nat.leb_gt _ _)) by (cbn; lia). done.
    - intros Hdocs. apply Hempty in Hdocs. rewrite Hdocs in Hlen.
      cbn in Hlen. lia. }
  intros Hne Hne' Hsame. subst answer.
  rewrite (Hanswer query' docs' Hne'), (Hanswer query docs Hne).
  fold names. by rewrite Hsame.
Qed.

Lemma list_answer_shows_first_three_names_witness :
  GenerationIntegrationModule.generate_list_answer question_fracture
    five_reports
  = py "为您推荐以下治疗方案：
1. L1
2. L2
3. L3

还有其他 2 道菜品可供选择。".
Proof.
  destruct (list_answer_shows_first_three_names question_fracture
              question_fracture five_reports five_reports)
    as (_ & _ & _ & _ & _ & Hmore & _).
  rewrite Hmore; [by vm_compute|]. vm_compute. lia.
Defined.

(** ** Answering a question: what is used and what is not *)

(** X6. The answer to a question does not depend on the retrieval module
    of the guidelines, which only has to be there; and when the router
    answers [list], it does not depend on what the backend does with the
    rewrite prompt: the rewriter is not consulted. *)
Theorem ask_question_unused_collaborators (self : RecipeRAGSystem.system)
    (question : list N) (stream : bool) :
  (∀ g1 g2,
     RecipeRAGSystem.ask_question (with_guideline self (Some g1)) question
       stream
     = RecipeRAGSystem.ask_question (with_guideline self (Some g2)) question
         stream)
  ∧ (∀ generation generation',
       (∀ p q, p ≠ RewritePrompt →
          RecipeRAGSystem.llm generation p q
          = RecipeRAGSystem.llm generation' p q) →
       GenerationIntegrationModule.query_router
         (RecipeRAGSystem.llm generation) question
       = inr GenerationIntegrationModule.label_list →
       RecipeRAGSystem.ask_question (with_generation self (Some generation))
         question stream
       = RecipeRAGSystem.ask_question
           (with_generation self (Some generation')) question stream).
Proof.
  split.
  - intros g1 g2. unfold RecipeRAGSystem.ask_question, with_guideline.
    cbn [RecipeRAGSystem.case_report_retrieval_module
         RecipeRAGSystem.generation_module
         RecipeRAGSystem.guideline_retrieval_module
         RecipeRAGSystem.CATEGORY_LABELS RecipeRAGSystem.top_k
         RecipeRAGSystem.case_report_data_module].
    done.
  - intros generation generation' Hsame Hroute.
    assert (GenerationIntegrationModule.query_router
              (RecipeRAGSystem.llm generation') question
            = inr GenerationIntegrationModule.label_list) as Hroute'.
    { unfold GenerationIntegrationModule.query_router in *.
      by rewrite <- Hsame. }
    unfold RecipeRAGSystem.ask_question, with_generation.
    cbn [RecipeRAGSystem.case_report_retrieval_module
         RecipeRAGSystem.generation_module
         RecipeRAGSystem.guideline_retrieval_module
         RecipeRAGSystem.CATEGORY_LABELS RecipeRAGSystem.top_k
         RecipeRAGSystem.case_report_data_module].
    destruct (RecipeRAGSystem.case_report_retrieval_module self)
      as [retrieval|]; [|done].
    destruct (RecipeRAGSystem.guideline_retrieval_module self); [|done].
    rewrite Hroute, Hroute'. cbn [bind].
    rewrite bool_decide_eq_true_2 by done. cbn [bind ret].
    destruct (if bool_decide _ then _ else _) as [e|chunks]; [done|].
    cbn [bind]. destruct chunks as [|c cs]; [done|].
    destruct (RecipeRAGSystem.case_report_data_module self); [|done].
    destruct stream; [done|].
    unfold GenerationIntegrationModule.generate_step_by_step_answer,
      GenerationIntegrationModule.generate_basic_answer.
    by rewrite !Hsame by done.
Qed.

Lemma ask_question_unused_collaborators_witness :
  RecipeRAGSystem.ask_question
    (with_generation (sample_system fixed_generation)
       (Some (list_router (inl TypeError)))) question_fracture false
  = RecipeRAGSystem.ask_question
      (with_generation (sample_system fixed_generation)
         (Some (list_router (inr (py "rewritten"))))) question_fracture false.
Proof.
  apply (proj2 (ask_question_unused_collaborators
                  (sample_system fixed_generation) question_fracture false)).
  - intros [] q Hp; done.
  - reflexivity.
Defined.

(** X7. The rewritten query reaches the retrieval only: the generation
    gets the question as it was asked. Two backends that differ only in
    how they rewrite the question give the same answer whenever the
    retrieval finds the same for both rewritings. In streaming mode
    [ask_question] does not consult the answer templates of the backend:
    backends that route and rewrite alike give the same generator. *)
Theorem ask_question_rewrite_reaches_retrieval_only
    (self : RecipeRAGSystem.system) (question : list N) (stream : bool)
    (generation generation' : RecipeRAGSystem.GenerationModule) :
  (∀ retrieval rewritten rewritten',
     RecipeRAGSystem.case_report_retrieval_module self = Some retrieval →
     (∀ p q, p ≠ RewritePrompt →
        RecipeRAGSystem.llm generation p q
        = RecipeRAGSystem.llm generation' p q) →
     GenerationIntegrationModule.query_rewrite
       (RecipeRAGSystem.llm generation) question = inr rewritten →
     GenerationIntegrationModule.query_rewrite
       (RecipeRAGSystem.llm generation') question = inr rewritten' →
     RecipeRAGSystem.hybrid_search retrieval rewritten
       (RecipeRAGSystem.top_k self)
     = RecipeRAGSystem.hybrid_search retrieval rewritten'
         (RecipeRAGSystem.top_k self) →
     (∀ filters,
        RecipeRAGSystem.metadata_filtered_search retrieval rewritten filters
          (RecipeRAGSystem.top_k self)
        = RecipeRAGSystem.metadata_filtered_search retrieval rewritten'
            filters (RecipeRAGSystem.top_k self)) →
     RecipeRAGSystem.ask_question (with_generation self (Some generation))
       question stream
     = RecipeRAGSystem.ask_question (with_generation self (Some generation'))
         question stream)
  ∧ ((∀ q, RecipeRAGSystem.llm generation RouterPrompt q
           = RecipeRAGSystem.llm generation' RouterPrompt q) →
     (∀ q, RecipeRAGSystem.llm generation RewritePrompt q
           = RecipeRAGSystem.llm generation' RewritePrompt q) →
     RecipeRAGSystem.ask_question (with_generation self (Some generation))
       question true
     = RecipeRAGSystem.ask_question (with_generation self (Some generation'))
         question true).
Proof.
  split.
  - intros retrieval rewritten rewritten' Hretrieval Hsame Hr Hr' Hhybrid
      Hfiltered.
    unfold RecipeRAGSystem.ask_question, with_generation.
    cbn [RecipeRAGSystem.case_report_retrieval_module
         RecipeRAGSystem.generation_module
         RecipeRAGSystem.guideline_retrieval_module
         RecipeRAGSystem.CATEGORY_LABELS RecipeRAGSystem.top_k
         RecipeRAGSystem.case_report_data_module].
    rewrite Hretrieval.
    destruct (RecipeRAGSystem.guideline_retrieval_module self); [|done].
    assert (GenerationIntegrationModule.query_router
              (RecipeRAGSystem.llm generation') question
            = GenerationIntegrationModule.query_router
                (RecipeRAGSystem.llm generation) question) as ->.
    { unfold GenerationIntegrationModule.query_router.
      by rewrite Hsame. }
    destruct (GenerationIntegrationModule.query_router
                (RecipeRAGSystem.llm generation) question) as [e|route];
      [done|].
    cbn [bind]. rewrite Hr, Hr'.
    assert ((let* chunks :=
               (let* q :=
                  if bool_decide
                       (route = GenerationIntegrationModule.label_list)
                  then ret question else inr rewritten in
                if bool_decide
                     (RecipeRAGSystem._extract_filters_from_query
                        (RecipeRAGSystem.CATEGORY_LABELS self) question = ∅)
                then RecipeRAGSystem.hybrid_search retrieval q
                       (RecipeRAGSystem.top_k self)
                else RecipeRAGSystem.metadata_filtered_search retrieval q
                       (RecipeRAGSystem._extract_filters_from_query
                          (RecipeRAGSystem.CATEGORY_LABELS self) question)
                       (RecipeRAGSystem.top_k self)) in
             ret chunks)
            = (let* chunks :=
                 (let* q :=
                    if bool_decide
                         (route = GenerationIntegrationModule.label_list)
                    then ret question else inr rewritten' in
                  if bool_decide
                       (RecipeRAGSystem._extract_filters_from_query
                          (RecipeRAGSystem.CATEGORY_LABELS self) question = ∅)
                  then RecipeRAGSystem.hybrid_search retrieval q
                         (RecipeRAGSystem.top_k self)
                  else RecipeRAGSystem.metadata_filtered_search retrieval q
                         (RecipeRAGSystem._extract_filters_from_query
                            (RecipeRAGSystem.CATEGORY_LABELS self) question)
                         (RecipeRAGSystem.top_k self)) in
               ret chunks)) as Hchunks.
    { destruct (bool_decide (route = GenerationIntegrationModule.label_list));
        [done|]. cbn [bind ret].
      destruct (bool_decide _); by rewrite ?Hhybrid, ?Hfiltered. }
    destruct (bool_decide (route = GenerationIntegrationModule.label_list));
      cbn [bind ret] in Hchunks |- *.
    + destruct (if bool_decide _ then _ else _) as [e|chunks]; [done|].
      cbn [bind]. destruct chunks as [|c cs]; [done|].
      destruct (RecipeRAGSystem.case_report_data_module self); [|done].
      destruct stream; [done|].
      unfold GenerationIntegrationModule.generate_step_by_step_answer,
        GenerationIntegrationModule.generate_basic_answer.
      by rewrite !Hsame by done.
    + destruct (bool_decide
                  (RecipeRAGSystem._extract_filters_from_query
                     (RecipeRAGSystem.CATEGORY_LABELS self) question = ∅)).
      * rewrite <- Hhybrid.
        destruct (RecipeRAGSystem.hybrid_search retrieval rewritten
                    (RecipeRAGSystem.top_k self)) as [e|chunks]; [done|].
        cbn [bind]. destruct chunks as [|c cs]; [done|].
        destruct (RecipeRAGSystem.case_report_data_module self); [|done].
        destruct stream; [done|].
        unfold GenerationIntegrationModule.generate_step_by_step_answer,
          GenerationIntegrationModule.generate_basic_answer.
        by rewrite !Hsame by done.
      * rewrite <- Hfiltered.
        destruct (RecipeRAGSystem.metadata_filtered_search retrieval
                    rewritten _ (RecipeRAGSystem.top_k self))
          as [e|chunks]; [done|].
        cbn [bind]. destruct chunks as [|c cs]; [done|].
        destruct (RecipeRAGSystem.case_report_data_module self); [|done].
        destruct stream; [done|].
        unfold GenerationIntegrationModule.generate_step_by_step_answer,
          GenerationIntegrationModule.generate_basic_answer.
        by rewrite !Hsame by done.
  - intros Hroute Hrewrite.
    unfold RecipeRAGSystem.ask_question, with_generation.
    cbn [RecipeRAGSystem.case_report_retrieval_module
         RecipeRAGSystem.generation_module
         RecipeRAGSystem.guideline_retrieval_module
         RecipeRAGSystem.CATEGORY_LABELS RecipeRAGSystem.top_k
         RecipeRAGSystem.case_report_data_module].
    unfold GenerationIntegrationModule.query_router,
      GenerationIntegrationModule.query_rewrite.
    by rewrite Hroute, Hrewrite.
Qed.

Lemma ask_question_rewrite_reaches_retrieval_only_witness :
  RecipeRAGSystem.ask_question
    (with_generation (sample_system fixed_generation)
       (Some (general_rewriter (py "骨折")))) question_fracture false
  = RecipeRAGSystem.ask_question
      (with_generation (sample_system fixed_generation)
         (Some (general_rewriter (py "腰椎 骨折 治疗")))) question_fracture
      false.
Proof.
  apply (proj1 (ask_question_rewrite_reaches_retrieval_only
                  (sample_system fixed_generation) question_fracture false
                  (general_rewriter (py "骨折"))
                  (general_rewriter (py "腰椎 骨折 治疗")))
           sample_retrieval (py "骨折") (py "腰椎 骨折 治疗")).
  - reflexivity.
  - intros [] q Hp; done.
  - by vm_compute.
  - by vm_compute.
  - reflexivity.
  - reflexivity.
Defined.

Example generation_gets_the_question_as_asked :
  RecipeRAGSystem.ask_question
    (with_generation (sample_system fixed_generation)
       (Some (general_rewriter (py "骨折")))) question_fracture false
  = inr (RecipeRAGSystem.Text question_fracture).
Proof. by vm_compute. Qed.

(** ** Browsing and single look-ups *)

(** X8. [search_by_category] raises the error that asks to build the
    knowledge base when the retrieval module is absent. Otherwise it
    searches with the category as the only filter and ten results, using
    the category itself as the query when none is given, and answers
    with the names of the case reports found, each once. *)
Theorem search_by_category_names (self : RecipeRAGSystem.system)
    (category query : list N) :
  (RecipeRAGSystem.case_report_retrieval_module self = None →
   RecipeRAGSystem.search_by_category self category query
   = inl (ValueError RecipeRAGSystem.build_first))
  ∧ ∀ retrieval docs,
      RecipeRAGSystem.case_report_retrieval_module self = Some retrieval →
      RecipeRAGSystem.metadata_filtered_search retrieval
        (if bool_decide (query = []) then category else query)
        (<["category" := VStr category]> ∅) 10 = inr docs →
      ∃ names,
        RecipeRAGSystem.search_by_category self category query = inr names
        ∧ NoDup names
        ∧ ∀ name, name ∈ names ↔
            ∃ d, d ∈ docs
                 ∧ GenerationIntegrationModule.dish_name_of d = name.
Proof.
  unfold RecipeRAGSystem.search_by_category. split.
  - by intros ->.
  - intros retrieval docs -> Hsearch.
    assert (match query with [] => category | _ :: _ => query end
            = if bool_decide (query = []) then category else query) as ->
      by (by destruct query).
    rewrite Hsearch. cbn [bind ret]. eexists. split; [reflexivity|].
    destruct (collect_names_distinct docs) as [Hnd Hin].
    done.
Qed.

Lemma search_by_category_names_witness :
  ∃ names,
    RecipeRAGSystem.search_by_category (sample_system fixed_generation)
      (py "骨折") [] = inr names
    ∧ NoDup names
    ∧ ∀ name, name ∈ names ↔
        ∃ d, d ∈ fragments_AABAC
             ∧ GenerationIntegrationModule.dish_name_of d = name.
Proof.
  exact (proj2 (search_by_category_names (sample_system fixed_generation)
                  (py "骨折") []) sample_retrieval fragments_AABAC eq_refl
           eq_refl).
Defined.

(** ** What the normalizers guarantee of their output *)

Lemma sub_skip (match_at : list N → option (nat * list N)) (s : list N) :
  ∀ k, Re.sub match_at k s = Re.sub match_at 0 (drop k s).
Proof.
  induction s as [|c r IH]; intros k.
  - by destruct k.
  - destruct k as [|k]; [done|]. cbn [Re.sub drop]. apply IH.
Qed.

Lemma blank_lines_at_None (s : list N) :
  Re.blank_lines_at s = None ↔ (leading_newlines s < 3)%nat.
Proof.
  unfold Re.blank_lines_at, leading_newlines.
  destruct (Nat.leb_spec 3 (length (Re.take_while (N.eqb LF) s))).
  - split; [done | lia].
  - split; [lia | done].
Qed.

Lemma no_match_cons {R} (match_at : list N → option R) (c : N) (s : list N) :
  no_match match_at (c :: s)
  ↔ match_at (c :: s) = None ∧ no_match match_at s.
Proof.
  unfold no_match. split.
  - intros H. split; [by apply (H [])|].
    intros pre suf ->. by apply (H (c :: pre)).
  - intros [Hhead Htail] [|c' pre] suf Heq.
    + simpl in Heq. by subst.
    + injection Heq as <- ->. by apply (Htail pre).
Qed.

Lemma no_match_nil {R} (match_at : list N → option R) :
  match_at [] = None → no_match match_at [].
Proof. intros H pre suf Heq. by destruct pre, suf. Qed.

Lemma leading_newlines_cons (c : N) (s : list N) :
  leading_newlines (c :: s)
  = if c =? LF then S (leading_newlines s) else 0%nat.
Proof.
  unfold leading_newlines. cbn [Re.take_while].
  destruct (N.eqb_spec LF c), (N.eqb_spec c LF); try done; congruence.
Qed.

Lemma leading_newlines_drop (s : list N) :
  leading_newlines (drop (leading_newlines s) s) = 0%nat.
Proof.
  induction s as [|c s IH]; [done|].
  rewrite (leading_newlines_cons c s).
  destruct (c =? LF) eqn:Hc; [done|].
  cbn [drop]. by rewrite leading_newlines_cons, Hc.
Qed.

Lemma collapse_no_blank_lines (n : nat) :
  ∀ s, (length s ≤ n)%nat →
  no_match Re.blank_lines_at (Re.sub Re.blank_lines_at 0 s)
  ∧ leading_newlines (Re.sub Re.blank_lines_at 0 s)
    = Nat.min (leading_newlines s) 2.
Proof.
  induction n as [|n IH]; intros s Hlen.
  - destruct s; [|simpl in Hlen; lia]. split; [by apply no_match_nil | done].
  - destruct s as [|c r]; [split; [by apply no_match_nil | done]|].
    cbn [Re.sub].
    destruct (Re.blank_lines_at (c :: r)) as [[k repl]|] eqn:Hm.
    + unfold Re.blank_lines_at in Hm.
      fold (leading_newlines (c :: r)) in Hm.
      destruct (Nat.leb_spec 3 (leading_newlines (c :: r))) as [Hge|];
        [|done].
      injection Hm as <- <-.
      rewrite leading_newlines_cons in Hge |- *.
      destruct (c =? LF) eqn:Hc; [|lia].
      rewrite sub_skip.
      destruct (IH (drop (leading_newlines r) r)) as [Hno Hlead].
      { rewrite length_drop. simpl in Hlen. lia. }
      rewrite leading_newlines_drop in Hlead. simpl in Hlead.
      cbn [app]. split.
      * apply no_match_cons. split.
        { apply blank_lines_at_None.
          rewrite !leading_newlines_cons, Hlead. simpl. lia. }
        apply no_match_cons. split; [|done].
        apply blank_lines_at_None.
        rewrite leading_newlines_cons, Hlead. simpl. lia.
      * rewrite !leading_newlines_cons, Hlead. simpl. lia.
    + apply blank_lines_at_None in Hm.
      destruct (IH r) as [Hno Hlead]; [simpl in Hlen; lia|].
      rewrite leading_newlines_cons in Hm.
      split.
      * apply no_match_cons. split; [|done].
        apply blank_lines_at_None. rewrite leading_newlines_cons, Hlead.
        destruct (c =? LF); lia.
      * rewrite !leading_newlines_cons, Hlead. destruct (c =? LF); lia.
Qed.

Lemma leading_newlines_app (x b : list N) :
  (leading_newlines x ≤ leading_newlines (x ++ b))%nat.
Proof.
  induction x as [|c x IH]; [unfold leading_newlines at 1; simpl; lia|].
  cbn [app]. rewrite !leading_newlines_cons. destruct (c =? LF); lia.
Qed.

Lemma no_blank_lines_infix (a x b : list N) :
  no_match Re.blank_lines_at (a ++ x ++ b) → no_match Re.blank_lines_at x.
Proof.
  intros H pre suf ->. apply blank_lines_at_None.
  specialize (H (a ++ pre) (suf ++ b)).
  rewrite <- !app_assoc in H. specialize (H eq_refl).
  apply blank_lines_at_None in H.
  pose proof (leading_newlines_app suf b). lia.
Qed.

Lemma strip_after_collapse (s : list N) :
  trimmed (strip (Re.sub Re.blank_lines_at 0 s))
  ∧ no_match Re.blank_lines_at (strip (Re.sub Re.blank_lines_at 0 s)).
Proof.
  destruct (strip_spec (Re.sub Re.blank_lines_at 0 s))
    as (a & b & Heq & _ & _ & Htrim).
  split; [done|].
  apply (no_blank_lines_infix a _ b). rewrite <- Heq.
  by apply (collapse_no_blank_lines (length s)).
Qed.

(** X10. Whatever the text, the output of either content normalizer
    neither starts nor ends with white space and has no run of three
    newlines. *)
Theorem normalizers_output_shape (text : list N) :
  trimmed (DataPreparationModule.clean_academic_markdown text)
  ∧ no_match Re.blank_lines_at
      (DataPreparationModule.clean_academic_markdown text)
  ∧ trimmed (GuidelineDataPreparationModule.clean_guideline_markdown text)
  ∧ no_match Re.blank_lines_at
      (GuidelineDataPreparationModule.clean_guideline_markdown text).
Proof.
  assert (trimmed [] ∧ no_match Re.blank_lines_at []) as [Ht Hn].
  { split; [split; intros; by destruct r | by apply no_match_nil]. }
  unfold DataPreparationModule.clean_academic_markdown,
    GuidelineDataPreparationModule.clean_guideline_markdown.
  destruct text as [|c r]; [done|].
  split; [apply strip_after_collapse|]. split; [apply strip_after_collapse|].
  split; apply strip_after_collapse.
Qed.

(** ** Book names and path validity *)

Lemma word_breaks_without_spaces (s : list N) :
  filter (fun c => c ≠ 32) (word_breaks s) = filter (fun c => c ≠ 32) s.
Proof.
  induction s as [|a r IH]; [done|].
  destruct r as [|b r']; [done|].
  change (word_breaks (a :: b :: r'))
    with (if (is_lower a && is_upper b)
             || (is_upper a && is_upper b
                 && match r' with d :: _ => is_lower d | [] => false end)
          then a :: 32 :: word_breaks (b :: r')
          else a :: word_breaks (b :: r')).
  destruct (_ || _).
  - rewrite (filter_cons _ a), (filter_cons _ 32), IH.
    rewrite (filter_cons _ a (b :: r')).
    rewrite (decide_False (P := 32 ≠ 32)) by (by intros H). done.
  - by rewrite (filter_cons _ a), IH, (filter_cons _ a (b :: r')).
Qed.

(** X11. Splitting a camel-form folder name only adds spaces: without its
    spaces the book name is the folder name again (for a name without
    space and without line feed), so that distinct folders get distinct
    book names. *)
Theorem camel_case_split_only_adds_spaces (identifier : list N) :
  LF ∉ identifier → 32 ∉ identifier →
  filter (fun c => c ≠ 32)
    (GuidelineDataPreparationModule._camel_case_split identifier)
  = identifier
  ∧ ∀ other, LF ∉ other → 32 ∉ other →
      GuidelineDataPreparationModule._camel_case_split other
      = GuidelineDataPreparationModule._camel_case_split identifier →
      other = identifier.
Proof.
  assert (∀ s, LF ∉ s → 32 ∉ s →
            filter (fun c => c ≠ 32)
              (GuidelineDataPreparationModule._camel_case_split s) = s) as H.
  { intros s Hlf Hsp.
    rewrite camel_case_split_word_breaks, word_breaks_without_spaces by done.
    clear Hlf. induction s as [|c s IH]; [done|].
    apply not_elem_of_cons in Hsp as [Hc Hs].
    rewrite filter_cons, decide_True by done. by rewrite IH. }
  intros Hlf Hsp. split; [by apply H|].
  intros other Hlf' Hsp' Heq.
  by rewrite <- (H other), <- (H identifier), Heq.
Qed.

Lemma camel_case_split_only_adds_spaces_witness :
  filter (fun c => c ≠ 32)
    (GuidelineDataPreparationModule._camel_case_split book_folder)
  = book_folder.
Proof.
  refine (proj1 (camel_case_split_only_adds_spaces book_folder _ _)).
  - intros Hin. apply (bool_decide_pack _) in Hin. by vm_compute in Hin.
  - intros Hin. apply (bool_decide_pack _) in Hin. by vm_compute in Hin.
Defined.

Lemma relative_to_Some (data_path : list (list N)) :
  ∀ file_path rel,
  GuidelineDataPreparationModule.relative_to file_path data_path = Some rel
  ↔ file_path = data_path ++ rel.
Proof.
  induction data_path as [|d ds IH]; intros file_path rel.
  - destruct file_path; simpl; split; congruence.
  - destruct file_path as [|f fs]; simpl.
    + split; [done | discriminate].
    + case_bool_decide as Hd.
      * subst f. rewrite IH. split; [by intros -> | by intros [= ->]].
      * split; [done | intros [= ? ?]; congruence].
Qed.




(** ** The context when everything fits *)

Lemma total_length_take (j : nat) (parts : list (list N)) :
  (total_length (take j parts) ≤ total_length parts)%Z.
Proof.
  assert (∀ l, (0 ≤ total_length l)%Z) as Hpos
    by (intros l; unfold total_length; lia).
  revert j. induction parts as [|p parts IH]; intros [|j];
    cbn [take]; try apply Hpos; try done.
  rewrite !total_length_cons. specialize (IH j). lia.
Qed.

Lemma blocks_from_length (docs : list Document) :
  ∀ i, length (blocks_from i docs) = length docs.
Proof.
  induction docs as [|d ds IH]; intros i; [done|].
  cbn [blocks_from length]. by rewrite IH.
Qed.

(** X13. When the blocks of all documents together are within the budget,
    the context holds every block, in order: nothing is left out. *)
Theorem build_context_keeps_all_that_fits (doc : Document)
    (rest : list Document) (max_length : Z) :
  (total_length (blocks_from 1 (doc :: rest)) ≤ max_length)%Z →
  GenerationIntegrationModule._build_context (doc :: rest) max_length
  = GenerationIntegrationModule.separator
    ++ join [LF] (blocks_from 1 (doc :: rest)).
Proof.
  intros Hfit.
  destruct (context_parts_greedy max_length (doc :: rest) 1 0%Z)
    as (k & Hk & Heq & _ & Hout).
  unfold GenerationIntegrationModule._build_context. rewrite Heq.
  pose proof (blocks_from_length (doc :: rest) 1) as Hlen.
  destruct (decide (k < length (doc :: rest))%nat) as [Hlt|Hge].
  - specialize (Hout Hlt).
    pose proof (total_length_take (S k) (blocks_from 1 (doc :: rest))). lia.
  - rewrite firstn_all2; [done|]. lia.
Qed.

Lemma build_context_keeps_all_that_fits_witness :
  GenerationIntegrationModule._build_context [doc_a; doc_b] 2000
  = GenerationIntegrationModule.separator
    ++ join [LF] (blocks_from 1 [doc_a; doc_b]).
Proof.
  apply (build_context_keeps_all_that_fits doc_a [doc_b] 2000).
  by vm_compute.
Defined.

(** ** Loading the corpora *)

Ltac lookup_key :=
  repeat (rewrite lookup_insert_ne by done);
  first [rewrite lookup_insert_eq | rewrite lookup_empty].

Lemma find_category_in (mapping : list (list N * list N))
    (path_parts : list (list N)) (value : list N) :
  DataPreparationModule.find_category mapping path_parts = Some value →
  value ∈ mapping.*2.
Proof.
  induction mapping as [|[k v] mapping IH]; simpl; [done|].
  case_bool_decide.
  - intros [= ->]. by left.
  - intros H'. right. by apply IH.
Qed.

Lemma encode_char_is_Some (c : N) :
  is_Some (encode_char c) ↔ c < 55296 ∨ 57343 < c.
Proof.
  unfold encode_char.
  destruct (N.ltb_spec c 128); [split; [lia | by eauto]|].
  destruct (N.ltb_spec c 2048); [split; [lia | by eauto]|].
  destruct (N.leb_spec 55296 c), (N.leb_spec c 57343); cbn [andb].
  - split; [by intros [? ?] | lia].
  - destruct (c <? 65536); (split; [lia | by eauto]).
  - destruct (c <? 65536); (split; [lia | by eauto]).
  - destruct (c <? 65536); (split; [lia | by eauto]).
Qed.

(** Encoding fails on the surrogates only. *)
Lemma encode_is_Some (s : list N) :
  is_Some (encode s) ↔ Forall (fun c => c < 55296 ∨ 57343 < c) s.
Proof.
  induction s as [|c r IH]; [split; [constructor | by eauto]|].
  cbn [encode]. rewrite Forall_cons, <- IH, <- encode_char_is_Some.
  destruct (encode_char c), (encode r); split;
    try (intros [[? ?] [? ?]]); try (intros [? ?]); try done;
    by eauto.
Qed.

(** X14. Loading the flat corpus never raises: it answers one document
    per file that could be read and whose relative path can be encoded
    for the digest (it holds no surrogate), in the order of the files,
    and passes over the others. Each document holds the normalized text
    of its file, the digest of the encoded relative path as parent
    identifier, the stem of the folder of the file as case report, and a
    category that is a label of the keyword table or "其他"; so the
    statistics never count a loaded document under "未知". *)
Theorem load_documents_one_per_readable_file
    (md5_hexdigest : list N → list N)
    (files : list DataPreparationModule.MdFile) :
  (∀ s, is_Some (encode s) ↔ Forall (fun c => c < 55296 ∨ 57343 < c) s)
  ∧ ∃ docs,
    DataPreparationModule.load_documents md5_hexdigest files = inr docs
    ∧ Forall2
        (fun f doc =>
           (∃ content,
              DataPreparationModule.file_content f = inr content
              ∧ page_content doc
                = DataPreparationModule.clean_academic_markdown content)
           ∧ metadata doc !! "source"
             = Some (VStr (DataPreparationModule.md_file f))
           ∧ (∃ path_bytes,
                encode (DataPreparationModule.relative_path f)
                = Some path_bytes
                ∧ metadata doc !! "parent_id"
                  = Some (VStr (md5_hexdigest path_bytes)))
           ∧ metadata doc !! "doc_type"
             = Some (VStr DataPreparationModule.doc_type_parent)
           ∧ metadata doc !! "case_report_id"
             = Some (VStr (Path.stem (Path.parent
                             (Path.of_str (DataPreparationModule.md_file f)))))
           ∧ (∃ category,
                metadata doc !! "category" = Some (VStr category)
                ∧ (category = DataPreparationModule.category_other
                   ∨ category ∈ DataPreparationModule.CATEGORY_MAPPING.*2))
           ∧ counted_category doc
             ≠ VStr DataPreparationModule.category_unknown)
        (filter
           (fun f =>
              returned (DataPreparationModule.file_content f)
              ∧ is_Some (encode (DataPreparationModule.relative_path f)))
           files)
        docs.
Proof.
  split; [apply encode_is_Some|].
  unfold DataPreparationModule.load_documents.
  induction files as [|f rest (docs & Hrun & Hall)].
  - exists []. split; [done|]. constructor.
  - rewrite filter_cons. cbn [DataPreparationModule.read_documents].
    destruct (DataPreparationModule.file_content f) as [e|content] eqn:Hread.
    { cbn [returned]. rewrite decide_False by (by intros [[] _]). eauto. }
    destruct (encode (DataPreparationModule.relative_path f))
      as [path_bytes|] eqn:Hpath.
    2: { rewrite decide_False by (by intros [_ [? ?]]). eauto. }
    cbn [returned]. rewrite decide_True by (split; [done | by eauto]).
    cbn [DataPreparationModule.enhance_all].
    unfold DataPreparationModule._enhance_metadata at 1,
      DataPreparationModule.source_path.
    cbn [metadata page_content].
    rewrite lookup_insert_ne by done. rewrite lookup_insert_ne by done.
    rewrite lookup_insert_eq. cbn [bind ret]. rewrite Hrun. cbn [bind ret].
    eexists. split; [reflexivity|]. constructor; [|exact Hall].
    cbn [page_content metadata].
    assert (∃ category,
              default DataPreparationModule.category_other
                (DataPreparationModule.find_category
                   DataPreparationModule.CATEGORY_MAPPING
                   (Path.parts (Path.parent (Path.of_str
                      (DataPreparationModule.md_file f)))))
              = category
              ∧ (category = DataPreparationModule.category_other
                 ∨ category ∈ DataPreparationModule.CATEGORY_MAPPING.*2))
      as (category & Hcat & Hin).
    { destruct (DataPreparationModule.find_category _ _) as [v|] eqn:Hfind.
      - exists v. split; [done|]. right. by eapply find_category_in.
      - exists DataPreparationModule.category_other. split; [done|]. by left. }
    rewrite Hcat.
    split; [by eauto|].
    split; [by lookup_key|].
    split; [exists path_bytes; split; [done | by lookup_key]|].
    split; [by lookup_key|].
    split; [by rewrite lookup_insert_eq|].
    split.
    { exists category. split; [|done].
      rewrite lookup_insert_ne by done. by rewrite lookup_insert_eq. }
    unfold counted_category. cbn [metadata].
    rewrite lookup_insert_ne by done. rewrite lookup_insert_eq.
    simpl. intros [= Heq]. destruct Hin as [->|Hin]; [discriminate Heq|].
    rewrite Heq in Hin. apply (bool_decide_pack _) in Hin.
    by vm_compute in Hin.
Qed.

(** A file that can be read, under a name with a surrogate, is left out. *)
Example surrogate_name_is_left_out :
  DataPreparationModule.load_documents tagged_digest
    [DataPreparationModule.mkMdFile (py "data/fracture/" ++ [56448] ++ py "/a.md")
       (inr (py "text")) (py "fracture/" ++ [56448] ++ py "/a.md")]
  = inr [].
Proof. by vm_compute. Qed.

Example encode_agrees_with_literal :
  encode (py "治疗 plan é 𝟚") = Some (bytes_of "治疗 plan é 𝟚").
Proof. by vm_compute. Qed.

Lemma parse_path_metadata_Some (data_path file_path : list (list N))
    (meta : GuidelineDataPreparationModule.PathMetadata) :
  GuidelineDataPreparationModule._parse_path_metadata data_path file_path
  = Some meta →
  ∃ book chapter file rest,
    file_path = data_path ++ book :: chapter :: file :: rest
    ∧ GuidelineDataPreparationModule.book_name meta
      = GuidelineDataPreparationModule._camel_case_split book.
Proof.
  unfold GuidelineDataPreparationModule._parse_path_metadata.
  destruct (GuidelineDataPreparationModule.relative_to file_path data_path)
    as [parts|] eqn:Hrel; [|done].
  apply relative_to_Some in Hrel. subst file_path.
  destruct (Nat.ltb_spec (length parts) 3) as [Hlt|Hge]; [done|].
  destruct parts as [|book [|chapter [|file rest]]]; try (simpl in Hge; lia).
  destruct (match GuidelineDataPreparationModule.split_first 95 chapter
            with Some _ => _ | None => _ end) as [ci cn].
  intros [= <-]. by exists book, chapter, file, rest.
Qed.

(** X15. Loading the guideline corpus answers one document per file that
    lies under the data path at depth three or more, could be read, and
    whose relative path can be encoded for the digest (it holds no
    surrogate), in the order of the files; the other files are passed
    over. Each document holds the normalized text of its file, the
    digest of the encoded relative path as parent identifier, the split
    name of the book folder as book, and the three keys that chunking
    reads. The key [source_file], which [export_metadata_report] reads,
    is not set. *)
Theorem guideline_load_documents_valid_files
    (md5_hexdigest : list N → list N) (data_path : list (list N))
    (files : list GuidelineDataPreparationModule.MdFile) :
  (∀ s, is_Some (encode s) ↔ Forall (fun c => c < 55296 ∨ 57343 < c) s)
  ∧ Forall2
    (fun f doc =>
       (∃ book chapter file rest content path_bytes,
          GuidelineDataPreparationModule.md_file f
          = data_path ++ book :: chapter :: file :: rest
          ∧ GuidelineDataPreparationModule.file_content f = inr content
          ∧ page_content doc
            = GuidelineDataPreparationModule.clean_guideline_markdown content
          ∧ encode (join [47] (book :: chapter :: file :: rest))
            = Some path_bytes
          ∧ metadata doc !! "parent_id"
            = Some (VStr (md5_hexdigest path_bytes))
          ∧ metadata doc !! "book_name"
            = Some (VStr (GuidelineDataPreparationModule._camel_case_split
                            book)))
       ∧ metadata doc !! "source"
         = Some (VStr (GuidelineDataPreparationModule.md_file_str f))
       ∧ metadata doc !! "doc_type"
         = Some (VStr GuidelineDataPreparationModule.doc_type_parent)
       ∧ metadata doc !! "source_file" = None
       ∧ guideline_keys doc)
    (filter
       (fun f =>
          is_Some (GuidelineDataPreparationModule._parse_path_metadata
                     data_path (GuidelineDataPreparationModule.md_file f))
          ∧ returned (GuidelineDataPreparationModule.file_content f)
          ∧ is_Some (GuidelineDataPreparationModule.relative_to
                       (GuidelineDataPreparationModule.md_file f) data_path
                     ≫= fun rel => encode (join [47] rel)))
       files)
    (GuidelineDataPreparationModule.load_documents md5_hexdigest data_path
       files).
Proof.
  split; [apply encode_is_Some|].
  induction files as [|f rest IH]; [constructor|].
  rewrite filter_cons. cbn [GuidelineDataPreparationModule.load_documents].
  destruct (GuidelineDataPreparationModule._parse_path_metadata data_path
              (GuidelineDataPreparationModule.md_file f)) as [meta|] eqn:Hmeta.
  2: { rewrite decide_False by (by intros [[? ?] _]). exact IH. }
  destruct (parse_path_metadata_Some _ _ _ Hmeta)
    as (book & chapter & file & more & Hpath & Hbook).
  destruct (GuidelineDataPreparationModule.file_content f)
    as [e|content] eqn:Hread.
  { rewrite decide_False by (by intros (_ & [] & _)). exact IH. }
  rewrite Hpath, relative_to_app.
  unfold GuidelineDataPreparationModule.parent_id_of. cbn [mbind option_bind].
  destruct (encode (join [47] (book :: chapter :: file :: more)))
    as [path_bytes|] eqn:Hbytes; cbn [fmap option_fmap option_map].
  2: { rewrite decide_False by (by intros (_ & _ & [? ?])). exact IH. }
  rewrite decide_True by (split; [by eauto | split; [done | by eauto]]).
  constructor; [|exact IH].
  cbn [page_content metadata]. split.
  { exists book, chapter, file, more, content, path_bytes.
    split; [done|]. split; [done|]. split; [done|]. split; [done|].
    split; [by lookup_key|]. rewrite <- Hbook. by lookup_key. }
  split; [by lookup_key|]. split; [by lookup_key|].
  split; [by lookup_key|].
  split; [|split]; eexists; cbn [metadata]; by lookup_key.
Qed.

(** A file that can be read, in a folder whose name holds a surrogate, is
    left out. *)
Example guideline_surrogate_name_is_left_out :
  GuidelineDataPreparationModule.load_documents tagged_digest corpus_root
    [GuidelineDataPreparationModule.mkMdFile
       (corpus_root ++ [py "NeckPain"; [56448]; py "part1.md"])
       (py "Root/NeckPain/" ++ [56448] ++ py "/part1.md")
       (inr (py "text"))]
  = [].
Proof. by vm_compute. Qed.

Example guideline_files_loaded :
  (page_content
   <$> GuidelineDataPreparationModule.load_documents tagged_digest corpus_root
         guideline_files)
  = [py "# Imaging

Plain radiographs
first."; py "## Scope"].
Proof. by vm_compute. Qed.

(** ** The two parent resolvers side by side *)

Lemma find_parent_None (docs : list Document) (p : Value) :
  DataPreparationModule.find_parent docs p = None
  ↔ ∀ d, d ∈ docs → metadata d !! "parent_id" ≠ Some p.
Proof.
  unfold DataPreparationModule.find_parent. split.
  - intros Hnone d Hd. apply list_elem_of_In in Hd.
    pose proof (find_none _ _ Hnone d Hd) as Hf.
    by apply bool_decide_eq_false in Hf.
  - intros Hall. induction docs as [|d docs IH]; [done|].
    simpl. rewrite bool_decide_eq_false_2 by (apply Hall; by left).
    apply IH. intros d' Hd'. apply Hall. by right.
Qed.

Lemma elem_of_rev {A} (l : list A) (x : A) : x ∈ rev l ↔ x ∈ l.
Proof. rewrite !list_elem_of_In. symmetry. apply in_rev. Qed.

Lemma find_parent_rev (docs : list Document) (p : Value) :
  NoDup ((fun d => metadata d !! "parent_id") <$> docs) →
  DataPreparationModule.find_parent (rev docs) p
  = DataPreparationModule.find_parent docs p.
Proof.
  intros Hnd.
  destruct (DataPreparationModule.find_parent docs p) as [d|] eqn:Hd.
  - apply find_parent_Some in Hd as [Hin Hp].
    destruct (DataPreparationModule.find_parent (rev docs) p) as [d'|] eqn:Hd'.
    + apply find_parent_Some in Hd' as [Hin' Hp'].
      rewrite elem_of_rev in Hin'.
      apply list_elem_of_lookup in Hin as [i Hi].
      apply list_elem_of_lookup in Hin' as [j Hj].
      assert (i = j) as <-.
      { eapply (NoDup_lookup _ i j (Some p)); [exact Hnd| |].
        - by rewrite list_lookup_fmap, Hi; simpl; rewrite Hp.
        - by rewrite list_lookup_fmap, Hj; simpl; rewrite Hp'. }
      congruence.
    + rewrite find_parent_None in Hd'. exfalso.
      apply (Hd' d); [|done]. by rewrite elem_of_rev.
  - rewrite find_parent_None in Hd. apply find_parent_None.
    intros d Hin. apply Hd. by rewrite elem_of_rev in Hin.
Qed.

Lemma Forall2_omap_Some {A B} (f : A → option B) (l : list A) (k : list B) :
  Forall2 (fun a b => f a = Some b) l k → omap f l = k.
Proof.
  induction 1 as [|a b l k Hab _ IH]; [done|].
  cbn [omap list_omap]. by rewrite Hab, IH.
Qed.

(** X16. When the parent documents carry pairwise distinct identifiers,
    the two resolvers answer the same documents for the same fragments,
    the flat one by relevance and the hierarchical one by encounter: one
    answer is a rearrangement of the other. (With a repeated identifier
    the flat resolver answers the first document that carries it and the
    hierarchical one the last.) *)
Theorem resolvers_agree_up_to_order (docs child_chunks : list Document) :
  Forall (fun d => is_Some (metadata d !! "parent_id")) docs →
  NoDup ((fun d => metadata d !! "parent_id") <$> docs) →
  ∃ out,
    GuidelineDataPreparationModule.get_parent_documents docs child_chunks
    = inr out
    ∧ out ≡ₚ DataPreparationModule.get_parent_documents docs child_chunks.
Proof.
  intros Hkeys Hnd.
  destruct (flat_parents_ranked docs child_chunks)
    as (r1 & Hout1 & Hnd1 & Hin1 & _).
  destruct (guideline_parents_in_encounter_order docs child_chunks Hkeys)
    as (out & r2 & Hrun & Hout2 & Hnd2 & Hin2 & _).
  exists out. split; [exact Hrun|].
  assert (omap (DataPreparationModule.find_parent docs) r1
          = DataPreparationModule.get_parent_documents docs child_chunks)
    as <-.
  { apply Forall2_omap_Some. eapply Forall2_impl; [exact Hout1|].
    by intros p d [? _]. }
  assert (omap (DataPreparationModule.find_parent docs) r2 = out) as <-.
  { apply Forall2_omap_Some. eapply Forall2_impl; [exact Hout2|].
    intros p d [Hp _]. by rewrite find_parent_rev in Hp. }
  apply omap_Permutation, NoDup_Permutation; [done | done |].
  intros p. rewrite Hin1, Hin2. by rewrite find_parent_rev.
Qed.

Lemma resolvers_agree_up_to_order_witness :
  ∃ out,
    GuidelineDataPreparationModule.get_parent_documents sample_parents
      fragments_BAA = inr out
    ∧ out ≡ₚ DataPreparationModule.get_parent_documents sample_parents
               fragments_BAA.
Proof.
  apply (resolvers_agree_up_to_order sample_parents fragments_BAA).
  - repeat constructor; by eexists.
  - apply (bool_decide_unpack _). by vm_compute.
Defined.

Example resolvers_differ_on_twins :
  DataPreparationModule.get_parent_documents twin_parents [fragment_of "A"]
  = [mkDocument (py "first") {["parent_id" := VStr (py "A")]}]
  ∧ GuidelineDataPreparationModule.get_parent_documents twin_parents
      [fragment_of "A"]
    = inr [mkDocument (py "second") {["parent_id" := VStr (py "A")]}].
Proof. split; by vm_compute. Qed.

(** ** Chunking the hierarchical corpus *)

Lemma join_values_strings (sep : list N) (vs : list Value) :
  Forall (fun v => ∃ s, v = VStr s) vs →
  ∃ r, GuidelineDataPreparationModule.join_values sep vs = inr r.
Proof.
  induction 1 as [|v vs [s ->] _ [r IH]]; [by eexists|].
  cbn [GuidelineDataPreparationModule.join_values].
  destruct vs as [|v' vs]; [by eexists|].
  rewrite IH. by eexists.
Qed.

Section GuidelineChunking.
Variable split_text : list N → result (list Document).
Variable uuid4 : nat → list N.

Lemma guideline_link_children_ok (doc_metadata : gmap string Value)
    (parent_id : Value) (md_chunks : list Document) :
  is_Some (doc_metadata !! "book_name") →
  is_Some (doc_metadata !! "chapter_name") →
  Forall (fun piece => string_headings (doc_metadata ∪ metadata piece))
    md_chunks →
  ∀ i pcm next,
  ∃ pcm' linked,
    GuidelineDataPreparationModule.link_children uuid4 doc_metadata parent_id
      i md_chunks pcm next
    = (pcm', (next + length md_chunks)%nat, inr linked)
    ∧ Forall2 (fun '(j, piece) chunk => child_of doc_metadata j piece chunk)
        (imap (fun j piece => ((i + j)%nat, piece)) md_chunks) linked
    ∧ (∀ j chunk, linked !! j = Some chunk →
         metadata chunk !! "chunk_id" = Some (VStr (uuid4 (next + j)%nat)))
    ∧ (∀ key, is_Some (pcm' !! key)
              ↔ is_Some (pcm !! key)
                ∨ ∃ j, (j < length md_chunks)%nat ∧ key = uuid4 (next + j)%nat).
Proof.
  intros [book Hbook] [chapter Hchapter].
  induction 1 as [|piece rest Hpiece _ IH]; intros i pcm next.
  - exists pcm, []. cbn. rewrite Nat.add_0_r. split; [done|].
    split; [constructor|]. split; [intros j chunk Hj; by rewrite lookup_nil in Hj|].
    intros key. split; [tauto|]. intros [?|(j & ? & _)]; [done | lia].
  - cbn [GuidelineDataPreparationModule.link_children].
    unfold GuidelineDataPreparationModule.getitem.
    rewrite Hbook, Hchapter. cbn [bind ret].
    destruct (join_values_strings GuidelineDataPreparationModule.gt_sep
                (omap (fun h =>
                   <["chunk_size" :=
                       VInt (Z.of_nat (length (page_content piece)))]>
                     (<["chunk_index" := VInt (Z.of_nat i)]>
                        (<["doc_type" :=
                            VStr GuidelineDataPreparationModule.doc_type_child]>
                           (<["chunk_id" := VStr (uuid4 next)]>
                              (doc_metadata ∪ metadata piece)))) !! h)
                   ["Header 1"; "Header 2"; "Header 3"])) as [path Hpath].
    { apply Forall_forall. intros v Hv.
      apply list_elem_of_omap in Hv as (h & Hh & Hv).
      apply (Hpiece h v Hh).
      revert Hv. revert Hh. rewrite !elem_of_cons, elem_of_nil.
      intros [->|[->|[->|[]]]]; by rewrite !lookup_insert_ne by done. }
    rewrite Hpath.
    destruct (IH (S i) (<[uuid4 next:=parent_id]> pcm) (S next))
      as (pcm' & linked & Hrun & Hall & Hids & Hdom).
    rewrite Hrun. cbn [bind ret].
    eexists pcm', (_ :: linked). split.
    { f_equal. f_equal. cbn [length]. lia. }
    split.
    { rewrite imap_cons. constructor.
      - rewrite Nat.add_0_r. unfold child_of. cbn [page_content metadata].
        split; [done|]. split; [by lookup_key|].
        split; [by lookup_key|]. split; [by lookup_key|].
        intros key Hkey. unfold child_keys in Hkey.
        rewrite !not_elem_of_cons in Hkey.
        destruct Hkey as (? & ? & ? & ? & ? & _).
        by rewrite !lookup_insert_ne by done.
      - erewrite imap_ext; [exact Hall|].
        intros j x _. cbn. f_equal. lia. }
    split.
    { intros [|j] chunk Hj.
      - injection Hj as <-. cbn [metadata]. rewrite Nat.add_0_r.
        by lookup_key.
      - rewrite (Hids j chunk Hj). do 3 f_equal. lia. }
    intros key. rewrite Hdom. cbn [length]. split.
    + intros [Hkey|(j & Hj & ->)].
      * destruct (decide (key = uuid4 next)) as [->|Hne].
        -- right. exists 0%nat. split; [lia|]. by rewrite Nat.add_0_r.
        -- left. by rewrite lookup_insert_ne in Hkey.
      * right. exists (S j). split; [lia|]. f_equal. lia.
    + intros [Hkey|(j & Hj & ->)].
      * left. destruct (decide (key = uuid4 next)) as [->|Hne].
        -- rewrite lookup_insert_eq. by eexists.
        -- by rewrite lookup_insert_ne.
      * destruct j as [|j].
        -- left. rewrite Nat.add_0_r, lookup_insert_eq. by eexists.
        -- right. exists j. split; [lia|]. f_equal. lia.
Qed.

Lemma pieces_of_document (doc : Document) (md_chunks : list Document) :
  ∀ i linked,
  Forall2 (fun '(j, piece) chunk => child_of (metadata doc) j piece chunk)
    (imap (fun j piece => ((i + j)%nat, piece)) md_chunks) linked →
  Forall2 (fun '(d, j, piece) chunk => child_of (metadata d) j piece chunk)
    (imap (fun j piece => (doc, (i + j)%nat, piece)) md_chunks) linked.
Proof.
  induction md_chunks as [|piece md_chunks IH]; intros i linked Hall.
  - apply Forall2_nil_inv_l in Hall as ->. constructor.
  - rewrite imap_cons in Hall.
    apply Forall2_cons_inv_l in Hall as (c & l' & Hc & Hl' & ->).
    rewrite imap_cons. constructor; [exact Hc|].
    rewrite (imap_ext _ (fun j piece => (doc, (S i + j)%nat, piece)))
      by (intros j x _; cbn; do 2 f_equal; lia).
    apply IH.
    rewrite (imap_ext _ (fun j piece => ((i + S j)%nat, piece))); [exact Hl'|].
    intros j x _. cbn. f_equal. lia.
Qed.

Lemma guideline_chunk_loop_ok (docs : list Document) :
  Forall (chunkable split_text) docs →
  ∀ pcm next,
  ∃ pcm' all_chunks,
    GuidelineDataPreparationModule.chunk_loop split_text uuid4 docs pcm next
    = (pcm', (next + length all_chunks)%nat, inr all_chunks)
    ∧ Forall2 (fun '(doc, j, piece) chunk =>
                 child_of (metadata doc) j piece chunk)
        (docs ≫= expected_pieces split_text) all_chunks
    ∧ (∀ j chunk, all_chunks !! j = Some chunk →
         metadata chunk !! "chunk_id" = Some (VStr (uuid4 (next + j)%nat)))
    ∧ (∀ key, is_Some (pcm' !! key)
              ↔ is_Some (pcm !! key)
                ∨ ∃ j, (j < length all_chunks)%nat
                       ∧ key = uuid4 (next + j)%nat).
Proof.
  induction 1 as [|doc rest Hdoc _ IH]; intros pcm next.
  - exists pcm, []. cbn. rewrite Nat.add_0_r. split; [done|].
    split; [constructor|]. split; [intros j chunk Hj; by rewrite lookup_nil in Hj|].
    intros key. split; [tauto|]. intros [?|(j & ? & _)]; [done | lia].
  - destruct Hdoc as ([parent_id Hpid] & Hbook & Hchapter & md_chunks
                      & Hsplit & Hheadings).
    cbn [GuidelineDataPreparationModule.chunk_loop].
    unfold GuidelineDataPreparationModule.getitem at 1.
    rewrite Hpid, Hsplit. cbn [ret].
    destruct (guideline_link_children_ok (metadata doc) parent_id md_chunks
                Hbook Hchapter Hheadings 0 pcm next)
      as (pcm1 & linked & Hrun & Hall & Hids & Hdom).
    rewrite Hrun.
    destruct (IH pcm1 (next + length md_chunks)%nat)
      as (pcm2 & others & Hrun' & Hall' & Hids' & Hdom').
    rewrite Hrun'. cbn [bind ret].
    assert (length linked = length md_chunks) as Hlen.
    { apply Forall2_length in Hall. by rewrite length_imap in Hall. }
    exists pcm2, (linked ++ others). split.
    { f_equal. f_equal. rewrite length_app. lia. }
    split.
    { rewrite bind_cons. apply Forall2_app; [|exact Hall'].
      unfold expected_pieces at 1, splitter_chunks. rewrite Hsplit.
      exact (pieces_of_document doc md_chunks 0 linked Hall). }
    split.
    { intros j chunk Hj. apply lookup_app_Some in Hj as [Hj|[Hge Hj]].
      - by apply Hids.
      - rewrite (Hids' _ _ Hj). do 3 f_equal. lia. }
    intros key. rewrite Hdom', Hdom, length_app, Hlen. split.
    + intros [[Hkey|(j & Hj & ->)]|(j & Hj & ->)].
      * by left.
      * right. exists j. split; [lia | done].
      * right. exists (length md_chunks + j)%nat. split; [lia|].
        f_equal. lia.
    + intros [Hkey|(j & Hj & ->)]; [by left; left|].
      destruct (decide (j < length md_chunks)%nat).
      * left. right. by exists j.
      * right. exists (j - length md_chunks)%nat. split; [lia|].
        f_equal. lia.
Qed.
End GuidelineChunking.

(** X17. Chunking the hierarchical corpus, when every document can be
    processed (its three keys are there, the splitter returns, the
    headings are strings): the call returns the chunks of the splitter,
    document after document, one chunk for each; a chunk keeps the text,
    carries the metadata of its document over those of the splitter, its
    position within the document as [chunk_index], the length of its text
    as [chunk_size], and the next unused identifier as [chunk_id]. The
    chunks become those of the module and the documents are left as they
    are. *)
Theorem guideline_chunking_follows_splitter
    (split_text : list N → result (list Document)) (uuid4 : nat → list N)
    (st : GuidelineDataPreparationModule.state) (next : nat) :
  GuidelineDataPreparationModule.documents st ≠ [] →
  Forall (chunkable split_text) (GuidelineDataPreparationModule.documents st) →
  ∃ st' all_chunks,
    GuidelineDataPreparationModule.chunk_documents split_text uuid4 st next
    = (st', (next + length all_chunks)%nat, inr all_chunks)
    ∧ GuidelineDataPreparationModule.chunks st' = all_chunks
    ∧ GuidelineDataPreparationModule.documents st'
      = GuidelineDataPreparationModule.documents st
    ∧ Forall2 (fun '(doc, j, piece) chunk =>
                 child_of (metadata doc) j piece chunk)
        (GuidelineDataPreparationModule.documents st
           ≫= expected_pieces split_text)
        all_chunks
    ∧ (∀ j chunk, all_chunks !! j = Some chunk →
         metadata chunk !! "chunk_id" = Some (VStr (uuid4 (next + j)%nat))).
Proof.
  intros Hne Hall.
  unfold GuidelineDataPreparationModule.chunk_documents.
  destruct (GuidelineDataPreparationModule.documents st) as [|d ds] eqn:Hdocs;
    [done|].
  destruct (guideline_chunk_loop_ok split_text uuid4 (d :: ds) Hall
              (GuidelineDataPreparationModule.parent_child_map st) next)
    as (pcm' & all_chunks & Hrun & Hrel & Hids & _).
  rewrite Hrun. eexists _, all_chunks. split; [reflexivity|].
  cbn [GuidelineDataPreparationModule.chunks
       GuidelineDataPreparationModule.documents].
  done.
Qed.

Lemma string_headings_absent (md : gmap string Value) :
  md !! "Header 1" = None → md !! "Header 2" = None →
  md !! "Header 3" = None → string_headings md.
Proof.
  intros H1 H2 H3 h v Hh Hv. revert Hh Hv.
  rewrite !elem_of_cons, elem_of_nil.
  intros [->|[->|[->|[]]]]; congruence.
Qed.

Lemma guideline_corpus_chunkable :
  Forall (chunkable halving_split_text)
    (GuidelineDataPreparationModule.documents guideline_corpus).
Proof.
  repeat constructor; try (by eexists);
    (eexists; split; [reflexivity|];
     repeat constructor; apply string_headings_absent; by vm_compute).
Defined.

Lemma guideline_chunking_follows_splitter_witness :
  ∃ st' all_chunks,
    GuidelineDataPreparationModule.chunk_documents halving_split_text
      unary_uuid4 guideline_corpus 0
    = (st', (0 + length all_chunks)%nat, inr all_chunks)
    ∧ GuidelineDataPreparationModule.chunks st' = all_chunks
    ∧ GuidelineDataPreparationModule.documents st'
      = GuidelineDataPreparationModule.documents guideline_corpus
    ∧ Forall2 (fun '(doc, j, piece) chunk =>
                 child_of (metadata doc) j piece chunk)
        (GuidelineDataPreparationModule.documents guideline_corpus
           ≫= expected_pieces halving_split_text)
        all_chunks
    ∧ (∀ j chunk, all_chunks !! j = Some chunk →
         metadata chunk !! "chunk_id"
         = Some (VStr (unary_uuid4 (0 + j)%nat))).
Proof.
  apply (guideline_chunking_follows_splitter halving_split_text unary_uuid4
           guideline_corpus 0).
  - by vm_compute.
  - exact guideline_corpus_chunkable.
Defined.

Example guideline_corpus_chunks :
  (page_content
   <$> GuidelineDataPreparationModule.chunks
         (GuidelineDataPreparationModule.chunk_documents halving_split_text
            unary_uuid4 guideline_corpus 0).1.1)
  = [py "#"; py " Imaging

Plain radiographs
first."; py "#"; py "# Scope"].
Proof. by vm_compute. Qed.

Lemma guideline_chunk_loop_stops
    (split_text : list N → result (list Document)) (uuid4 : nat → list N)
    (doc : Document) (post : list Document) (e : exn) (pre : list Document) :
  is_Some (metadata doc !! "parent_id") →
  split_text (page_content doc) = inl e →
  Forall (chunkable split_text) pre →
  ∀ pcm next,
  ∃ pcm' next',
    GuidelineDataPreparationModule.chunk_loop split_text uuid4
      (pre ++ doc :: post) pcm next
    = (pcm', next', inl e)
    ∧ (∀ key, is_Some (pcm' !! key)
              ↔ is_Some (pcm !! key)
                ∨ ∃ j, (j < length (pre ≫= splitter_chunks split_text))%nat
                       ∧ key = uuid4 (next + j)%nat).
Proof.
  intros [pid Hpid] Hfail.
  induction 1 as [|d rest Hd _ IH]; intros pcm next.
  - exists pcm, next. cbn [app GuidelineDataPreparationModule.chunk_loop].
    unfold GuidelineDataPreparationModule.getitem. rewrite Hpid, Hfail.
    split; [done|]. intros key. split; [tauto|].
    intros [?|(j & Hj & _)]; [done|]. cbn in Hj. lia.
  - destruct Hd as ([parent_id Hparent] & Hbook & Hchapter & md_chunks
                    & Hsplit & Hheadings).
    rewrite <- app_comm_cons.
    cbn [GuidelineDataPreparationModule.chunk_loop].
    unfold GuidelineDataPreparationModule.getitem at 1.
    rewrite Hparent, Hsplit. cbn [ret].
    destruct (guideline_link_children_ok split_text uuid4 (metadata d)
                parent_id md_chunks Hbook Hchapter Hheadings 0 pcm next)
      as (pcm1 & linked & Hrun & _ & _ & Hdom).
    rewrite Hrun.
    destruct (IH pcm1 (next + length md_chunks)%nat)
      as (pcm2 & next2 & Hrun' & Hdom').
    rewrite Hrun'. cbn [bind]. exists pcm2, next2. split; [done|].
    intros key. rewrite Hdom', Hdom, bind_cons, length_app.
    unfold splitter_chunks at 2. rewrite Hsplit. split.
    + intros [[Hkey|(j & Hj & ->)]|(j & Hj & ->)].
      * by left.
      * right. exists j. split; [lia | done].
      * right. exists (length md_chunks + j)%nat. split; [lia|].
        f_equal. lia.
    + intros [Hkey|(j & Hj & ->)]; [by left; left|].
      destruct (decide (j < length md_chunks)%nat).
      * left. right. by exists j.
      * right. exists (j - length md_chunks)%nat. split; [lia|].
        f_equal. lia.
Qed.

(** X18. Chunking the hierarchical corpus has no fallback: when the
    splitter raises on a document, after documents that could be
    processed, the call raises the same exception. The chunks of the
    module stay what they were, yet the map from chunk to parent has
    already taken the identifiers of the chunks of the earlier
    documents. *)
Theorem guideline_chunking_has_no_fallback
    (split_text : list N → result (list Document)) (uuid4 : nat → list N)
    (st : GuidelineDataPreparationModule.state) (next : nat)
    (pre : list Document) (doc : Document) (post : list Document) (e : exn) :
  GuidelineDataPreparationModule.documents st = pre ++ doc :: post →
  Forall (chunkable split_text) pre →
  is_Some (metadata doc !! "parent_id") →
  split_text (page_content doc) = inl e →
  ∃ st' next',
    GuidelineDataPreparationModule.chunk_documents split_text uuid4 st next
    = (st', next', inl e)
    ∧ GuidelineDataPreparationModule.chunks st'
      = GuidelineDataPreparationModule.chunks st
    ∧ GuidelineDataPreparationModule.documents st'
      = GuidelineDataPreparationModule.documents st
    ∧ ∀ key,
        is_Some (GuidelineDataPreparationModule.parent_child_map st' !! key)
        ↔ is_Some (GuidelineDataPreparationModule.parent_child_map st !! key)
          ∨ ∃ j, (j < length (pre ≫= splitter_chunks split_text))%nat
                 ∧ key = uuid4 (next + j)%nat.
Proof.
  intros Hdocs Hpre Hpid Hfail.
  destruct st as [docs chunks pcm].
  cbn [GuidelineDataPreparationModule.documents] in Hdocs. subst docs.
  unfold GuidelineDataPreparationModule.chunk_documents.
  cbn [GuidelineDataPreparationModule.chunks
       GuidelineDataPreparationModule.documents
       GuidelineDataPreparationModule.parent_child_map].
  destruct (guideline_chunk_loop_stops split_text uuid4 doc post e pre Hpid
              Hfail Hpre pcm next) as (pcm' & next' & Hrun & Hdom).
  rewrite Hrun.
  destruct (pre ++ doc :: post) as [|d ds] eqn:Happ;
    [by destruct pre|].
  eexists _, next'. split; [reflexivity|].
  cbn [GuidelineDataPreparationModule.chunks
       GuidelineDataPreparationModule.documents
       GuidelineDataPreparationModule.parent_child_map].
  done.
Qed.

Lemma guideline_chunking_has_no_fallback_witness :
  ∃ st' next',
    GuidelineDataPreparationModule.chunk_documents fussy_split_text
      unary_uuid4 guideline_corpus 0
    = (st', next', inl (ExternalError (py "split_text")))
    ∧ GuidelineDataPreparationModule.chunks st' = []
    ∧ is_Some (GuidelineDataPreparationModule.parent_child_map st'
                 !! unary_uuid4 1).
Proof.
  destruct (guideline_chunking_has_no_fallback fussy_split_text unary_uuid4
              guideline_corpus 0
              (take 1 (GuidelineDataPreparationModule.documents
                         guideline_corpus))
              (default empty_document
                 (GuidelineDataPreparationModule.documents guideline_corpus
                    !! 1%nat))
              [] (ExternalError (py "split_text")))
    as (st' & next' & Hrun & Hchunks & _ & Hdom).
  - by vm_compute.
  - repeat constructor; try (by eexists);
      (eexists; split; [reflexivity|];
       repeat constructor; apply string_headings_absent; by vm_compute).
  - by eexists.
  - by vm_compute.
  - exists st', next'. split; [exact Hrun|]. split; [exact Hchunks|].
    apply Hdom. right. exists 1%nat. split; [|done].
    vm_compute. lia.
Defined.

(** ** From chunks back to parents *)

Lemma elem_of_referenced_parents (child_chunks : list Document) (p : Value) :
  p ∈ referenced_parents child_chunks
  ↔ ∃ chunk, chunk ∈ child_chunks
             ∧ metadata chunk !! "parent_id" = Some p
             ∧ truthy (Some p) = true.
Proof.
  unfold referenced_parents. rewrite list_elem_of_omap. split.
  - intros (chunk & Hin & Hp). exists chunk. split; [done|].
    destruct (metadata chunk !! "parent_id") as [q|]; [|done].
    destruct (truthy (Some q)) eqn:Hq; [|done].
    by injection Hp as ->.
  - intros (chunk & Hin & Hp & Ht). exists chunk. split; [done|].
    by rewrite Hp, Ht.
Qed.

Lemma guideline_link_children_parent
    (uuid4 : nat → list N) (doc_metadata : gmap string Value)
    (parent_id : Value) (md_chunks : list Document) :
  doc_metadata !! "parent_id" = Some parent_id →
  ∀ i pcm next linked,
  (GuidelineDataPreparationModule.link_children uuid4 doc_metadata parent_id
     i md_chunks pcm next).2 = inr linked →
  Forall (fun chunk => metadata chunk !! "parent_id" = Some parent_id) linked.
Proof.
  intros Hpid. induction md_chunks as [|piece rest IH];
    intros i pcm next linked.
  - cbn. intros [= <-]. constructor.
  - cbn [GuidelineDataPreparationModule.link_children].
    destruct (bind (GuidelineDataPreparationModule.getitem doc_metadata
                      "book_name") _) as [e|full_context]; [done|].
    specialize (IH (S i) (<[uuid4 next:=parent_id]> pcm) (S next)).
    destruct (GuidelineDataPreparationModule.link_children uuid4 doc_metadata
                parent_id (S i) rest _ _) as [[pcm' next'] rest'].
    cbn [snd] in *. destruct rest' as [e|rest']; [done|].
    cbn. intros [= <-]. constructor; [|by apply IH].
    cbn [metadata]. rewrite !lookup_insert_ne by done.
    by apply lookup_union_Some_l.
Qed.

Lemma guideline_chunk_loop_parent
    (split_text : list N → result (list Document)) (uuid4 : nat → list N)
    (docs : list Document) :
  ∀ pcm next all_chunks,
  (GuidelineDataPreparationModule.chunk_loop split_text uuid4 docs pcm
     next).2 = inr all_chunks →
  Forall (fun chunk =>
            ∃ doc, doc ∈ docs
                   ∧ is_Some (metadata doc !! "parent_id")
                   ∧ metadata chunk !! "parent_id"
                     = metadata doc !! "parent_id")
    all_chunks.
Proof.
  induction docs as [|doc rest IH]; intros pcm next all_chunks.
  - cbn. intros [= <-]. constructor.
  - cbn [GuidelineDataPreparationModule.chunk_loop].
    unfold GuidelineDataPreparationModule.getitem at 1.
    destruct (metadata doc !! "parent_id") as [parent_id|] eqn:Hpid; [|done].
    cbn [ret].
    destruct (split_text (page_content doc)) as [e|md_chunks]; [done|].
    pose proof (guideline_link_children_parent uuid4 (metadata doc) parent_id
                  md_chunks Hpid 0 pcm next) as Hlink.
    destruct (GuidelineDataPreparationModule.link_children uuid4 (metadata doc)
                parent_id 0 md_chunks pcm next) as [[pcm1 next1] r1].
    cbn [snd] in Hlink. destruct r1 as [e|linked]; [done|].
    specialize (IH pcm1 next1).
    destruct (GuidelineDataPreparationModule.chunk_loop split_text uuid4 rest
                pcm1 next1) as [[pcm2 next2] r2].
    cbn [snd] in *. destruct r2 as [e|others]; [done|].
    cbn. intros [= <-]. apply Forall_app. split.
    + eapply Forall_impl; [by apply Hlink|].
      intros chunk Hchunk. exists doc. split; [by left|].
      rewrite Hpid. by eauto.
    + eapply Forall_impl; [by apply IH|].
      intros chunk (d & Hd & Hsome & Heq). exists d. split; [by right | done].
Qed.

Lemma Forall2_elem_of_l {A B} (P : A → B → Prop) (l : list A) (k : list B)
    (x : A) :
  Forall2 P l k → x ∈ l → ∃ y, y ∈ k ∧ P x y.
Proof.
  induction 1 as [|a b l k Hab _ IH]; [by intros ?%elem_of_nil|].
  intros [->|Hin]%elem_of_cons.
  - exists b. split; [by left | done].
  - destruct (IH Hin) as (y & Hy & Hxy). exists y. split; [by right | done].
Qed.

Lemma Forall2_elem_of_r {A B} (P : A → B → Prop) (l : list A) (k : list B)
    (y : B) :
  Forall2 P l k → y ∈ k → ∃ x, x ∈ l ∧ P x y.
Proof.
  induction 1 as [|a b l k Hab _ IH]; [by intros ?%elem_of_nil|].
  intros [->|Hin]%elem_of_cons.
  - exists a. split; [by left | done].
  - destruct (IH Hin) as (x & Hx & Hxy). exists x. split; [by right | done].
Qed.

(** X19. In the hierarchical corpus every chunk finds its parent again.
    After chunking has returned, for documents whose parent identifier is
    a non-empty string (as loading gives them), resolving any selection
    of the chunks does not raise; each selected chunk has a document with
    its parent identifier in the answer, and the answer holds only
    documents of the corpus that some selected chunk names. *)
Theorem guideline_chunks_find_their_parents
    (split_text : list N → result (list Document)) (uuid4 : nat → list N)
    (st st' : GuidelineDataPreparationModule.state) (next next' : nat)
    (all_chunks child_chunks : list Document) :
  Forall (fun doc => ∃ p, metadata doc !! "parent_id" = Some (VStr p) ∧ p ≠ [])
    (GuidelineDataPreparationModule.documents st) →
  GuidelineDataPreparationModule.chunk_documents split_text uuid4 st next
  = (st', next', inr all_chunks) →
  (∀ chunk, chunk ∈ child_chunks → chunk ∈ all_chunks) →
  ∃ parents,
    GuidelineDataPreparationModule.get_parent_documents
      (GuidelineDataPreparationModule.documents st') child_chunks
    = inr parents
    ∧ (∀ chunk, chunk ∈ child_chunks →
         ∃ parent, parent ∈ parents
                   ∧ metadata parent !! "parent_id"
                     = metadata chunk !! "parent_id")
    ∧ (∀ parent, parent ∈ parents →
         parent ∈ GuidelineDataPreparationModule.documents st
         ∧ ∃ chunk, chunk ∈ child_chunks
                    ∧ metadata chunk !! "parent_id"
                      = metadata parent !! "parent_id").
Proof.
  intros Hdocs Hrun Hsel.
  destruct st as [docs chunks pcm].
  cbn [GuidelineDataPreparationModule.documents] in *.
  unfold GuidelineDataPreparationModule.chunk_documents in Hrun.
  cbn [GuidelineDataPreparationModule.documents
       GuidelineDataPreparationModule.chunks
       GuidelineDataPreparationModule.parent_child_map] in Hrun.
  pose proof (guideline_chunk_loop_parent split_text uuid4 docs pcm next)
    as Hloop.
  destruct (GuidelineDataPreparationModule.chunk_loop split_text uuid4 docs
              pcm next) as [[pcm' next1] r].
  cbn [snd] in Hloop.
  destruct docs as [|d0 ds] eqn:Hd; [done|]. rewrite <- Hd in *.
  destruct r as [e|all]; [done|]. injection Hrun as <- <- <-.
  cbn [GuidelineDataPreparationModule.documents].
  specialize (Hloop all eq_refl). rewrite Forall_forall in Hloop.
  assert (Forall (fun d => is_Some (metadata d !! "parent_id")) docs) as Hkeys.
  { eapply Forall_impl; [exact Hdocs|]. intros d (p & Hp & _). by eauto. }
  destruct (guideline_parents_in_encounter_order docs child_chunks Hkeys)
    as (out & ranked & Hout & Hrel & _ & Hin & _).
  exists out. split; [exact Hout|]. split.
  - intros chunk Hchunk.
    destruct (Hloop chunk (Hsel chunk Hchunk)) as (doc & Hdoc & _ & Heq).
    rewrite Forall_forall in Hdocs.
    destruct (Hdocs doc Hdoc) as (p & Hp & Hne).
    assert (VStr p ∈ ranked) as Hranked.
    { apply Hin. split.
      - apply elem_of_referenced_parents. exists chunk.
        split; [done|]. split; [by rewrite Heq|].
        cbn. by rewrite bool_decide_eq_false_2.
      - destruct (DataPreparationModule.find_parent (rev docs) (VStr p))
          eqn:Hfind; [by eauto|].
        rewrite find_parent_None in Hfind. exfalso.
        apply (Hfind doc); [by rewrite elem_of_rev | done]. }
    destruct (Forall2_elem_of_l _ _ _ _ Hrel Hranked) as (parent & Hparent & _ & Hpid).
    exists parent. split; [done|]. by rewrite Hpid, Heq.
  - intros parent Hparent.
    destruct (Forall2_elem_of_r _ _ _ _ Hrel Hparent)
      as (p & Hp & Hfind & Hpid).
    apply find_parent_Some in Hfind as [Hfind _].
    rewrite elem_of_rev in Hfind. split; [done|].
    apply Hin in Hp as [Hp _].
    apply elem_of_referenced_parents in Hp as (chunk & Hchunk & Hc & _).
    exists chunk. split; [done|]. by rewrite Hc, Hpid.
Qed.

Lemma guideline_chunks_find_their_parents_witness :
  ∃ parents,
    GuidelineDataPreparationModule.get_parent_documents
      (GuidelineDataPreparationModule.documents guideline_chunked.1.1)
      selected_chunks
    = inr parents
    ∧ (∀ chunk, chunk ∈ selected_chunks →
         ∃ parent, parent ∈ parents
                   ∧ metadata parent !! "parent_id"
                     = metadata chunk !! "parent_id")
    ∧ (∀ parent, parent ∈ parents →
         parent ∈ GuidelineDataPreparationModule.documents guideline_corpus
         ∧ ∃ chunk, chunk ∈ selected_chunks
                    ∧ metadata chunk !! "parent_id"
                      = metadata parent !! "parent_id").
Proof.
  apply (guideline_chunks_find_their_parents halving_split_text unary_uuid4
           guideline_corpus guideline_chunked.1.1 0 guideline_chunked.1.2
           guideline_all_chunks selected_chunks).
  - repeat constructor; eexists; (split; [vm_compute; reflexivity | done]).
  - by vm_compute.
  - apply Forall_forall. apply (bool_decide_unpack _). by vm_compute.
Defined.

Example selected_chunks_parents :
  (page_content
   <$> default []
         (match GuidelineDataPreparationModule.get_parent_documents
                  (GuidelineDataPreparationModule.documents
                     guideline_chunked.1.1) selected_chunks
          with inr parents => Some parents | inl _ => None end))
  = [py "## Scope"; py "# Imaging

Plain radiographs
first."].
Proof. by vm_compute. Qed.

Section FlatParents.
Variable split_text : list N → result (list Document).
Variable uuid4 : nat → list N.

Lemma flat_link_children_parent (doc_metadata : gmap string Value)
    (parent_id : Value) (md_chunks : list Document) :
  ∀ i pcm next,
  Forall (fun chunk => metadata chunk !! "parent_id" = Some parent_id)
    (DataPreparationModule.link_children uuid4 doc_metadata parent_id i
       md_chunks pcm next).1.1.
Proof.
  induction md_chunks as [|piece rest IH]; intros i pcm next; [constructor|].
  cbn [DataPreparationModule.link_children].
  specialize (IH (S i) (<[uuid4 next:=parent_id]> pcm) (S next)).
  destruct (DataPreparationModule.link_children uuid4 doc_metadata parent_id
              (S i) rest _ _) as [[rest' pcm'] next'].
  cbn [fst] in *. constructor; [|exact IH].
  cbn [metadata]. by lookup_key.
Qed.

Lemma split_document_fresh_parent (idx : nat) (doc : Document)
    (acc : DataPreparationModule.split_acc) (d : Document) :
  DataPreparationModule.Fresh d
    ∈ DataPreparationModule.all_chunks
        (DataPreparationModule.split_document split_text uuid4 idx doc acc) →
  DataPreparationModule.Fresh d ∈ DataPreparationModule.all_chunks acc
  ∨ (is_Some (metadata doc !! "parent_id")
     ∧ metadata d !! "parent_id" = metadata doc !! "parent_id").
Proof.
  unfold DataPreparationModule.split_document,
    DataPreparationModule.split_failed.
  destruct (split_text (page_content doc)) as [e|md_chunks].
  - cbn. rewrite elem_of_app, list_elem_of_singleton.
    intros [?|?]; [by left | done].
  - destruct (metadata doc !! "parent_id") as [parent_id|] eqn:Hpid.
    + pose proof (flat_link_children_parent (metadata doc) parent_id md_chunks
                    0 (DataPreparationModule.acc_map acc)
                    (DataPreparationModule.acc_next acc)) as Hlink.
      destruct (DataPreparationModule.link_children uuid4 (metadata doc)
                  parent_id 0 md_chunks _ _) as [[linked pcm] next'].
      cbn [fst] in Hlink. cbn. rewrite elem_of_app.
      intros [?|Hd]; [by left|]. right. split; [by eauto|].
      apply list_elem_of_fmap in Hd as (d' & [= ->] & Hd').
      rewrite Forall_forall in Hlink. by apply Hlink.
    + cbn. rewrite elem_of_app, list_elem_of_singleton.
      intros [?|?]; [by left | done].
Qed.

Lemma split_documents_fresh_parent (docs : list Document) (d : Document) :
  ∀ idx acc,
  DataPreparationModule.Fresh d
    ∈ DataPreparationModule.all_chunks
        (DataPreparationModule.split_documents split_text uuid4 idx docs acc) →
  DataPreparationModule.Fresh d ∈ DataPreparationModule.all_chunks acc
  ∨ ∃ doc, doc ∈ docs
           ∧ is_Some (metadata doc !! "parent_id")
           ∧ metadata d !! "parent_id" = metadata doc !! "parent_id".
Proof.
  induction docs as [|doc rest IH]; intros idx acc; [by left|].
  cbn [DataPreparationModule.split_documents]. intros Hd.
  destruct (IH _ _ Hd) as [Hacc|(doc' & Hin & Hsome & Heq)].
  - destruct (split_document_fresh_parent idx doc acc d Hacc)
      as [?|[Hsome Heq]]; [by left|].
    right. exists doc. split; [by left | done].
  - right. exists doc'. split; [by right | done].
Qed.

Lemma stamp_parent (i next : nat) (d : Document) :
  metadata (DataPreparationModule.stamp uuid4 i next d).1 !! "parent_id"
  = metadata d !! "parent_id".
Proof.
  unfold DataPreparationModule.stamp.
  destruct (metadata d !! "chunk_id"); cbn [fst metadata];
    by rewrite !lookup_insert_ne by done.
Qed.

Lemma stamp_chunks_documents_parents
    (cs : list DataPreparationModule.ChunkRef) :
  ∀ i docs next,
  (fun d => metadata d !! "parent_id")
  <$> (DataPreparationModule.stamp_chunks uuid4 i cs docs next).1.2
  = (fun d => metadata d !! "parent_id") <$> docs.
Proof.
  induction cs as [|c cs IH]; intros i docs next; [done|].
  cbn [DataPreparationModule.stamp_chunks]. destruct c as [d|j].
  - destruct (DataPreparationModule.stamp uuid4 i next d) as [d' next1].
    specialize (IH (S i) docs next1).
    destruct (DataPreparationModule.stamp_chunks uuid4 (S i) cs docs next1)
      as [[cs' docs'] next'].
    exact IH.
  - destruct (docs !! j) as [d|] eqn:Hj.
    + pose proof (stamp_parent i next d) as Hstamp.
      destruct (DataPreparationModule.stamp uuid4 i next d) as [d' next1].
      cbn [fst] in Hstamp.
      specialize (IH (S i) (<[j:=d']> docs) next1).
      destruct (DataPreparationModule.stamp_chunks uuid4 (S i) cs
                  (<[j:=d']> docs) next1) as [[cs' docs'] next'].
      cbn [fst snd] in *. rewrite IH, list_fmap_insert.
      apply list_insert_id. by rewrite list_lookup_fmap, Hj, Hstamp.
    + specialize (IH (S i) docs next).
      destruct (DataPreparationModule.stamp_chunks uuid4 (S i) cs docs next)
        as [[cs' docs'] next'].
      exact IH.
Qed.

(** Every fragment of the chunked flat corpus names the parent of a
    document that the module holds. *)
Lemma flat_fragments_parent (st st' : DataPreparationModule.state)
    (next next' : nat) (log : list Warning) (frag : Document) :
  DataPreparationModule.chunk_documents split_text uuid4 st next
  = inr (st', next', log) →
  frag ∈ DataPreparationModule.fragments st' →
  ((fun d => metadata d !! "parent_id")
   <$> DataPreparationModule.documents st')
  = ((fun d => metadata d !! "parent_id")
     <$> DataPreparationModule.documents st)
  ∧ (frag ∈ DataPreparationModule.documents st'
     ∨ ∃ doc, doc ∈ DataPreparationModule.documents st
              ∧ is_Some (metadata doc !! "parent_id")
              ∧ metadata frag !! "parent_id" = metadata doc !! "parent_id").
Proof.
  unfold DataPreparationModule.chunk_documents.
  destruct (DataPreparationModule.documents st) as [|d0 ds] eqn:Hst; [done|].
  rewrite <- Hst.
  set (acc := DataPreparationModule._markdown_header_split split_text uuid4 st
                next).
  pose proof (stamp_chunks_documents_parents
                (DataPreparationModule.all_chunks acc) 0
                (DataPreparationModule.documents st)
                (DataPreparationModule.acc_next acc)) as Hdocs.
  pose proof (stamp_chunks_keeps_ids uuid4
                (DataPreparationModule.all_chunks acc) 0
                (DataPreparationModule.documents st)
                (DataPreparationModule.acc_next acc)) as Hstamp.
  destruct (DataPreparationModule.stamp_chunks uuid4 0
              (DataPreparationModule.all_chunks acc)
              (DataPreparationModule.documents st)
              (DataPreparationModule.acc_next acc)) as [[cs docs'] next1].
  cbn [fst snd] in *. intros [= <- <- <-].
  unfold DataPreparationModule.fragments.
  cbn [DataPreparationModule.documents DataPreparationModule.chunks].
  intros Hfrag. split; [exact Hdocs|].
  apply list_elem_of_omap in Hfrag as (c & Hc & Hderef).
  destruct c as [d|j]; cbn [DataPreparationModule.deref] in Hderef.
  - injection Hderef as ->. right.
    destruct (Hstamp frag Hc) as (d & Hd & _ & Heq).
    destruct (split_documents_fresh_parent
                (DataPreparationModule.documents st) d 0 _ Hd)
      as [Hnil|(doc & Hdoc & Hsome & Heq')].
    + cbn in Hnil. by apply elem_of_nil in Hnil.
    + exists doc. split; [done|]. split; [done|]. by rewrite Heq.
  - left. by eapply list_elem_of_lookup_2.
Qed.
End FlatParents.

(** X20. In the flat corpus every fragment finds its parent again, the
    fragment that stands for a whole document after a failed split
    included. After chunking,
    for documents whose parent identifier is a non-empty string (as
    loading gives them), each fragment of a selection has a document
    with its parent identifier in the answer of the resolver, and the
    answer holds only documents of the module that some selected
    fragment names. Chunking leaves the parent identifiers of the
    documents as they are. *)
Theorem flat_fragments_find_their_parents
    (split_text : list N → result (list Document)) (uuid4 : nat → list N)
    (st st' : DataPreparationModule.state) (next next' : nat)
    (log : list Warning) (child_chunks : list Document) :
  Forall (fun doc => ∃ p, metadata doc !! "parent_id" = Some (VStr p) ∧ p ≠ [])
    (DataPreparationModule.documents st) →
  DataPreparationModule.chunk_documents split_text uuid4 st next
  = inr (st', next', log) →
  (∀ chunk, chunk ∈ child_chunks →
            chunk ∈ DataPreparationModule.fragments st') →
  let parents :=
    DataPreparationModule.get_parent_documents
      (DataPreparationModule.documents st') child_chunks in
  (∀ chunk, chunk ∈ child_chunks →
     ∃ parent, parent ∈ parents
               ∧ metadata parent !! "parent_id"
                 = metadata chunk !! "parent_id")
  ∧ (∀ parent, parent ∈ parents →
       parent ∈ DataPreparationModule.documents st'
       ∧ ∃ chunk, chunk ∈ child_chunks
                  ∧ metadata chunk !! "parent_id"
                    = metadata parent !! "parent_id")
  ∧ ((fun d => metadata d !! "parent_id")
     <$> DataPreparationModule.documents st')
    = ((fun d => metadata d !! "parent_id")
       <$> DataPreparationModule.documents st).
Proof.
  intros Hdocs Hrun Hsel parents.
  assert (((fun d => metadata d !! "parent_id")
           <$> DataPreparationModule.documents st')
          = ((fun d => metadata d !! "parent_id")
             <$> DataPreparationModule.documents st)) as Hids.
  { unfold DataPreparationModule.chunk_documents in Hrun.
    destruct (DataPreparationModule.documents st) as [|d0 ds] eqn:Hst;
      [done|]. rewrite <- Hst in *.
    pose proof (stamp_chunks_documents_parents uuid4
                  (DataPreparationModule.all_chunks
                     (DataPreparationModule._markdown_header_split split_text
                        uuid4 st next)) 0
                  (DataPreparationModule.documents st)
                  (DataPreparationModule.acc_next
                     (DataPreparationModule._markdown_header_split split_text
                        uuid4 st next))) as H.
    destruct (DataPreparationModule.stamp_chunks uuid4 0 _ _ _)
      as [[cs docs'] next1].
    injection Hrun as <- <- <-. exact H. }
  assert (∀ doc', doc' ∈ DataPreparationModule.documents st' →
            ∃ p, metadata doc' !! "parent_id" = Some (VStr p) ∧ p ≠ [])
    as Hdocs'.
  { intros doc' Hin. apply list_elem_of_lookup in Hin as [i Hi].
    assert (((fun d => metadata d !! "parent_id")
             <$> DataPreparationModule.documents st) !! i
            = Some (metadata doc' !! "parent_id")) as Hlook.
    { by rewrite <- Hids, list_lookup_fmap, Hi. }
    rewrite list_lookup_fmap in Hlook.
    destruct (DataPreparationModule.documents st !! i) as [doc|] eqn:Hdoc;
      [|done].
    injection Hlook as Hlook. rewrite <- Hlook.
    rewrite Forall_forall in Hdocs. apply Hdocs.
    by eapply list_elem_of_lookup_2. }
  assert (∀ chunk, chunk ∈ child_chunks →
            ∃ doc' p, doc' ∈ DataPreparationModule.documents st'
                      ∧ metadata doc' !! "parent_id" = Some (VStr p)
                      ∧ p ≠ []
                      ∧ metadata chunk !! "parent_id" = Some (VStr p))
    as Hfrag.
  { intros chunk Hchunk.
    destruct (flat_fragments_parent split_text uuid4 st st' next next' log
                chunk Hrun (Hsel chunk Hchunk))
      as [_ [Hin|(doc & Hdoc & _ & Heq)]].
    - destruct (Hdocs' chunk Hin) as (p & Hp & Hne). by exists chunk, p.
    - apply list_elem_of_lookup in Hdoc as [i Hi].
      assert (((fun d => metadata d !! "parent_id")
               <$> DataPreparationModule.documents st') !! i
              = Some (metadata doc !! "parent_id")) as Hlook.
      { by rewrite Hids, list_lookup_fmap, Hi. }
      rewrite list_lookup_fmap in Hlook.
      destruct (DataPreparationModule.documents st' !! i) as [doc'|] eqn:Hdoc';
        [|done].
      injection Hlook as Hlook.
      assert (doc' ∈ DataPreparationModule.documents st') as Hin
        by by eapply list_elem_of_lookup_2.
      destruct (Hdocs' doc' Hin) as (p & Hp & Hne).
      exists doc', p. split; [done|]. split; [done|]. split; [done|].
      by rewrite Heq, <- Hlook. }
  destruct (flat_parents_ranked (DataPreparationModule.documents st')
              child_chunks) as (ranked & Hrel & _ & Hin & _).
  fold parents in Hrel. split; [|split; [|exact Hids]].
  - intros chunk Hchunk.
    destruct (Hfrag chunk Hchunk) as (doc' & p & Hdoc' & Hp & Hne & Hc).
    assert (VStr p ∈ ranked) as Hranked.
    { apply Hin. split.
      - apply elem_of_referenced_parents. exists chunk.
        split; [done|]. split; [done|].
        cbn. by rewrite bool_decide_eq_false_2.
      - destruct (DataPreparationModule.find_parent
                    (DataPreparationModule.documents st') (VStr p))
          eqn:Hfind; [by eauto|].
        rewrite find_parent_None in Hfind. exfalso.
        by apply (Hfind doc'). }
    destruct (Forall2_elem_of_l _ _ _ _ Hrel Hranked)
      as (parent & Hparent & _ & Hpid).
    exists parent. split; [done|]. by rewrite Hpid, Hc.
  - intros parent Hparent.
    destruct (Forall2_elem_of_r _ _ _ _ Hrel Hparent)
      as (p & Hp & Hfind & Hpid).
    apply find_parent_Some in Hfind as [Hfind _]. split; [done|].
    apply Hin in Hp as [Hp _].
    apply elem_of_referenced_parents in Hp as (chunk & Hchunk & Hc & _).
    exists chunk. split; [done|]. by rewrite Hc, Hpid.
Qed.

Lemma flat_fragments_find_their_parents_witness :
  let parents :=
    DataPreparationModule.get_parent_documents
      (DataPreparationModule.documents flat_chunked_state)
      (DataPreparationModule.fragments flat_chunked_state) in
  (∀ chunk, chunk ∈ DataPreparationModule.fragments flat_chunked_state →
     ∃ parent, parent ∈ parents
               ∧ metadata parent !! "parent_id"
                 = metadata chunk !! "parent_id")
  ∧ (∀ parent, parent ∈ parents →
       parent ∈ DataPreparationModule.documents flat_chunked_state
       ∧ ∃ chunk, chunk ∈ DataPreparationModule.fragments flat_chunked_state
                  ∧ metadata chunk !! "parent_id"
                    = metadata parent !! "parent_id")
  ∧ ((fun d => metadata d !! "parent_id")
     <$> DataPreparationModule.documents flat_chunked_state)
    = ((fun d => metadata d !! "parent_id")
       <$> DataPreparationModule.documents flat_corpus).
Proof.
  apply (flat_fragments_find_their_parents fussy_split_text unary_uuid4
           flat_corpus flat_chunked_state 0 3
           [SplitFailed 1 (ExternalError (py "split_text"))]
           (DataPreparationModule.fragments flat_chunked_state)).
  - repeat constructor; eexists; (split; [vm_compute; reflexivity | done]).
  - by vm_compute.
  - done.
Defined.

Example flat_corpus_fragments :
  (page_content <$> DataPreparationModule.fragments flat_chunked_state)
  = [py "#"; py " Case 1"; py "## Case 2"]
  ∧ (page_content
     <$> DataPreparationModule.get_parent_documents
           (DataPreparationModule.documents flat_chunked_state)
           (DataPreparationModule.fragments flat_chunked_state))
    = [py "# Case 1"; py "## Case 2"].
Proof. split; by vm_compute. Qed.

(** ** The map from chunk to parent *)

Lemma unary_uuid4_inj (i j : nat) : unary_uuid4 i = unary_uuid4 j → i = j.
Proof.
  unfold unary_uuid4. intros H. apply (f_equal length) in H.
  by rewrite !repeat_length in H.
Qed.

(** X21. On the regular path of the flat chunker the map from chunk to
    parent can be trusted: when the identifiers drawn are pairwise
    distinct, the identifier of every fragment that the splitter
    produced is a key of the map, and the map sends it to the parent
    identifier in the metadata of the fragment, which is that of a
    document of the corpus. *)
Theorem flat_map_names_the_parent
    (split_text : list N → result (list Document)) (uuid4 : nat → list N)
    (st st' : DataPreparationModule.state) (next next' : nat)
    (log : list Warning) (d : Document) :
  (∀ i j, uuid4 i = uuid4 j → i = j) →
  DataPreparationModule.chunk_documents split_text uuid4 st next
  = inr (st', next', log) →
  DataPreparationModule.Fresh d ∈ DataPreparationModule.chunks st' →
  ∃ c parent_id doc,
    metadata d !! "chunk_id" = Some (VStr c)
    ∧ DataPreparationModule.parent_child_map st' !! c = Some parent_id
    ∧ metadata d !! "parent_id" = Some parent_id
    ∧ doc ∈ DataPreparationModule.documents st
    ∧ metadata doc !! "parent_id" = Some parent_id.
Proof.
  intros Hinj Hrun Hd.
  destruct (split_fragments_indexed split_text uuid4 Hinj st next st' next'
              log Hrun d Hd) as (c & Hc & [parent_id Hmap] & Heq).
  assert (d ∈ DataPreparationModule.fragments st') as Hfrag.
  { unfold DataPreparationModule.fragments. apply list_elem_of_omap.
    by exists (DataPreparationModule.Fresh d). }
  destruct (flat_fragments_parent split_text uuid4 st st' next next' log d
              Hrun Hfrag) as [Hids [Hin|(doc & Hdoc & _ & Hpid)]].
  - apply list_elem_of_lookup in Hin as [i Hi].
    assert (((fun d => metadata d !! "parent_id")
             <$> DataPreparationModule.documents st) !! i
            = Some (metadata d !! "parent_id")) as Hlook.
    { by rewrite <- Hids, list_lookup_fmap, Hi. }
    rewrite list_lookup_fmap in Hlook.
    destruct (DataPreparationModule.documents st !! i) as [doc|] eqn:Hdoc;
      [|done].
    injection Hlook as Hlook. exists c, parent_id, doc.
    split; [done|]. split; [done|]. split; [congruence|].
    split; [by eapply list_elem_of_lookup_2 | congruence].
  - exists c, parent_id, doc. split; [done|]. split; [done|].
    split; [congruence|]. split; [done | congruence].
Qed.

Lemma flat_map_names_the_parent_witness :
  ∃ c parent_id doc,
    metadata flat_first_fragment !! "chunk_id" = Some (VStr c)
    ∧ DataPreparationModule.parent_child_map flat_chunked_state !! c
      = Some parent_id
    ∧ metadata flat_first_fragment !! "parent_id" = Some parent_id
    ∧ doc ∈ DataPreparationModule.documents flat_corpus
    ∧ metadata doc !! "parent_id" = Some parent_id.
Proof.
  apply (flat_map_names_the_parent fussy_split_text unary_uuid4 flat_corpus
           flat_chunked_state 0 3
           [SplitFailed 1 (ExternalError (py "split_text"))]
           flat_first_fragment unary_uuid4_inj).
  - by vm_compute.
  - vm_compute. by left.
Defined.

(** X22. In the hierarchical corpus the map from chunk to parent can be
    trusted for every chunk: when the identifiers drawn are pairwise
    distinct and chunking has returned, the identifier of every chunk is
    a key of the map, and the map sends it to the parent identifier in
    the metadata of the chunk, which is that of a document of the
    corpus. *)
Theorem guideline_map_names_the_parent
    (split_text : list N → result (list Document)) (uuid4 : nat → list N)
    (st st' : GuidelineDataPreparationModule.state) (next next' : nat)
    (all_chunks : list Document) (d : Document) :
  (∀ i j, uuid4 i = uuid4 j → i = j) →
  GuidelineDataPreparationModule.chunk_documents split_text uuid4 st next
  = (st', next', inr all_chunks) →
  d ∈ all_chunks →
  ∃ c parent_id doc,
    metadata d !! "chunk_id" = Some (VStr c)
    ∧ GuidelineDataPreparationModule.parent_child_map st' !! c
      = Some parent_id
    ∧ metadata d !! "parent_id" = Some parent_id
    ∧ doc ∈ GuidelineDataPreparationModule.documents st
    ∧ metadata doc !! "parent_id" = Some parent_id.
Proof.
  intros Hinj Hrun Hd.
  destruct (guideline_fragments_indexed split_text uuid4 Hinj st next st'
              next' all_chunks Hrun) as [_ Hidx].
  destruct (Hidx d Hd) as (c & Hc & [parent_id Hmap] & Heq).
  unfold GuidelineDataPreparationModule.chunk_documents in Hrun.
  pose proof (guideline_chunk_loop_parent split_text uuid4
                (GuidelineDataPreparationModule.documents st)
                (GuidelineDataPreparationModule.parent_child_map st) next)
    as Hloop.
  destruct (GuidelineDataPreparationModule.documents st) as [|d0 ds] eqn:Hst;
    [done|]. rewrite <- Hst in *.
  destruct (GuidelineDataPreparationModule.chunk_loop split_text uuid4
              (GuidelineDataPreparationModule.documents st)
              (GuidelineDataPreparationModule.parent_child_map st) next)
    as [[pcm next1] r].
  cbn [snd] in Hloop. destruct r as [e|all]; [done|].
  injection Hrun as <- <- <-.
  specialize (Hloop all eq_refl). rewrite Forall_forall in Hloop.
  destruct (Hloop d Hd) as (doc & Hdoc & _ & Hpid).
  exists c, parent_id, doc. split; [done|]. split; [done|].
  split; [congruence|]. split; [done | congruence].
Qed.

Lemma guideline_map_names_the_parent_witness :
  ∃ c parent_id doc,
    metadata guideline_last_chunk !! "chunk_id" = Some (VStr c)
    ∧ GuidelineDataPreparationModule.parent_child_map guideline_chunked.1.1
        !! c = Some parent_id
    ∧ metadata guideline_last_chunk !! "parent_id" = Some parent_id
    ∧ doc ∈ GuidelineDataPreparationModule.documents guideline_corpus
    ∧ metadata doc !! "parent_id" = Some parent_id.
Proof.
  apply (guideline_map_names_the_parent halving_split_text unary_uuid4
           guideline_corpus guideline_chunked.1.1 0 guideline_chunked.1.2
           guideline_all_chunks guideline_last_chunk unary_uuid4_inj).
  - by vm_compute.
  - apply (bool_decide_unpack _). by vm_compute.
Defined.

(** ** The size of normalized text *)

(** Case analysis on a character that a pattern of the source compares
    with a literal: only the literal itself survives. *)
Ltac literal a :=
  destruct a as [|a]; [try (cbn; intros H; discriminate H)|];
  repeat (destruct a as [a|a|]; try (cbn; intros H; discriminate H)).

Lemma sub_length (match_at : list N → option (nat * list N)) :
  (∀ s n repl, match_at s = Some (n, repl) →
               (length repl ≤ n ≤ length s)%nat) →
  ∀ s skip, (length (Re.sub match_at skip s) ≤ length s - skip)%nat.
Proof.
  intros Hm. induction s as [|c r IH]; intros skip; [cbn; lia|].
  cbn [Re.sub]. destruct skip as [|k].
  - destruct (match_at (c :: r)) as [[[|k] repl]|] eqn:Hmatch.
    + specialize (IH 0%nat). cbn [length]. lia.
    + apply Hm in Hmatch. specialize (IH k).
      rewrite length_app. cbn [length] in *. lia.
    + specialize (IH 0%nat). cbn [length]. lia.
  - specialize (IH k). cbn [length]. lia.
Qed.

Lemma take_drop_while (f : N → bool) (s : list N) :
  Re.take_while f s ++ Re.drop_while f s = s.
Proof.
  induction s as [|c r IH]; [done|]. cbn. destruct (f c); [|done].
  cbn. by rewrite IH.
Qed.

Lemma span_to_le (stop : N) (bad : N → bool) (s : list N) (n : nat) :
  Re.span_to stop bad s = Some n → (n ≤ length s)%nat.
Proof.
  revert n. induction s as [|c r IH]; intros n; [done|].
  cbn [Re.span_to]. destruct (c =? stop).
  - intros [= <-]. cbn. lia.
  - destruct (bad c); [done|].
    destruct (Re.span_to stop bad r) as [m|]; [|done].
    intros [= <-]. specialize (IH m eq_refl). cbn. lia.
Qed.

Lemma caption_len_le (s : list N) (n : nat) :
  Re.caption_len s = Some n → (n + 2 ≤ length s)%nat.
Proof.
  revert n. induction s as [|c r IH]; intros n; [done|].
  cbn [Re.caption_len].
  destruct (startswith [93; 40] (c :: r)) eqn:Hs.
  - intros [= <-]. apply startswith_spec in Hs as [b Hb].
    rewrite Hb. cbn. lia.
  - destruct (c =? LF); [done|].
    destruct (Re.caption_len r) as [m|]; [|done].
    intros [= <-]. specialize (IH m eq_refl). cbn. lia.
Qed.

Lemma tag_at_shrinks (s : list N) (n : nat) (repl : list N) :
  Re.tag_at s = Some (n, repl) → (length repl ≤ n ≤ length s)%nat.
Proof.
  unfold Re.tag_at. destruct s as [|a [|c r]]; [done| |].
  - literal a.
  - literal a. cbn. destruct (c =? 62); [done|].
    destruct (Re.span_to 62 (fun _ => false) r) as [m|] eqn:Hm; [|done].
    intros [= <- <-]. apply span_to_le in Hm. cbn. lia.
Qed.

Lemma br_at_shrinks (s : list N) (n : nat) (repl : list N) :
  Re.br_at s = Some (n, repl) → (length repl ≤ n ≤ length s)%nat.
Proof.
  unfold Re.br_at. destruct s as [|a [|b [|c r]]]; [done| | |].
  - literal a.
  - literal a; literal b.
  - literal a; literal b; literal c.
    pose proof (take_drop_while is_space r) as Hr.
    apply (f_equal length) in Hr. rewrite length_app in Hr.
    destruct (Re.drop_while is_space r) as [|x d]; [done|].
    literal x.
    + destruct d as [|y d]; [done|]. literal y.
      intros [= <- <-]. cbn in *. lia.
    + intros [= <- <-]. cbn in *. lia.
Qed.

Lemma image_at_shrinks (s : list N) (n : nat) (repl : list N) :
  Re.image_at s = Some (n, repl) → (length repl ≤ n ≤ length s)%nat.
Proof.
  unfold Re.image_at. destruct s as [|a [|b r]]; [done| |].
  - literal a.
  - literal a; literal b.
    destruct (Re.caption_len r) as [k|] eqn:Hk; [|done].
    destruct (Re.span_to 41 (N.eqb LF) (drop (k + 2) r)) as [m|] eqn:Hm;
      [|done].
    intros [= <- <-]. apply caption_len_le in Hk. apply span_to_le in Hm.
    rewrite length_drop in Hm. rewrite length_take. cbn [length]. lia.
Qed.

Lemma image_drop_at_shrinks (s : list N) (n : nat) (repl : list N) :
  Re.image_drop_at s = Some (n, repl) → (length repl ≤ n ≤ length s)%nat.
Proof.
  unfold Re.image_drop_at.
  destruct (Re.image_at s) as [[k caption]|] eqn:Him; [|done].
  intros [= <- <-]. apply image_at_shrinks in Him. cbn. lia.
Qed.

Lemma blank_lines_at_shrinks (s : list N) (n : nat) (repl : list N) :
  Re.blank_lines_at s = Some (n, repl) → (length repl ≤ n ≤ length s)%nat.
Proof.
  unfold Re.blank_lines_at.
  pose proof (take_drop_while (N.eqb LF) s) as Hs.
  apply (f_equal length) in Hs. rewrite length_app in Hs.
  destruct (Nat.leb_spec 3 (length (Re.take_while (N.eqb LF) s)));
    [|done].
  intros [= <- <-]. cbn. lia.
Qed.

Lemma before_ref_heading_length (kws : list (list N)) (s : list N) :
  ∀ bol, (length (Re.before_ref_heading kws bol s) ≤ length s)%nat.
Proof.
  induction s as [|c r IH]; intros bol; [done|].
  cbn [Re.before_ref_heading].
  destruct (bol && Re.ref_heading_at kws (c :: r)); cbn [length]; [lia|].
  specialize (IH (c =? LF)). lia.
Qed.

Lemma strip_length (s : list N) : (length (strip s) ≤ length s)%nat.
Proof.
  destruct (strip_spec s) as (a & b & Hs & _).
  rewrite Hs at 2. rewrite !length_app. lia.
Qed.

(** X23. Normalizing never makes a text longer: every step of either
    normalizer cuts the text or replaces a match by something no longer
    than the match. *)
Theorem normalizers_never_grow (text : list N) :
  (length (DataPreparationModule.clean_academic_markdown text)
   ≤ length text)%nat
  ∧ (length (GuidelineDataPreparationModule.clean_guideline_markdown text)
     ≤ length text)%nat.
Proof.
  pose proof (sub_length Re.tag_at tag_at_shrinks) as Htag.
  pose proof (sub_length Re.br_at br_at_shrinks) as Hbr.
  pose proof (sub_length Re.image_at image_at_shrinks) as Himage.
  pose proof (sub_length Re.image_drop_at image_drop_at_shrinks) as Hdrop.
  pose proof (sub_length Re.blank_lines_at blank_lines_at_shrinks) as Hblank.
  unfold DataPreparationModule.clean_academic_markdown,
    GuidelineDataPreparationModule.clean_guideline_markdown.
  destruct text as [|c text]; [done|]. split.
  - etrans; [apply strip_length|].
    etrans; [apply (Hblank _ 0%nat)|]. rewrite Nat.sub_0_r.
    etrans; [apply (Hdrop _ 0%nat)|]. rewrite Nat.sub_0_r.
    etrans; [apply (Htag _ 0%nat)|]. rewrite Nat.sub_0_r.
    apply before_ref_heading_length.
  - etrans; [apply strip_length|].
    etrans; [apply (Hblank _ 0%nat)|]. rewrite Nat.sub_0_r.
    etrans; [apply (Himage _ 0%nat)|]. rewrite Nat.sub_0_r.
    etrans; [apply (Htag _ 0%nat)|]. rewrite Nat.sub_0_r.
    etrans; [apply (Hbr _ 0%nat)|]. rewrite Nat.sub_0_r.
    apply before_ref_heading_length.
Qed.

(** ** The stamps of the flat chunker *)

Lemma omap_lookup_total {A B} (f : A → option B) (l : list A) :
  Forall (fun a => is_Some (f a)) l →
  length (omap f l) = length l ∧ ∀ k, omap f l !! k = l !! k ≫= f.
Proof.
  induction 1 as [|a l [b Hb] _ [IHlen IH]]; [done|].
  cbn [omap list_omap]. rewrite Hb. cbn [length]. split; [by rewrite IHlen|].
  intros [|k]; [by cbn; rewrite Hb | apply IH].
Qed.

Lemma parent_indices_app (cs1 cs2 : list DataPreparationModule.ChunkRef) :
  parent_indices (cs1 ++ cs2) = parent_indices cs1 ++ parent_indices cs2.
Proof. unfold parent_indices. apply omap_app. Qed.

Lemma parent_indices_Fresh (linked : list Document) :
  parent_indices (map DataPreparationModule.Fresh linked) = [].
Proof. induction linked as [|d l IH]; [done | exact IH]. Qed.

Section FlatStamps.
Variable split_text : list N → result (list Document).
Variable uuid4 : nat → list N.

Lemma stamp_stamped (i next : nat) (d : Document) :
  stamped i (DataPreparationModule.stamp uuid4 i next d).1
  ∧ page_content (DataPreparationModule.stamp uuid4 i next d).1
    = page_content d.
Proof.
  unfold DataPreparationModule.stamp, stamped.
  destruct (metadata d !! "chunk_id") as [cid|] eqn:Hcid;
    cbn [fst metadata page_content].
  - split; [|done]. split; [by lookup_key|]. split; [by lookup_key|].
    rewrite !lookup_insert_ne by done. by rewrite Hcid.
  - split; [|done]. split; [by lookup_key|]. split; [by lookup_key|].
    rewrite !lookup_insert_ne by done. rewrite lookup_insert_eq. by eexists.
Qed.

Lemma split_documents_parent_indices (docs : list Document) :
  ∀ idx acc,
  Forall (fun j => (j < idx)%nat)
    (parent_indices (DataPreparationModule.all_chunks acc)) →
  NoDup (parent_indices (DataPreparationModule.all_chunks acc)) →
  let acc' := DataPreparationModule.split_documents split_text uuid4 idx docs
                acc in
  Forall (fun j => (j < idx + length docs)%nat)
    (parent_indices (DataPreparationModule.all_chunks acc'))
  ∧ NoDup (parent_indices (DataPreparationModule.all_chunks acc')).
Proof.
  induction docs as [|doc rest IH]; intros idx acc Hlt Hnd.
  - cbn. split; [|done]. eapply Forall_impl; [exact Hlt|].
    intros j Hj. cbn in Hj. lia.
  - cbn [DataPreparationModule.split_documents length].
    replace (idx + S (length rest))%nat with (S idx + length rest)%nat by lia.
    apply IH.
    + unfold DataPreparationModule.split_document,
        DataPreparationModule.split_failed.
      destruct (split_text (page_content doc)) as [e|md_chunks];
        [|destruct (metadata doc !! "parent_id") as [parent_id|];
          [destruct (DataPreparationModule.link_children uuid4 (metadata doc)
                       parent_id 0 md_chunks _ _) as [[linked pcm] next']|]];
        cbn [DataPreparationModule.all_chunks];
        rewrite parent_indices_app, ?parent_indices_Fresh;
        apply Forall_app; (split;
          [eapply Forall_impl; [exact Hlt|]; intros j Hj; cbn in Hj; lia|]);
        repeat constructor.
    + unfold DataPreparationModule.split_document,
        DataPreparationModule.split_failed.
      assert (NoDup (parent_indices (DataPreparationModule.all_chunks acc)
                     ++ [idx])) as Hsnoc.
      { apply NoDup_app. split; [done|]. split; [|apply NoDup_singleton].
        intros j Hj ->%list_elem_of_singleton.
        rewrite Forall_forall in Hlt. specialize (Hlt idx Hj). lia. }
      destruct (split_text (page_content doc)) as [e|md_chunks];
        [|destruct (metadata doc !! "parent_id") as [parent_id|];
          [destruct (DataPreparationModule.link_children uuid4 (metadata doc)
                       parent_id 0 md_chunks _ _) as [[linked pcm] next']|]];
        cbn [DataPreparationModule.all_chunks];
        rewrite parent_indices_app, ?parent_indices_Fresh, ?app_nil_r;
        done.
Qed.

Lemma stamp_chunks_frame (cs : list DataPreparationModule.ChunkRef) :
  ∀ i docs next j,
  j ∉ parent_indices cs →
  (DataPreparationModule.stamp_chunks uuid4 i cs docs next).1.2 !! j
  = docs !! j.
Proof.
  induction cs as [|c cs IH]; intros i docs next j Hj; [done|].
  cbn [DataPreparationModule.stamp_chunks]. destruct c as [d|j'].
  - destruct (DataPreparationModule.stamp uuid4 i next d) as [d' next1].
    specialize (IH (S i) docs next1 j Hj).
    destruct (DataPreparationModule.stamp_chunks uuid4 (S i) cs docs next1)
      as [[cs' docs'] next'].
    exact IH.
  - cbn in Hj. apply not_elem_of_cons in Hj as [Hne Hj].
    destruct (docs !! j') as [d|].
    + destruct (DataPreparationModule.stamp uuid4 i next d) as [d' next1].
      specialize (IH (S i) (<[j':=d']> docs) next1 j Hj).
      destruct (DataPreparationModule.stamp_chunks uuid4 (S i) cs
                  (<[j':=d']> docs) next1) as [[cs' docs'] next'].
      cbn [fst snd] in *. rewrite IH. by apply list_lookup_insert_ne.
    + specialize (IH (S i) docs next j Hj).
      destruct (DataPreparationModule.stamp_chunks uuid4 (S i) cs docs next)
        as [[cs' docs'] next'].
      exact IH.
Qed.

Lemma stamp_chunks_stamped (cs : list DataPreparationModule.ChunkRef) :
  ∀ i docs next,
  NoDup (parent_indices cs) →
  Forall (fun j => (j < length docs)%nat) (parent_indices cs) →
  let r := DataPreparationModule.stamp_chunks uuid4 i cs docs next in
  ∀ k c, r.1.1 !! k = Some c →
         ∃ frag, DataPreparationModule.deref r.1.2 c = Some frag
                 ∧ stamped (i + k) frag.
Proof.
  induction cs as [|c cs IH]; intros i docs next Hnd Hlt;
    [intros r k c; subst r; cbn; by rewrite lookup_nil|].
  cbn [DataPreparationModule.stamp_chunks]. destruct c as [d|j].
  - pose proof (stamp_stamped i next d) as [Hd _].
    destruct (DataPreparationModule.stamp uuid4 i next d) as [d' next1].
    specialize (IH (S i) docs next1 Hnd Hlt).
    destruct (DataPreparationModule.stamp_chunks uuid4 (S i) cs docs next1)
      as [[cs' docs'] next'].
    cbn [fst snd] in *. intros [|k] c Hk.
    + injection Hk as <-. exists d'. rewrite Nat.add_0_r. by split.
    + rewrite Nat.add_succ_r. by apply IH.
  - cbn in Hnd, Hlt. apply NoDup_cons in Hnd as [Hj Hnd].
    apply Forall_cons in Hlt as [Hjlt Hlt].
    destruct (lookup_lt_is_Some_2 docs j Hjlt) as [d Hd]. rewrite Hd.
    pose proof (stamp_stamped i next d) as [Hstamped _].
    destruct (DataPreparationModule.stamp uuid4 i next d) as [d' next1].
    pose proof (stamp_chunks_frame cs (S i) (<[j:=d']> docs) next1 j Hj)
      as Hframe.
    specialize (IH (S i) (<[j:=d']> docs) next1 Hnd).
    rewrite length_insert in IH. specialize (IH Hlt).
    destruct (DataPreparationModule.stamp_chunks uuid4 (S i) cs
                (<[j:=d']> docs) next1) as [[cs' docs'] next'].
    cbn [fst snd] in *. intros [|k] c Hk.
    + injection Hk as <-. exists d'. rewrite Nat.add_0_r.
      split; [|done]. cbn [DataPreparationModule.deref].
      rewrite Hframe. by apply list_lookup_insert_eq.
    + rewrite Nat.add_succ_r. by apply IH.
Qed.
End FlatStamps.

(** X24. The flat chunker stamps what it returns: the fragment at
    position [i] of the list carries [i] as [batch_index], the length of
    its text as [chunk_size], and a [chunk_id]; this holds for a whole
    document that stands in after a failed split as well, so that such a
    document itself carries the three keys afterwards. Every element of
    the chunk list is a fragment. *)
Theorem flat_fragments_stamped
    (split_text : list N → result (list Document)) (uuid4 : nat → list N)
    (st st' : DataPreparationModule.state) (next next' : nat)
    (log : list Warning) :
  DataPreparationModule.chunk_documents split_text uuid4 st next
  = inr (st', next', log) →
  length (DataPreparationModule.fragments st')
  = length (DataPreparationModule.chunks st')
  ∧ (∀ i frag, DataPreparationModule.fragments st' !! i = Some frag →
               stamped i frag)
  ∧ (∀ i j, DataPreparationModule.chunks st' !! i
            = Some (DataPreparationModule.Parent j) →
            ∃ doc, DataPreparationModule.documents st' !! j = Some doc
                   ∧ stamped i doc).
Proof.
  unfold DataPreparationModule.chunk_documents.
  destruct (DataPreparationModule.documents st) as [|d0 ds] eqn:Hst; [done|].
  rewrite <- Hst.
  destruct (split_documents_parent_indices split_text uuid4
              (DataPreparationModule.documents st) 0
              (DataPreparationModule.mkAcc []
                 (DataPreparationModule.parent_child_map st) next []))
    as [Hlt Hnd]; [constructor | constructor |].
  fold (DataPreparationModule._markdown_header_split split_text uuid4 st next)
    in Hlt, Hnd.
  set (acc := DataPreparationModule._markdown_header_split split_text uuid4 st
                next) in *.
  pose proof (stamp_chunks_stamped uuid4
                (DataPreparationModule.all_chunks acc) 0
                (DataPreparationModule.documents st)
                (DataPreparationModule.acc_next acc) Hnd Hlt) as Hstamped.
  destruct (DataPreparationModule.stamp_chunks uuid4 0
              (DataPreparationModule.all_chunks acc)
              (DataPreparationModule.documents st)
              (DataPreparationModule.acc_next acc)) as [[cs docs'] next1].
  cbn [fst snd] in Hstamped. intros [= <- <- <-].
  unfold DataPreparationModule.fragments.
  cbn [DataPreparationModule.documents DataPreparationModule.chunks].
  destruct (omap_lookup_total (DataPreparationModule.deref docs') cs)
    as [Hlen Hlook].
  { apply Forall_forall. intros c Hc.
    apply list_elem_of_lookup in Hc as [k Hk].
    destruct (Hstamped k c Hk) as (frag & Hfrag & _). by eauto. }
  split; [exact Hlen|]. split.
  - intros i frag Hi. rewrite Hlook in Hi.
    destruct (cs !! i) as [c|] eqn:Hc; [|done]. cbn in Hi.
    destruct (Hstamped i c Hc) as (frag' & Hfrag' & Hs).
    rewrite Hfrag' in Hi. injection Hi as <-. exact Hs.
  - intros i j Hi. destruct (Hstamped i _ Hi) as (doc & Hdoc & Hs).
    by exists doc.
Qed.

Lemma flat_fragments_stamped_witness :
  length (DataPreparationModule.fragments flat_chunked_state)
  = length (DataPreparationModule.chunks flat_chunked_state)
  ∧ (∀ i frag,
       DataPreparationModule.fragments flat_chunked_state !! i = Some frag →
       stamped i frag)
  ∧ (∀ i j, DataPreparationModule.chunks flat_chunked_state !! i
            = Some (DataPreparationModule.Parent j) →
            ∃ doc,
              DataPreparationModule.documents flat_chunked_state !! j
              = Some doc
              ∧ stamped i doc).
Proof.
  apply (flat_fragments_stamped fussy_split_text unary_uuid4 flat_corpus
           flat_chunked_state 0 3
           [SplitFailed 1 (ExternalError (py "split_text"))]).
  by vm_compute.
Defined.

Example flat_corpus_fallback_stamps_parent :
  DataPreparationModule.chunks flat_chunked_state !! 2%nat
  = Some (DataPreparationModule.Parent 1)
  ∧ (metadata <$> DataPreparationModule.documents flat_chunked_state !! 1%nat)
    = Some (<["chunk_size" := VInt 9]>
              (<["batch_index" := VInt 2]>
                 (<["chunk_id" := VStr (unary_uuid4 2)]>
                    {["parent_id" := VStr (py "p2")]}))).
Proof. split; by vm_compute. Qed.
